(** * Order-form layout engine (src/app.py): shallow embedding and properties

    The definitions follow the source file:
    - [PyStr]    Python [str] values and the string methods the code uses;
    - [PyFloat]  Python [float] values (IEEE-754 binary64, after the
                 specification of floats of the standard library) and the
                 numeric built-ins: [float], [repr], [sum], the [",.2f"] format;
    - [Py]       values of several types, exceptions, [dict] rows;
    - [Money], [Dates], [Rows]   the value helpers of app.py;
    - [Wrap]     [wrap_text_to_width];
    - [Canvas]   the calls on the reportlab canvas; a rendering is the list of
                 the calls made;
    - [Table]    the services table of [create_branded_pdf];
    - [Flow]     [draw_agreement_section] with its [ensure_space], and the
                 usage terms loop of [create_branded_pdf];
    - [Order], [Stated]   the order of the sort keys, and the statements of
                 the specification that the code is compared with.
    The properties come after the definitions, module by module. *)

From Stdlib Require Import ZArith NArith Bool Lia String Ascii SpecFloat Sorted.
From stdpp Require Import gmap strings list.

Local Open Scope Z_scope.

(** ** Python strings *)

Module PyStr.

(** A Python [str] is a sequence of Unicode code points. *)
Definition char := N.
Definition str := list char.

(** Literals of the source are written [py "..."] (ASCII text). *)
Definition py (s : string) : str :=
  (fun a => N_of_ascii a) <$> list_ascii_of_string s.

Definition char_eqb (a b : char) : bool := N.eqb a b.

(** [str.isspace] on one character: the code points CPython classifies as
    whitespace (bidirectional class WS, B or S, or category Zs). *)
Definition isspace (c : char) : bool :=
  ((9 <=? c) && (c <=? 13) || (28 <=? c) && (c <=? 32)
   || (c =? 133) || (c =? 160) || (c =? 5760)
   || (8192 <=? c) && (c <=? 8202) || (c =? 8232) || (c =? 8233)
   || (c =? 8239) || (c =? 8287) || (c =? 12288))%N.

Definition space : char := 32%N.

Fixpoint lstrip (s : str) : str :=
  match s with
  | [] => []
  | c :: s' => if isspace c then lstrip s' else s
  end.

Fixpoint rstrip (s : str) : str :=
  match s with
  | [] => []
  | c :: s' =>
      match rstrip s' with
      | [] => if isspace c then [] else [c]
      | r => c :: r
      end
  end.

(** [s.strip()] *)
Definition strip (s : str) : str := rstrip (lstrip s).

(** [s.split()]: the maximal runs of non-whitespace characters, in order. *)
Fixpoint split (s : str) : list str :=
  match s with
  | [] => []
  | c :: s' =>
      if isspace c then split s'
      else match s' with
           | [] => [[c]]
           | c' :: _ =>
               if isspace c' then [c] :: split s'
               else match split s' with
                    | w :: ws => (c :: w) :: ws
                    | [] => [[c]]
                    end
           end
  end.

(** [sep.join(parts)] *)
Fixpoint join (sep : str) (parts : list str) : str :=
  match parts with
  | [] => []
  | [p] => p
  | p :: rest => p ++ sep ++ join sep rest
  end.

(** [s.replace(old, new)] for a one-character [old]. *)
Definition replace (old : char) (new : str) (s : str) : str :=
  mjoin ((fun c => if char_eqb c old then new else [c]) <$> s).

Fixpoint startswith (s pre : str) : bool :=
  match pre, s with
  | [], _ => true
  | p :: pre', c :: s' => char_eqb c p && startswith s' pre'
  | _ :: _, [] => false
  end.

(** [s.endswith(suffix)] *)
Definition endswith (s suffix : str) : bool :=
  startswith (reverse s) (reverse suffix).

Fixpoint str_eqb (a b : str) : bool :=
  match a, b with
  | [], [] => true
  | x :: a', y :: b' => char_eqb x y && str_eqb a' b'
  | _, _ => false
  end.

(** [needle in s] *)
Fixpoint contains (s needle : str) : bool :=
  startswith s needle ||
  match s with
  | [] => false
  | _ :: s' => contains s' needle
  end.

(** A word: non-empty and free of whitespace. *)
Definition is_word (w : str) : Prop :=
  w <> [] /\ Forall (fun c => isspace c = false) w.

End PyStr.

(** ** Python floats *)

Module PyFloat.
Import PyStr.

(** A Python [float] is an IEEE-754 binary64 number. *)
Definition prec : Z := 53.
Definition emax : Z := 1024.
Definition float := spec_float.

Definition fadd : float -> float -> float := SFadd prec emax.
Definition fsub : float -> float -> float := SFsub prec emax.
Definition fmul : float -> float -> float := SFmul prec emax.
Definition fdiv : float -> float -> float := SFdiv prec emax.
Definition fneg : float -> float := SFopp.
Definition flt : float -> float -> bool := SFltb.
Definition fle : float -> float -> bool := SFleb.
Definition feq : float -> float -> bool := SFeqb.

Definition is_nan (x : float) : bool :=
  match x with S754_nan => true | _ => false end.

Definition is_finite (x : float) : bool :=
  match x with S754_zero _ | S754_finite _ _ _ => true | _ => false end.

Definition sign_bit (x : float) : bool :=
  match x with
  | S754_zero s | S754_infinity s | S754_finite s _ _ => s
  | S754_nan => false
  end.

(** [float(n)] for an [int] in the finite range, and the value of an
    integer literal used in float arithmetic: nearest double, ties to even. *)
Definition of_Z (z : Z) : float := binary_normalize prec emax z 0 false.

(** The double of a whole number [c] below 2^53, with sign [s]: the
    mantissa is [c] shifted to 53 bits. *)
Definition canon (s : bool) (c : positive) : float :=
  S754_finite s (Pos.shiftl_nat c (Z.to_nat (53 - Zpos (Pos.size c))))
    (Zpos (Pos.size c) - 53).

(** The double nearest to [n / d] (ties to even), with sign [s]. *)
Definition of_ratio (s : bool) (n d : positive) : float :=
  let '(m, e, l) := SFdiv_core_binary prec emax (Zpos n) 0 (Zpos d) 0 in
  binary_round_aux prec emax s m e l.

(** The double nearest to [m * 10^e10]: the value of a decimal literal. *)
Definition of_decimal (s : bool) (m : N) (e10 : Z) : float :=
  match m with
  | N0 => S754_zero s
  | Npos p =>
      match e10 with
      | Zneg k => of_ratio s p (Pos.pow 10 k)
      | _ => binary_round prec emax s (p * Z.to_pos (10 ^ e10))%positive 0
      end
  end.

(** Exact value of a finite double as a dyadic number [m * 2^e]. *)
Definition dyadic : Type := Z * Z.

Definition value (x : float) : option dyadic :=
  match x with
  | S754_zero _ => Some (0, 0)
  | S754_finite s m e => Some (if s then Zneg m else Zpos m, e)
  | _ => None
  end.

Definition dyadic_add (a b : dyadic) : dyadic :=
  let e := Z.min (snd a) (snd b) in
  (fst a * 2 ^ (snd a - e) + fst b * 2 ^ (snd b - e), e).

(** Same rational number. *)
Definition dyadic_eqb (a b : dyadic) : bool :=
  let e := Z.min (snd a) (snd b) in
  fst a * 2 ^ (snd a - e) =? fst b * 2 ^ (snd b - e).

(** The built-in [sum] over floats.  The items are added left to right to
    the start value [0]; CPython adds them one by one up to version 3.11,
    and from version 3.12 on keeps the rounding errors of the additions in a
    compensation term that is added at the end. *)
Inductive summation := PlainSum | CompensatedSum.

Definition fabs (x : float) : float := SFabs x.

Definition sum_plain (xs : list float) : float := foldl fadd (of_Z 0) xs.

Definition compensated_step (acc : float * float) (x : float) : float * float :=
  let '(f, c) := acc in
  let t := fadd f x in
  (t, if fle (fabs x) (fabs f)
      then fadd c (fadd (fsub f t) x)
      else fadd c (fadd (fsub x t) f)).

Definition sum_compensated (xs : list float) : float :=
  match xs with
  | [] => of_Z 0
  | x :: rest =>
      let '(f, c) := foldl compensated_step (fadd (of_Z 0) x, S754_zero false) rest in
      if negb (feq c (S754_zero false)) && is_finite c then fadd f c else f
  end.

Definition py_sum (alg : summation) (xs : list float) : float :=
  match alg with
  | PlainSum => sum_plain xs
  | CompensatedSum => sum_compensated xs
  end.

Definition every_summation (P : summation -> Prop) : Prop :=
  P PlainSum /\ P CompensatedSum.

(** *** Decimal output *)

Definition digit_char (d : N) : char := (48 + d)%N.

Fixpoint uint_chars (u : Decimal.uint) : str :=
  match u with
  | Decimal.Nil => []
  | Decimal.D0 u' => digit_char 0 :: uint_chars u'
  | Decimal.D1 u' => digit_char 1 :: uint_chars u'
  | Decimal.D2 u' => digit_char 2 :: uint_chars u'
  | Decimal.D3 u' => digit_char 3 :: uint_chars u'
  | Decimal.D4 u' => digit_char 4 :: uint_chars u'
  | Decimal.D5 u' => digit_char 5 :: uint_chars u'
  | Decimal.D6 u' => digit_char 6 :: uint_chars u'
  | Decimal.D7 u' => digit_char 7 :: uint_chars u'
  | Decimal.D8 u' => digit_char 8 :: uint_chars u'
  | Decimal.D9 u' => digit_char 9 :: uint_chars u'
  end.

(** [str(n)] for a non-negative [int]. *)
Definition N_chars (n : N) : str := uint_chars (N.to_uint n).

(** Digits grouped in threes from the right, for the [","] format option;
    the argument and the result are in reverse order. *)
Fixpoint group3_rev (ds : str) : str :=
  match ds with
  | a :: b :: c :: ((_ :: _) as rest) => a :: b :: c :: 44%N :: group3_rev rest
  | _ => ds
  end.

Definition group3 (ds : str) : str := reverse (group3_rev (reverse ds)).

(** [m * 2^e * 100] rounded to an integer, ties to even. *)
Definition round_hundredths (m : Z) (e : Z) : Z :=
  match e with
  | Zneg k =>
      let d := Z.pow_pos 2 k in
      let n := m * 100 in
      let q := n / d in
      let r := n mod d in
      match Z.compare (2 * r) d with
      | Lt => q
      | Gt => q + 1
      | Eq => if Z.even q then q else q + 1
      end
  | _ => m * 2 ^ e * 100
  end.

(** The text of [|v|] with thousands separators and two decimals. *)
Definition fixed2_abs (v : dyadic) : str :=
  let c := Z.to_N (round_hundredths (Z.abs (fst v)) (snd v)) in
  let frac := (c mod 100)%N in
  group3 (N_chars (c / 100)) ++ py "."
    ++ [digit_char (frac / 10); digit_char (frac mod 10)].

Definition sign_text (s : bool) : str := if s then py "-" else [].

(** [format(x, ",.2f")] *)
Definition format_comma_2f (x : float) : str :=
  match x with
  | S754_nan => py "nan"
  | S754_infinity s => sign_text s ++ py "inf"
  | S754_zero s => sign_text s ++ fixed2_abs (0, 0)
  | S754_finite s m e => sign_text s ++ fixed2_abs (Zpos m, e)
  end.

(** *** The built-in [float] on a [str]

    [None] stands for the [ValueError] that CPython raises on text outside
    the grammar: optional sign, then [inf], [infinity] or [nan] in any case,
    or decimal digits (single underscores allowed between digits) with an
    optional fraction and exponent; surrounding whitespace is ignored.
    Digits are the ASCII ones. *)

Definition is_digit (c : char) : bool := ((48 <=? c) && (c <=? 57))%N.
Definition digit_val (c : char) : N := (c - 48)%N.

Definition lower_char (c : char) : char :=
  if ((65 <=? c) && (c <=? 90))%N then (c + 32)%N else c.

Definition lower (s : str) : str := lower_char <$> s.

Fixpoint digitpart_rest (s : str) : option (list N * str) :=
  match s with
  | [] => Some ([], [])
  | c :: s' =>
      if is_digit c then
        match digitpart_rest s' with
        | Some (ds, r) => Some (digit_val c :: ds, r)
        | None => None
        end
      else if char_eqb c 95%N then
        match s' with
        | c2 :: _ => if is_digit c2 then digitpart_rest s' else None
        | [] => None
        end
      else Some ([], s)
  end.

(** A digit part if the text starts with a digit, no digits otherwise. *)
Definition opt_digitpart (s : str) : option (list N * str) :=
  match s with
  | c :: _ => if is_digit c then digitpart_rest s else Some ([], s)
  | [] => Some ([], [])
  end.

Definition digits_value (ds : list N) : N :=
  foldl (fun acc d => acc * 10 + d)%N 0%N ds.

Definition parse_sign (s : str) : bool * str :=
  match s with
  | 43%N :: r => (false, r)
  | 45%N :: r => (true, r)
  | _ => (false, s)
  end.

Definition parse_exponent (s : str) : option Z :=
  match s with
  | [] => Some 0
  | c :: r =>
      if char_eqb (lower_char c) 101%N then
        let '(neg, r1) := parse_sign r in
        match opt_digitpart r1 with
        | Some ((_ :: _) as ds, []) =>
            let e := Z.of_N (digits_value ds) in
            Some (if neg then - e else e)
        | _ => None
        end
      else None
  end.

Definition parse_number (neg : bool) (s : str) : option float :=
  match opt_digitpart s with
  | None => None
  | Some (ip, r1) =>
      let frac :=
        match r1 with
        | 46%N :: r2 =>
            match opt_digitpart r2 with
            | Some (fp, r3) => Some (fp, r3)
            | None => None
            end
        | _ => Some ([], r1)
        end in
      match frac with
      | None => None
      | Some (fp, r3) =>
          match ip ++ fp with
          | [] => None
          | ds =>
              match parse_exponent r3 with
              | Some e =>
                  Some (of_decimal neg (digits_value ds)
                          (e - Z.of_nat (length fp)))
              | None => None
              end
          end
      end
  end.

Definition float_of_str (text : str) : option float :=
  let '(neg, body) := parse_sign (strip text) in
  let low := lower body in
  if str_eqb low (py "inf") || str_eqb low (py "infinity")
  then Some (S754_infinity neg)
  else if str_eqb low (py "nan") then Some S754_nan
  else parse_number neg body.

(** *** [repr] of a float: the shortest decimal text that [float] reads
    back as the same double, the closest to it among the shortest. *)

Definition decimal_exponent (num den : Z) : Z :=
  if den <=? num
  then Z.of_nat (length (N_chars (Z.to_N (num / den))))
  else 1 - Z.of_nat (length (N_chars (Z.to_N (den / num)))).

Definition same_double (a b : float) : bool :=
  match a, b with
  | S754_finite s1 m1 e1, S754_finite s2 m2 e2 =>
      Bool.eqb s1 s2 && Pos.eqb m1 m2 && Z.eqb e1 e2
  | _, _ => false
  end.

(** The [n]-digit decimal [c * 10^(k - n)] next to [num / den] that reads
    back as [x], if there is one. *)
Definition repr_candidate (x : float) (num den k : Z) (n : Z) : option N :=
  let sh := n - k in
  let a := if 0 <=? sh then num * 10 ^ sh else num in
  let b := if 0 <=? sh then den else den * 10 ^ (- sh) in
  let lo := Z.to_N (a / b) in
  let r := a mod b in
  let hi := (lo + 1)%N in
  let ok c := same_double (of_decimal false c (k - n)) x in
  if r =? 0 then (if ok lo then Some lo else None)
  else
    match ok lo, ok hi with
    | true, true =>
        match Z.compare (2 * r) b with
        | Lt => Some lo
        | Gt => Some hi
        | Eq => Some (if N.even lo then lo else hi)
        end
    | true, false => Some lo
    | false, true => Some hi
    | false, false => None
    end.

Fixpoint shortest_digits (fuel : nat) (x : float) (num den k n : Z)
  : option (N * Z) :=
  match fuel with
  | O => None
  | S fuel' =>
      match repr_candidate x num den k n with
      | Some c => Some (c, n)
      | None => shortest_digits fuel' x num den k (n + 1)
      end
  end.

Fixpoint strip_zeros_rev (ds : str) : str :=
  match ds with
  | 48%N :: r => strip_zeros_rev r
  | _ => ds
  end.

Definition zeros (n : Z) : str := replicate (Z.to_nat n) 48%N.

(** Layout of the digits [ds] with the decimal point after [decpt] of
    them, as [repr] prints it. *)
Definition repr_layout (ds : str) (decpt : Z) : str :=
  let len := Z.of_nat (length ds) in
  if (decpt <=? -4) || (16 <? decpt) then
    let e := decpt - 1 in
    let ed := N_chars (Z.to_N (Z.abs e)) in
    take 1 ds ++ (if 1 <? len then py "." ++ drop 1 ds else [])
      ++ py "e" ++ (if e <? 0 then py "-" else py "+")
      ++ (if Z.abs e <? 10 then py "0" else []) ++ ed
  else if decpt <=? 0 then py "0." ++ zeros (- decpt) ++ ds
  else if len <=? decpt then ds ++ zeros (decpt - len) ++ py ".0"
  else take (Z.to_nat decpt) ds ++ py "." ++ drop (Z.to_nat decpt) ds.

(** [repr(x)], which is also [str(x)]. *)
Definition float_repr (x : float) : str :=
  match x with
  | S754_nan => py "nan"
  | S754_infinity s => sign_text s ++ py "inf"
  | S754_zero s => sign_text s ++ py "0.0"
  | S754_finite s m e =>
      let num := if 0 <=? e then Zpos m * 2 ^ e else Zpos m in
      let den := if 0 <=? e then 1 else 2 ^ (- e) in
      let k := decimal_exponent num den in
      match shortest_digits 17 (S754_finite false m e) num den k 1 with
      | Some (c, n) =>
          let all := N_chars c in
          let ds := reverse (strip_zeros_rev (reverse all)) in
          sign_text s ++ repr_layout ds (k + (Z.of_nat (length all) - n))
      | None => []
      end
  end.

End PyFloat.

(** ** Python values, exceptions *)

Module Py.
Import PyStr PyFloat.

Inductive exn := ValueError | OverflowError | IndexError | TypeError.

(** The outcome of evaluating an expression: a value, or a raised exception. *)
Inductive result (A : Type) :=
| Ok (a : A)
| Raise (e : exn).
Arguments Ok {A} a.
Arguments Raise {A} e.

Definition bind {A B} (r : result A) (k : A -> result B) : result B :=
  match r with
  | Ok a => k a
  | Raise e => Raise e
  end.

#[global] Instance result_ret : MRet result := fun A a => Ok a.
#[global] Instance result_bind : MBind result := fun A B k r => bind r k.

Definition exn_eqb (a b : exn) : bool :=
  match a, b with
  | ValueError, ValueError | OverflowError, OverflowError
  | IndexError, IndexError | TypeError, TypeError => true
  | _, _ => false
  end.

(** [try: body  except e: handler] *)
Definition try_except {A} (body : result A) (e : exn) (handler : result A)
  : result A :=
  match body with
  | Raise e' => if exn_eqb e' e then handler else body
  | Ok _ => body
  end.

Fixpoint mapM {A B} (f : A -> result B) (l : list A) : result (list B) :=
  match l with
  | [] => Ok []
  | a :: l' => b ← f a; bs ← mapM f l'; Ok (b :: bs)
  end.

(** The values that occur in a service row. *)
Inductive pyval :=
| VNone
| VBool (b : bool)
| VInt (z : Z)
| VFloat (f : float)
| VStr (s : str).

Definition Z_chars (z : Z) : str :=
  match z with
  | Zneg p => py "-" ++ N_chars (Npos p)
  | _ => N_chars (Z.to_N z)
  end.

(** [str(value)] *)
Definition py_str (v : pyval) : str :=
  match v with
  | VNone => py "None"
  | VBool true => py "True"
  | VBool false => py "False"
  | VInt z => Z_chars z
  | VFloat f => float_repr f
  | VStr s => s
  end.

(** [float(n)] for an [int]: [OverflowError] beyond the finite doubles. *)
Definition float_of_int (z : Z) : result float :=
  let f := of_Z z in
  if is_finite f then Ok f else Raise OverflowError.

(** [float(s)] for a [str]. *)
Definition float_of_text (s : str) : result float :=
  match float_of_str s with
  | Some f => Ok f
  | None => Raise ValueError
  end.

(** A row of the services table: a [dict] with [str] keys. *)
Abbreviation row := (gmap str pyval).

(** [d.get(key, default)] *)
Definition get (d : row) (key : string) (default : pyval) : pyval :=
  match d !! py key with
  | Some v => v
  | None => default
  end.

End Py.

(** ** Amounts (app.py, lines 165-169, 224-225, 379-394) *)

Module Money.
Import PyStr PyFloat Py.

Definition zero : float := S754_zero false.

(** [str(value).replace("$", "").replace(",", "").strip()] *)
Definition cleaned_amount (value : pyval) : str :=
  strip (replace 44%N [] (replace 36%N [] (py_str value))).

Definition safe_money (value : pyval) : result float :=
  try_except
    (match cleaned_amount value with
     | [] => float_of_int 0
     | cleaned => float_of_text cleaned
     end)
    ValueError (Ok zero).

Definition fmt_money (amount : float) : str :=
  py "$" ++ format_comma_2f amount.

Definition normalize_fee_value (value : pyval) : result float :=
  match value with
  | VNone => Ok zero
  | VBool b => float_of_int (if b then 1 else 0)
  | VInt z => float_of_int z
  | VFloat f => Ok f
  | VStr _ =>
      let cleaned := cleaned_amount value in
      match cleaned with
      | [] => Ok zero
      | _ => try_except (float_of_text cleaned) ValueError (Ok zero)
      end
  end.

(** The amount a text stands for: what [float] reads in the cleaned text,
    and zero when [float] rejects it. *)
Definition parsed_or_zero (text : str) : float :=
  match float_of_str (cleaned_amount (VStr text)) with
  | Some v => v
  | None => zero
  end.

Definition format_fee_display (value : pyval) : result str :=
  f ← normalize_fee_value value; Ok (py "$" ++ format_comma_2f f).

End Money.

(** ** Dates (app.py, lines 180-194) *)

Module Dates.
Import PyStr PyFloat Py.

Record date := mkdate { year : Z; month : Z; day : Z }.

Definition is_leap (y : Z) : bool :=
  (y mod 4 =? 0) && (negb (y mod 100 =? 0) || (y mod 400 =? 0)).

Definition days_in_month (y m : Z) : Z :=
  if m =? 2 then (if is_leap y then 29 else 28)
  else if (m =? 4) || (m =? 6) || (m =? 9) || (m =? 11) then 30 else 31.

(** [date(y, m, d)]: [ValueError] outside the calendar. *)
Definition make_date (y m d : Z) : result date :=
  if (1 <=? y) && (y <=? 9999) && (1 <=? m) && (m <=? 12)
     && (1 <=? d) && (d <=? days_in_month y m)
  then Ok (mkdate y m d) else Raise ValueError.

(** The directives of the three accepted formats. *)
Inductive directive := DY | Dm | Dd | Lit (c : char).

Definition fmt_ymd_dash : list directive := [DY; Lit 45%N; Dm; Lit 45%N; Dd].
Definition fmt_mdy_slash : list directive := [Dm; Lit 47%N; Dd; Lit 47%N; DY].
Definition fmt_ymd_slash : list directive := [DY; Lit 47%N; Dm; Lit 47%N; Dd].

Record fields := mkfields { fY : Z; fm : Z; fd : Z }.

Definition in_range (lo hi : N) (c : char) : bool := ((lo <=? c) && (c <=? hi))%N.
Definition dv (c : char) : Z := Z.of_N (digit_val c).

(** The ways a directive can consume a prefix of the text, in the order
    in which the pattern [datetime.strptime] compiles tries them:
    [%Y] is four digits; [%m] is [1[0-2]|0[1-9]|[1-9]];
    [%d] is [3[01]|[12]\d|0[1-9]|[1-9]| [1-9]]. *)
Definition alternatives (d : directive) (f : fields) (s : str)
  : list (fields * str) :=
  match d with
  | Lit c =>
      match s with
      | x :: r => if char_eqb (lower_char x) (lower_char c) then [(f, r)] else []
      | [] => []
      end
  | DY =>
      match s with
      | a :: b :: c :: d :: r =>
          if is_digit a && is_digit b && is_digit c && is_digit d
          then [(mkfields (dv a * 1000 + dv b * 100 + dv c * 10 + dv d) (fm f) (fd f), r)]
          else []
      | _ => []
      end
  | Dm =>
      let two :=
        match s with
        | a :: b :: r =>
            if (char_eqb a 49%N && in_range 48%N 50%N b) || (char_eqb a 48%N && in_range 49%N 57%N b)
            then [(mkfields (fY f) (dv a * 10 + dv b) (fd f), r)] else []
        | _ => []
        end in
      let one :=
        match s with
        | a :: r => if in_range 49%N 57%N a then [(mkfields (fY f) (dv a) (fd f), r)] else []
        | [] => []
        end in
      two ++ one
  | Dd =>
      let two :=
        match s with
        | a :: b :: r =>
            if (char_eqb a 51%N && in_range 48%N 49%N b)
               || (in_range 49%N 50%N a && is_digit b)
               || (char_eqb a 48%N && in_range 49%N 57%N b)
            then [(mkfields (fY f) (fm f) (dv a * 10 + dv b), r)] else []
        | _ => []
        end in
      let one :=
        match s with
        | a :: r => if in_range 49%N 57%N a then [(mkfields (fY f) (fm f) (dv a), r)] else []
        | [] => []
        end in
      let padded :=
        match s with
        | a :: b :: r =>
            if char_eqb a 32%N && in_range 49%N 57%N b
            then [(mkfields (fY f) (fm f) (dv b), r)] else []
        | _ => []
        end in
      two ++ one ++ padded
  end.

Definition first_some {A B} (f : A -> option B) : list A -> option B :=
  fix go (l : list A) : option B :=
    match l with
    | [] => None
    | a :: l' => match f a with Some b => Some b | None => go l' end
    end.

(** First match of the pattern at the start of the text, with backtracking. *)
Fixpoint match_format (fmt : list directive) (f : fields) (s : str)
  : option (fields * str) :=
  match fmt with
  | [] => Some (f, s)
  | d :: fmt' =>
      first_some (fun fr => match_format fmt' (fst fr) (snd fr))
        (alternatives d f s)
  end.

(** [datetime.strptime(value, fmt).date()]: the text must match the pattern
    and be consumed whole, and the fields must name a calendar day. *)
Definition strptime (value : str) (fmt : list directive) : result date :=
  match match_format fmt (mkfields 1900 1 1) value with
  | Some (f, []) => make_date (fY f) (fm f) (fd f)
  | _ => Raise ValueError
  end.

(** The loop over the accepted formats: the first one that parses wins. *)
Fixpoint try_formats (value : str) (fmts : list (list directive))
  (fallback : result date) : result date :=
  match fmts with
  | [] => fallback
  | fmt :: rest =>
      try_except (strptime value fmt) ValueError
        (try_formats value rest fallback)
  end.

Definition accepted_formats : list (list directive) :=
  [fmt_ymd_dash; fmt_mdy_slash; fmt_ymd_slash].

(** [today] is the value of [date.today()]. *)
Definition parse_date (today : date) (value : str) : result date :=
  match value with
  | [] => make_date (year today) (month today) 1
  | _ =>
      try_formats value accepted_formats
        (make_date (year today) (month today) 1)
  end.

Definition first_of_month (d : date) : result date :=
  make_date (year d) (month d) 1.

(** A day of the calendar, as [date.today()] returns. *)
Definition is_date (d : date) : Prop :=
  make_date (year d) (month d) (day d) = Ok d.

(** The value matches none of the accepted formats. *)
Definition matches_no_format (value : str) : Prop :=
  Forall (fun fmt => strptime value fmt = Raise ValueError) accepted_formats.

End Dates.

(** ** Service rows (app.py, lines 277-284, 315-360, 427-431, 1344-1358) *)

Module Rows.
Import PyStr PyFloat Py Money.

Definition upper_char (c : char) : char :=
  if ((97 <=? c) && (c <=? 122))%N then (c - 32)%N else c.

(** [s.upper()], on the ASCII letters; the source only compares the result
    with ["N/A"]. *)
Definition upper (s : str) : str := upper_char <$> s.

(** [re.fullmatch(r"\d+", s)] *)
Definition all_digits (s : str) : bool :=
  match s with
  | [] => false
  | _ => forallb is_digit s
  end.

Definition parse_whole_number (value : pyval) : N :=
  let cleaned := strip (replace 44%N [] (py_str value)) in
  if all_digits cleaned then digits_value (digit_val <$> cleaned) else 0%N.

Definition format_usage_commitment_value (value : pyval) : str :=
  let raw := strip (py_str value) in
  if str_eqb raw [] || str_eqb (upper raw) (py "N/A") then
    (if str_eqb (upper raw) (py "N/A") then py "N/A" else [])
  else
    let parsed := parse_whole_number (VStr raw) in
    if (parsed <=? 0)%N
       && negb (str_eqb raw (py "0") || str_eqb raw (py "0.0")
                || str_eqb raw (py "0.00"))
    then raw
    else group3 (N_chars parsed).

(** The body of the loop of [normalize_service_rows]: one normalized row. *)
Definition normalize_row (r : row) : result row :=
  let subscription_period :=
    py_str (get r "subscription_period" (get r "Subscription Period" (VStr []))) in
  let service := py_str (get r "service" (get r "Service" (VStr []))) in
  let usage :=
    format_usage_commitment_value
      (get r "annual_usage_commitment" (get r "Annual Usage Commitment" (VStr []))) in
  let unit := py_str (get r "unit" (get r "Unit" (VStr []))) in
  fee ← normalize_fee_value
          (get r "annual_service_fee" (get r "Annual Service Fee" (VStr [])));
  Ok (<[py "subscription_period" := VStr subscription_period]>
      (<[py "service" := VStr service]>
       (<[py "annual_usage_commitment" := VStr usage]>
        (<[py "unit" := VStr unit]>
         (<[py "annual_service_fee" := VFloat fee]> ∅))))).

Definition normalize_service_rows (rows : list row) : result (list row) :=
  mapM normalize_row rows.

(** The sort key of [sort_rows_by_fee_desc]:
    [(label.strip().endswith("Support"), -fee)]. *)
Definition sort_key (r : row) : result (bool * float) :=
  fee ← normalize_fee_value (get r "annual_service_fee" (VFloat zero));
  Ok (endswith (strip (py_str (get r "service" (VStr [])))) (py "Support"),
      fneg fee).

(** [a < b] on the key tuples: the first components decide unless they are
    equal ([False < True]); then the second ones are compared. *)
Definition key_lt (a b : bool * float) : bool :=
  if Bool.eqb (fst a) (fst b) then flt (snd a) (snd b)
  else negb (fst a) && fst b.

(** [sorted(items, key=...)]: the sort is stable and compares keys with [<]
    only.  For keys on which [<] is a strict weak order every stable sort
    returns the same list; insertion from the right is the one written here. *)
Fixpoint insert_sorted {K A} (lt : K -> K -> bool) (x : K * A)
  (l : list (K * A)) : list (K * A) :=
  match l with
  | [] => [x]
  | y :: l' =>
      if lt (fst y) (fst x) then y :: insert_sorted lt x l' else x :: l
  end.

Definition sort_decorated {K A} (lt : K -> K -> bool) (l : list (K * A))
  : list (K * A) :=
  foldr (insert_sorted lt) [] l.

Definition sorted {K A} (lt : K -> K -> bool) (key : A -> result K)
  (items : list A) : result (list A) :=
  decorated ← mapM (fun a => k ← key a; Ok (k, a)) items;
  Ok (snd <$> sort_decorated lt decorated).

Definition sort_rows_by_fee_desc (rows : list row) : result (list row) :=
  normalized ← normalize_service_rows rows;
  sorted key_lt sort_key normalized.

Definition is_credit_mode (warehouse_type : str) : bool :=
  str_eqb warehouse_type (py "Credit")
  || str_eqb warehouse_type (py "Credit/Usage Based")
  || str_eqb warehouse_type (py "Usage Based Pricing").

Definition table_columns_for_warehouse (warehouse_type : str)
  : list (string * str) :=
  if is_credit_mode warehouse_type then
    [("subscription_period", py "Subscription Term");
     ("service", py "Services");
     ("annual_usage_commitment", py "Credits");
     ("annual_service_fee", py "Annual Fee")]%string
  else
    [("subscription_period", py "Subscription Period");
     ("service", py "Service");
     ("annual_usage_commitment", py "Annual Usage Commitment");
     ("unit", py "Unit");
     ("annual_service_fee", py "Annual Service Fee")]%string.

(** Accessors used by the statements below. *)
Definition label_of (r : row) : str := py_str (get r "service" (VStr [])).

Definition fee_of (r : row) : float :=
  match get r "annual_service_fee" (VFloat zero) with
  | VFloat f => f
  | _ => zero
  end.

Definition is_support (r : row) : bool :=
  endswith (strip (label_of r)) (py "Support").

(** A row as [normalize_service_rows] leaves it, from its five fields. *)
Definition mkrow (period service usage unit : str) (fee : float) : row :=
  <[py "subscription_period" := VStr period]>
  (<[py "service" := VStr service]>
   (<[py "annual_usage_commitment" := VStr usage]>
    (<[py "unit" := VStr unit]>
     (<[py "annual_service_fee" := VFloat fee]> ∅)))).

End Rows.

(** ** Text wrapping (app.py, lines 905-926) *)

Module Wrap.
Import PyStr PyFloat.

Section WithMetrics.
(** [c.stringWidth(text, font_name, font_size)] of the canvas in use. *)
Variable stringWidth : str -> str -> Z -> float.
Variable max_width : float.
Variable font_name : str.
Variable font_size : Z.

Definition fits (candidate : str) : bool :=
  fle (stringWidth candidate font_name font_size) max_width.

(** The [for word in words[1:]] loop, with its two variables. *)
Fixpoint wrap_loop (words : list str) (current : str) (lines : list str)
  : list str :=
  match words with
  | [] => lines ++ [current]
  | word :: rest =>
      let candidate := current ++ [space] ++ word in
      if fits candidate then wrap_loop rest candidate lines
      else wrap_loop rest word (lines ++ [current])
  end.

(** [words[0]] cannot fail: the stripped text is not empty at that point,
    so it has a word (lemma [split_strip_nil] below); the empty case of the
    [match] is never taken. *)
Definition wrap_text_to_width (text : str) : list str :=
  let content := strip text in
  match content with
  | [] => [[]]
  | _ =>
      match split content with
      | [] => []
      | first :: rest => wrap_loop rest first []
      end
  end.

(** The loop run on the words of one line. *)
Definition greedy (ws : list str) : list str :=
  match ws with
  | [] => []
  | first :: rest => wrap_loop rest first []
  end.

(** A line fits, or it is one word of [words] that does not. *)
Definition line_ok (words : list str) (line : str) : Prop :=
  fits line = true \/ (line ∈ words /\ fits line = false).

(** A line made of words that the loop accepted one after the other. *)
Definition stable_line (line : str) : Prop :=
  exists lws, lws <> [] /\ Forall is_word lws
              /\ line = join [space] lws /\ greedy lws = [line].
End WithMetrics.

(** A metric for examples: every character is [w] points wide. *)
Definition fixed_pitch (w : Z) (s : str) (font : str) (size : Z) : float :=
  of_Z (Z.of_nat (length s) * w).

End Wrap.

(** ** The canvas (reportlab [canvas.Canvas]) *)

Module Canvas.
Import PyStr PyFloat.

Inductive color := Black | White | HexColor (code : string).

(** The canvas calls the layout code makes; a rendering is the sequence of
    calls, in program order.  Coordinates are floats ([int] arguments are
    given by their value). *)
Inductive op :=
| ShowPage
| SetFillColor (c : color)
| SetStrokeColor (c : color)
| SetFont (name : str) (size : Z)
| DrawString (x y : float) (text : str)
| DrawCentredString (x y : float) (text : str)
| DrawRightString (x y : float) (text : str)
| Line (x1 y1 x2 y2 : float)
| Rect (x y w h : float) (stroke fill : bool)
| LinkURL (url : str) (x1 y1 x2 y2 : float).

Definition is_show_page (o : op) : bool :=
  match o with ShowPage => true | _ => false end.

Definition is_text (o : op) : bool :=
  match o with
  | DrawString _ _ _ | DrawCentredString _ _ _ | DrawRightString _ _ _ => true
  | _ => false
  end.

(** No call of the rendering starts a new page. *)
Definition no_break (ops : list op) : Prop :=
  Forall (fun o => is_show_page o = false) ops.

(** Number of page transitions in a rendering. *)
Definition page_breaks (ops : list op) : nat :=
  length (List.filter is_show_page ops).

(** Every page break is followed by a [setFont] and a [setFillColor] before
    the next text is drawn.  [font] and [fill] tell whether the font and the
    fill colour are still to be set on the current page. *)
Fixpoint breaks_reset_state (font fill : bool) (ops : list op) : bool :=
  match ops with
  | [] => true
  | o :: rest =>
      match o with
      | ShowPage => breaks_reset_state true true rest
      | SetFont _ _ => breaks_reset_state false fill rest
      | SetFillColor _ => breaks_reset_state font false rest
      | DrawString _ _ _ | DrawCentredString _ _ _ | DrawRightString _ _ _ =>
          negb font && negb fill && breaks_reset_state font fill rest
      | _ => breaks_reset_state font fill rest
      end
  end.

(** How a text is placed at its [x]: [drawString] starts there,
    [drawCentredString] is centred on it, [drawRightString] ends there. *)
Inductive align := AlignLeft | AlignCentre | AlignRight.

Definition align_eqb (a b : align) : bool :=
  match a, b with
  | AlignLeft, AlignLeft | AlignCentre, AlignCentre
  | AlignRight, AlignRight => true
  | _, _ => false
  end.

Definition text_op (o : op) : option (align * str) :=
  match o with
  | DrawString _ _ t => Some (AlignLeft, t)
  | DrawCentredString _ _ t => Some (AlignCentre, t)
  | DrawRightString _ _ t => Some (AlignRight, t)
  | _ => None
  end.

(** Some call draws [text] with alignment [a]. *)
Definition draws (a : align) (text : str) (ops : list op) : bool :=
  existsb (fun o =>
             match text_op o with
             | Some (a', t) => align_eqb a a' && str_eqb t text
             | None => false
             end) ops.

(** The texts drawn right-aligned, in order. *)
Definition right_texts (ops : list op) : list str :=
  omap (fun o => match o with DrawRightString _ _ t => Some t | _ => None end)
    ops.

Module Notations.
Declare Scope pyfloat_scope.
Delimit Scope pyfloat_scope with F.
Infix "+" := fadd : pyfloat_scope.
Infix "-" := fsub : pyfloat_scope.
Infix "*" := fmul : pyfloat_scope.
Infix "/" := fdiv : pyfloat_scope.
Notation "# z" := (of_Z z) (at level 5, format "# z") : pyfloat_scope.
End Notations.

End Canvas.

(** ** The services table (app.py, lines 1103-1214) *)

Module Table.
Import PyStr PyFloat Py Money Rows Wrap Canvas Canvas.Notations.

Definition blue : color := HexColor "#1f4675".

(** [list[i]] for an index in range, which every use below is: a list is
    indexed by the positions of a list of the same length. *)
Definition at_index {A} (default : A) (l : list A) (i : nat) : A :=
  match l !! i with
  | Some a => a
  | None => default
  end.

(** [lst[-1]] and [lst[-2]]: [IndexError] on a list that is too short. *)
Definition from_end (l : list float) (k : nat) : result float :=
  match reverse l !! k with
  | Some a => Ok a
  | None => Raise IndexError
  end.

(** [lst[:-k]] *)
Definition but_last {A} (k : nat) (l : list A) : list A :=
  take (length l - k) l.

Definition max_len (ls : list (list str)) (start : Z) : Z :=
  foldl (fun m lines => Z.max m (Z.of_nat (length lines))) start ls.

Definition sum_heights (hs : list Z) : Z := foldl Z.add 0 hs.

(** [a / b] on two small [int]s, a float. *)
Definition int_truediv (a b : Z) : float := fdiv (of_Z a) (of_Z b).

Definition fee_key : string := "annual_service_fee".

Section WithCanvas.
Variable stringWidth : str -> str -> Z -> float.
Variables font_regular font_bold : str.
(** The summation of the Python version in use. *)
Variable alg : summation.

Definition column_weights (columns : nat) : list float :=
  if Nat.eqb columns 5
  then [of_decimal false 25 (-2); of_decimal false 23 (-2);
        of_decimal false 21 (-2); of_decimal false 12 (-2);
        of_decimal false 19 (-2)]
  else [of_decimal false 27 (-2); of_decimal false 33 (-2);
        of_decimal false 20 (-2); of_decimal false 20 (-2)].

Definition wrap_cell (col_w : list float) (i : nat) (font : str) (text : str)
  : list str :=
  wrap_text_to_width stringWidth
    (at_index S754_nan col_w i - #8)%F font 10 text.

(** The text of a body cell: [row.get(key, "")], with the fee formatted
    as money. *)
Definition cell_value (r : row) (key : string) : result str :=
  let value := get r key (VStr []) in
  if String.eqb key fee_key
     && negb (match value with VStr [] => true | _ => false end)
  then f ← safe_money (VStr (py_str value)); Ok (fmt_money f)
  else Ok (py_str value).

Definition wrap_row (col_w : list float) (columns : list (string * str))
  (r : row) : result (list (list str)) :=
  mapM (fun '(i, (key, _)) =>
          value ← cell_value r key;
          Ok (wrap_cell col_w i font_regular value))
       (imap (fun i c => (S i, c)) (drop 1 columns)).

Definition row_height (cells : list (list str)) : Z :=
  Z.max 22 (max_len cells 1 * 10 + 8).

(** Header texts, centred line by line in each column. *)
Definition draw_header_cells (left top : float) (head_h : Z)
  (col_w : list float) (header_wrapped : list (list str)) : list op :=
  snd (foldl
    (fun '(x, ops) '(i, lines) =>
       let block_h := Z.of_nat (length lines) * 10 in
       let y0 := (top - int_truediv (head_h - block_h) 2 - #8)%F in
       let w := at_index S754_nan col_w i in
       (x + w,
        ops ++ imap (fun j line =>
                       DrawCentredString (x + w / #2) (y0 - #(Z.of_nat j * 10)) line)
                    lines)%F)
    (left, []) (imap (fun i lines => (i, lines)) header_wrapped)).

Definition draw_header_lines (left top : float) (head_h : Z)
  (col_w : list float) : list op :=
  snd (foldl
    (fun '(x, ops) w =>
       let x' := (x + w)%F in
       (x', ops ++ [SetStrokeColor Black; Line x' top x' (top - #head_h)%F]))
    (left, []) (but_last 1 col_w)).

(** The period column: one merged cell over all body rows. *)
Definition draw_merged_period (left : float) (col_w : list float)
  (merged_top merged_bottom : float) (period_text : str) : list op :=
  let merged_mid_y := ((merged_top + merged_bottom) / #2 - #4)%F in
  DrawCentredString (left + at_index S754_nan col_w 0 / #2)%F merged_mid_y
    period_text
  :: match strip period_text with
     | [] => []
     | _ => [Rect left merged_bottom (at_index S754_nan col_w 0)
               (merged_top - merged_bottom)%F true false]
     end.

(** The cells of one body row. *)
Definition draw_row_cells (left : float) (col_w : list float)
  (columns : list (string * str)) (r : row) (row_top : float) (row_h : Z)
  (cell_lines : list (list str)) : result (list op) :=
  res ← foldl
    (fun acc '(i, lines) =>
       '(x, ops) ← acc;
       let key := fst (at_index (""%string, []) columns (S i)) in
       raw_value ← cell_value r key;
       let block_h := Z.of_nat (length lines) * 10 in
       let line_y := (row_top - int_truediv (row_h - block_h) 2 - #8)%F in
       let w := at_index S754_nan col_w (S i) in
       let texts :=
         snd (foldl
           (fun '(ly, drawn) line =>
              ((ly - #10)%F,
               drawn ++ [if String.eqb key fee_key
                         then DrawRightString (x + w - #4)%F ly line
                         else DrawCentredString (x + w / #2)%F ly line]))
           (line_y, []) lines) in
       let border :=
         match strip raw_value with
         | [] => []
         | _ => [Rect x (row_top - #row_h)%F w (of_Z row_h) true false]
         end in
       Ok ((x + w)%F, ops ++ texts ++ border))
    (Ok ((left + at_index S754_nan col_w 0)%F, []))
    (imap (fun i lines => (i, lines)) cell_lines);
  Ok (snd res).

(** The loop over the body rows, with its cursor [y_cursor]. *)
Fixpoint draw_body (left : float) (col_w : list float)
  (columns : list (string * str)) (y_cursor : float)
  (rows : list (row * (Z * list (list str)))) : result (list op) :=
  match rows with
  | [] => Ok []
  | (r, (row_h, cell_lines)) :: rest =>
      ops ← draw_row_cells left col_w columns r y_cursor row_h cell_lines;
      more ← draw_body left col_w columns (y_cursor - #row_h)%F rest;
      Ok (ops ++ more)
  end.

(** [sum(safe_money(str(row.get("annual_service_fee", ""))) for row in services)] *)
Definition table_total (services : list row) : result float :=
  fees ← mapM (fun r => safe_money (VStr (py_str (get r fee_key (VStr [])))))
             services;
  Ok (py_sum alg fees).

(** The "Total row" block. *)
Definition draw_total_row (left : float) (col_w : list float)
  (services : list row) (y_total_divider : float) (total_row_h : Z)
  : result (list op) :=
  total ← table_total services;
  let total_y := (y_total_divider - #15)%F in
  let last_col_left := (left + py_sum alg (but_last 1 col_w))%F in
  last ← from_end col_w 0;
  let last_col_center := (last_col_left + last / #2)%F in
  prev_col_center ←
    (if (1 <? length col_w)%nat
     then prev ← from_end col_w 1;
          Ok (left + py_sum alg (but_last 2 col_w) + prev / #2)%F
     else Ok last_col_center);
  label ←
    (if (1 <? length col_w)%nat
     then prev ← from_end col_w 1;
          Ok [SetFillColor Black;
              DrawCentredString prev_col_center total_y (py "Total:");
              Rect (last_col_left - prev)%F (y_total_divider - #total_row_h)%F
                prev (of_Z total_row_h) true false]
     else Ok []);
  last' ← from_end col_w 0;
  Ok ([SetFont font_regular 10] ++ label
      ++ [SetFillColor Black;
          DrawRightString (last_col_left + last' - #4)%F total_y
            (fmt_money total);
          Rect last_col_left (y_total_divider - #total_row_h)%F last'
            (of_Z total_row_h) true false]).

(** The table, from "Dynamic table area" to the end of "Total row":
    [y] is the baseline of the "Services" heading, [width] the page width. *)
Definition draw_services_table (width y : float) (services : list row)
  (warehouse_type : str) (start_str end_str : str) : result (list op) :=
  let top := (y - #16)%F in
  let left := (of_Z 36) in
  let right := (width - #36)%F in
  let table_w := (right - left)%F in
  services ← normalize_service_rows services;
  let column_spec := table_columns_for_warehouse warehouse_type in
  let headers := snd <$> column_spec in
  let widths := column_weights (length column_spec) in
  let col_w := (fun w => table_w * w)%F <$> widths in
  let header_wrapped :=
    imap (fun i h => wrap_cell col_w i font_bold h) headers in
  let head_h := Z.max 24 (max_len header_wrapped 0 * 10 + 8) in
  row_wrapped ← mapM (wrap_row col_w column_spec) services;
  let row_heights := row_height <$> row_wrapped in
  let total_row_h := 22 in
  let y_total_divider := (top - #head_h - #(sum_heights row_heights))%F in
  let period_text := start_str ++ py " - " ++ end_str in
  let merged_top := (top - #head_h)%F in
  body ← draw_body left col_w column_spec (top - #head_h)%F
           (zip services (zip row_heights row_wrapped));
  total ← draw_total_row left col_w services y_total_divider total_row_h;
  Ok ([SetStrokeColor Black; SetFillColor blue;
       Rect left (top - #head_h)%F table_w (of_Z head_h) true true;
       SetFillColor White; SetFont font_bold 10]
      ++ draw_header_cells left top head_h col_w header_wrapped
      ++ draw_header_lines left top head_h col_w
      ++ [Line left y_total_divider right y_total_divider;
          SetFillColor Black; SetFont font_regular 10]
      ++ draw_merged_period left col_w merged_top y_total_divider period_text
      ++ body ++ total).

(** The table height the footer is placed with. *)
Definition table_height (head_h : Z) (row_heights : list Z) : Z :=
  head_h + sum_heights row_heights + 22.

End WithCanvas.

End Table.

(** ** Flowing text and page breaks (app.py, lines 735-882, 1245-1259) *)

Module Flow.
Import PyStr PyFloat Py Wrap Canvas Canvas.Notations.

(** The cursor [y] of a drawing routine and the canvas calls made so far. *)
Record state := mkstate { y : float; out : list op }.

Definition emit (ops : list op) (s : state) : state :=
  mkstate (y s) (out s ++ ops).

(** [y -= d] *)
Definition move_down (d : Z) (s : state) : state :=
  mkstate (y s - #d)%F (out s).

Definition min_bottom_margin : Z := 40.

(** [s'] is [s] after more canvas calls. *)
Definition extends (s s' : state) : Prop :=
  exists more, out s' = out s ++ more.

(** [re.findall(r"\S+\s*", text)]: the runs of non-whitespace, each with the
    whitespace after it.  [cur] is the token being read, [in_ws] tells
    whether its trailing whitespace has begun. *)
Fixpoint findall_tokens (cur : str) (in_ws : bool) (s : str) : list str :=
  match s with
  | [] => match cur with [] => [] | _ => [cur] end
  | c :: s' =>
      if isspace c then
        match cur with
        | [] => findall_tokens [] false s'
        | _ => findall_tokens (cur ++ [c]) true s'
        end
      else if in_ws then cur :: findall_tokens [c] false s'
      else findall_tokens (cur ++ [c]) false s'
  end.

Definition link_blue : color := HexColor "#194b7d".
Definition rule_grey : color := HexColor "#aaaaaa".

Definition esa_url : str := py "https://www.statsig.com/enterprise-terms".
Definition dpa_url : str := py "https://statsig.com/legal/online-dpa".

(** The segments of the paragraph with the two links; 8220, 8221 and 8217
    are the curly quotation marks of the source text. *)
Definition segments : list (str * option str) :=
  [(py "This Order Form is subject to the ", None);
   (py "Enterprise Subscription Agreement", Some esa_url);
   (py " and ", None);
   (py "Data Processing Addendum", Some dpa_url);
   (py " (together, the" ++ [8220%N] ++ py "MSA" ++ [8221%N]
      ++ py ") governing Customer" ++ [8217%N]
      ++ py "s use of the Services described herein.", None)].

Definition paragraph_lines : list str :=
  [py "The pricing and terms in this Order Form are Statsig, LLC's Proprietary Information. All fees are in U.S. dollars and";
   py "exclude all taxes. Customer is responsible for all applicable taxes, including, but not limited to, U.S. sales,";
   py "withholding tax, GST, and VAT. Capitalized terms not defined in this Order Form have the meanings assigned in the MSA.";
   py "If a direct conflict exists between this Order Form and the MSA, the terms of this Order Form will control.";
   [];
   py "The parties through their duly authorized representative agree to the terms of this Order Form, effective as of";
   py "last signature date."].

Section WithCanvas.
Variable stringWidth : str -> str -> Z -> float.
Variables width height : float.
Variables font_regular font_bold : str.

(** The local function [ensure_space] of [draw_agreement_section]; the
    variable [y] it assigns is the cursor of the state. *)
Definition ensure_space (required_height : float) (s : state) : state :=
  if flt (y s - required_height)%F (of_Z min_bottom_margin)
  then mkstate (height - #56)%F (out s ++ [ShowPage; SetFillColor Black])
  else s.

(** One turn of the loop over the rich tokens. *)
Definition place_token (left_x right_x : float) (line_height : Z)
  (acc : float * float * list op) (tok : str * option str)
  : float * float * list op :=
  let '(cursor_x, cursor_y, ops) := acc in
  let '(token, url) := tok in
  let token_w := stringWidth token font_regular 10 in
  let '(cursor_x, cursor_y, ops) :=
    if flt right_x (cursor_x + token_w)%F && flt left_x cursor_x then
      let cursor_y := (cursor_y - #line_height)%F in
      if fle cursor_y (of_Z 40)
      then (left_x, (height - #56)%F,
            ops ++ [ShowPage; SetFillColor Black; SetFont font_regular 10])
      else (left_x, cursor_y, ops)
    else (cursor_x, cursor_y, ops) in
  let drawn :=
    match url with
    | Some u =>
        [SetFillColor link_blue; DrawString cursor_x cursor_y token;
         LinkURL u cursor_x (cursor_y - #1)%F (cursor_x + token_w)%F
           (cursor_y + #10)%F]
    | None => [SetFillColor Black; DrawString cursor_x cursor_y token]
    end in
  ((cursor_x + token_w)%F, cursor_y, ops ++ drawn).

Definition rich_tokens : list (str * option str) :=
  mjoin ((fun '(text, url) => (fun t => (t, url)) <$> findall_tokens [] false text)
         <$> segments).

Definition draw_rich_paragraph (s : state) : state :=
  let max_text_width := (width - #72)%F in
  let left_x := (of_Z 36) in
  let right_x := (left_x + max_text_width)%F in
  let '(_, cursor_y, ops) :=
    foldl (place_token left_x right_x 12) (left_x, y s, out s) rich_tokens in
  mkstate (cursor_y - #24)%F (ops ++ [SetFillColor Black]).

(** The plain paragraph: each wrapped line is space-checked and drawn. *)
Definition draw_wrapped_line (s : state) (line : str) : state :=
  let s := ensure_space (of_Z 12) s in
  move_down 12 (emit [DrawString (of_Z 36) (y s) line] s).

Definition draw_plain_paragraph (agreement_section : str) (s : state) : state :=
  let max_text_width := (width - #72)%F in
  let wrapped_agreement :=
    wrap_text_to_width stringWidth max_text_width font_regular 10
      agreement_section in
  move_down 12 (foldl draw_wrapped_line s wrapped_agreement).

Definition draw_paragraph_line (s : state) (line : str) : state :=
  match line with
  | [] => move_down 12 s
  | _ =>
      let s := ensure_space (of_Z 12) s in
      move_down 12
        (emit [SetFont font_regular 10; DrawString (of_Z 36) (y s) line] s)
  end.

Definition draw_signature_block (s : state) : state :=
  let y0 := y s in
  let mid_x := (width / #2)%F in
  let left_line_end := (mid_x - #16)%F in
  let right_line_end := (width - #36)%F in
  let field (yy : float) (label : str) (x1 x2 : Z) : list op :=
    [DrawString (of_Z 36) yy label;
     Line (of_Z x1) (yy - #2)%F left_line_end (yy - #2)%F;
     DrawString (of_Z 330) yy label;
     Line (of_Z x2) (yy - #2)%F right_line_end (yy - #2)%F] in
  let y1 := (y0 - #28)%F in
  let y2 := (y1 - #24)%F in
  let y3 := (y2 - #24)%F in
  let y4 := (y3 - #24)%F in
  mkstate y4
    (out s
     ++ [SetStrokeColor rule_grey;
         Line (of_Z 36) (y0 + #23)%F (width - #36)%F (y0 + #23)%F;
         SetFont font_bold 12; DrawString (of_Z 36) y0 (py "Statsig, LLC:");
         SetFont font_bold 12; DrawString (of_Z 330) y0 (py "Customer:");
         SetFont font_regular 10]
     ++ field y1 (py "By:") 62 356
     ++ field y2 (py "Name:") 70 364
     ++ field y3 (py "Title:") 66 360
     ++ field y4 (py "Date:") 66 360).

Definition draw_agreement_section (agreement_section : str)
  (start_y : float) : state :=
  let s := mkstate start_y [] in
  let s := ensure_space (of_Z 24) s in
  let s := emit [SetFillColor Black; SetFont font_bold 12;
                 DrawString (of_Z 36) (y s) (py "Agreement")] s in
  let s := move_down 20 s in
  let s := ensure_space (of_Z 14) s in
  let s := emit [SetFont font_regular 10] s in
  let s :=
    if contains agreement_section (py "Enterprise Subscription Agreement")
       && contains agreement_section (py "Data Processing Addendum")
    then draw_rich_paragraph s
    else draw_plain_paragraph agreement_section s in
  let s := emit [SetFont font_regular 10] s in
  let s := foldl draw_paragraph_line s paragraph_lines in
  let s := move_down 30 s in
  let s := ensure_space (of_Z 132) s in
  draw_signature_block s.

(** The agreement text of [create_branded_pdf] for MSA terms, with the
    execution date [msa_date_display]. *)
Definition msa_agreement_section (msa_date_display : str) : str :=
  py "This Order Form is subject to the Master Subscription Agreement ("
    ++ [8220%N] ++ py "MSA" ++ [8221%N]
    ++ py ") between Customer and Statsig, Inc., executed on "
    ++ msa_date_display ++ py " , governing Customer" ++ [8217%N]
    ++ py "s use of the Service described herein.".

(** The "Usage Terms" loop of [create_branded_pdf] over the paragraphs of
    the usage text. *)
Definition draw_usage_line (s : state) (line : str) : state :=
  let s :=
    if fle (y s) (of_Z 40)
    then mkstate (height - #56)%F
           (out s ++ [ShowPage; SetFillColor Black; SetFont font_regular 10])
    else s in
  move_down 12 (emit [DrawString (of_Z 36) (y s) line] s).

Definition draw_usage_paragraph (s : state) (paragraph : str) : state :=
  match strip paragraph with
  | [] => move_down 7 s
  | _ =>
      foldl draw_usage_line s
        (wrap_text_to_width stringWidth (width - #72)%F font_regular 10
           paragraph)
  end.

Definition draw_usage_terms (paragraph_blocks : list str) (s : state)
  : state :=
  foldl draw_usage_paragraph s paragraph_blocks.

End WithCanvas.

End Flow.

(** ** The order of the sort keys *)

Module Order.
Import PyStr PyFloat Py Rows.

(** Position of a float in the order of [<]: class (infinities, sign), then
    exponent, then mantissa.  [SFcompare] is the lexicographic comparison of
    these triples on the floats that are not NaN. *)
Definition float_rank (x : float) : Z * Z * Z :=
  match x with
  | S754_nan => (0, 0, 0)
  | S754_zero _ => (0, 0, 0)
  | S754_infinity true => (-2, 0, 0)
  | S754_infinity false => (2, 0, 0)
  | S754_finite true m e => (-1, - e, Zneg m)
  | S754_finite false m e => (1, e, Zpos m)
  end.

Definition rank_lt (a b : Z * Z * Z) : Prop :=
  let '(a1, a2, a3) := a in
  let '(b1, b2, b3) := b in
  a1 < b1 \/ (a1 = b1 /\ (a2 < b2 \/ (a2 = b2 /\ a3 < b3))).

Definition key_rank (k : bool * float) : Z * (Z * Z * Z) :=
  (if fst k then 1 else 0, float_rank (snd k)).

Definition key_rank_lt (a b : Z * (Z * Z * Z)) : Prop :=
  fst a < fst b \/ (fst a = fst b /\ rank_lt (snd a) (snd b)).

(** The key of a normalized row. *)
Definition key_of (r : row) : bool * float := (is_support r, fneg (fee_of r)).

(** A decorated list in which no later key is below an earlier one. *)
Definition keys_sorted {K A} (lt : K -> K -> bool) (l : list (K * A)) : Prop :=
  StronglySorted (fun x y => lt (fst y) (fst x) = false) l.

Definition not_nan_key (k : bool * float) : Prop := is_nan (snd k) = false.

(** The keys of one group. *)
Definition group_key (b : bool) (f : float) (k : bool * float) : bool :=
  Bool.eqb (fst k) b && feq (fneg (snd k)) f.

Definition decorate (r : row) : (bool * float) * row := (key_of r, r).

(** Rows of one group: same side of the Support split, equal fee. *)
Definition same_group (b : bool) (f : float) (r : row) : bool :=
  Bool.eqb (is_support r) b && feq (fee_of r) f.

End Order.

(** ** The statements of the specification, where they differ from the code *)

Module Stated.
Import PyStr PyFloat Py Money Rows Canvas Table.

(** The exact sum of finite doubles, a dyadic number. *)
Definition exact_sum (xs : list float) : option dyadic :=
  foldl (fun acc x =>
           match acc, value x with
           | Some a, Some v => Some (dyadic_add a v)
           | _, _ => None
           end) (Some (0, 0)) xs.

(** A non-negative exact amount as currency: dollar sign, thousands
    separators, two decimals. *)
Definition fmt_exact (v : dyadic) : str := py "$" ++ fixed2_abs v.

(** The total as the specification words it: the exact sum of the fees,
    formatted as currency. *)
Definition spec_total_text (fees : list float) : option str :=
  fmt_exact <$> exact_sum fees.

(** The fee of a normalized row reads back from its text: [float(str(f))]
    is [f], as it is for every double that is not NaN. *)
Definition fee_text_round_trips (r : row) : Prop :=
  safe_money (VStr (py_str (get r fee_key (VStr [])))) = Ok (fee_of r).

(** The fee that normalization gives a raw row. *)
Definition raw_fee (raw : row) : result float :=
  normalize_fee_value
    (get raw "annual_service_fee" (get raw "Annual Service Fee" (VStr []))).

(** No addition of the running sum rounds: the float sum is the exact sum. *)
Definition sum_is_exact (alg : summation) (fees : list float) : Prop :=
  sign_bit (py_sum alg fees) = false
  /\ exists v w, value (py_sum alg fees) = Some v /\ exact_sum fees = Some w
                 /\ dyadic_eqb v w = true.

(** The row order as the specification words it: a row whose label ends
    with "Support" comes after every row whose label does not. *)
Definition label_ends_support (r : row) : bool :=
  endswith (label_of r) (py "Support").

Definition support_rows_last (out : list row) : Prop :=
  forall i j r s, (i < j)%nat -> out !! i = Some r -> out !! j = Some s ->
    label_ends_support r = true -> label_ends_support s = true.

(** The other rows, in descending order of fee. *)
Definition other_fees_descend (out : list row) : Prop :=
  forall i j r s, (i < j)%nat -> out !! i = Some r -> out !! j = Some s ->
    label_ends_support r = false -> label_ends_support s = false ->
    is_nan (fee_of r) = false -> is_nan (fee_of s) = false ->
    fle (fee_of s) (fee_of r) = true.

(** The total row as the specification words it: the total right-aligned,
    and the label right-aligned unless there is a single column. *)
Definition total_row_as_stated (col_w : list float) (total : float)
  (ops : list op) : Prop :=
  draws AlignRight (fmt_money total) ops = true
  /\ draws AlignRight (py "Total:") ops = (1 <? length col_w)%nat.

(** The five columns of the standard table on a letter page. *)
Definition letter_col_w : list float :=
  (fun w => fmul (of_Z 540) w) <$> column_weights 5.

(** Rows as the application passes them, and as they are normalized. *)
Definition raw_row (service : string) (fee : pyval) : row :=
  <[py "service" := VStr (py service)]>
  (<[py "annual_service_fee" := fee]> ∅).

Definition norm_row (service : string) (fee : float) : row :=
  mkrow [] (py service) [] [] fee.

(** The example of the specification: fees 1234.5 and 65.25. *)
Definition example_rows : list row :=
  [raw_row "Experimentation" (VStr (py "1234.5"));
   raw_row "Premium Support" (VFloat (of_decimal false 6525 (-2)))].

Definition example_norm : list row :=
  [norm_row "Experimentation" (of_decimal false 12345 (-1));
   norm_row "Premium Support" (of_decimal false 6525 (-2))].

(** The example of the specification: fees 10, 50, 10 for A, B, C. *)
Definition abc_rows : list row :=
  [raw_row "A" (VInt 10); raw_row "B" (VStr (py "50")); raw_row "C" (VFloat (of_Z 10))].

Definition abc_norm : list row :=
  [norm_row "A" (of_Z 10); norm_row "B" (of_Z 50); norm_row "C" (of_Z 10)].

Definition abc_sorted : list row :=
  [norm_row "B" (of_Z 50); norm_row "A" (of_Z 10); norm_row "C" (of_Z 10)].

(** Two support rows, the second label with a trailing blank. *)
Definition blank_rows : list row :=
  [raw_row "Premium Support" (VInt 10); raw_row "Basic Support " (VInt 5)].

Definition blank_sorted : list row :=
  [norm_row "Premium Support" (of_Z 10); norm_row "Basic Support " (of_Z 5)].

(** Three rows, the fee of the second being the text "nan", which [float]
    reads as NaN.  No key is below another one by [<], so every stable sort
    that compares with [<] leaves the rows as they are. *)
Definition nan_rows : list row :=
  [raw_row "A" (VInt 10); raw_row "B" (VStr (py "nan")); raw_row "C" (VInt 50)].

Definition nan_sorted : list row :=
  [norm_row "A" (of_Z 10); norm_row "B" S754_nan; norm_row "C" (of_Z 50)].

(** Two fees whose sum is not a double: 10^16 and 1. *)
Definition large_rows : list row :=
  [raw_row "Platform Fee" (VFloat (of_decimal false 1 16));
   raw_row "Session Replay" (VFloat (of_Z 1))].

Definition large_norm : list row :=
  [norm_row "Platform Fee" (of_decimal false 1 16);
   norm_row "Session Replay" (of_Z 1)].

End Stated.

From Stdlib Require DecimalN DecimalPos.

(** ** The subscription period (app.py, lines 197-215) *)

Module Calendar.
Import PyStr PyFloat Py Dates.

(** Months counted from year 0: the position of the month of [d]. *)
Definition month_position (d : date) : Z := 12 * year d + (month d - 1).

(** [//] and [%] of Python round towards minus infinity, as [/] and [mod]
    do for a positive divisor. *)
Definition add_months (d : date) (months : Z) : result date :=
  let month_index := month d - 1 + months in
  let year := year d + month_index / 12 in
  let month := month_index mod 12 + 1 in
  make_date year month 1.

(** [d - timedelta(days=1)]: the day before, [OverflowError] before the
    first day of year 1. *)
Definition minus_one_day (d : date) : result date :=
  if 1 <? day d then Ok (mkdate (year d) (month d) (day d - 1))
  else if 1 <? month d
  then Ok (mkdate (year d) (month d - 1) (days_in_month (year d) (month d - 1)))
  else if 1 <? year d then Ok (mkdate (year d - 1) 12 31)
  else Raise OverflowError.

Definition compute_end_date (start : date) (term_months : Z) : result date :=
  first ← first_of_month start;
  next ← add_months first (Z.max 1 term_months);
  minus_one_day next.

(** [today] is the argument, or [date.today()] when it is [None]. *)
Definition default_subscription_start_date (today : date) : result date :=
  first ← first_of_month today;
  add_months first 1.

Definition two_digits (n : Z) : str :=
  [digit_char (Z.to_N (n / 10)); digit_char (Z.to_N (n mod 10))].

Definition four_digits (n : Z) : str :=
  [digit_char (Z.to_N (n / 1000)); digit_char (Z.to_N (n / 100 mod 10));
   digit_char (Z.to_N (n / 10 mod 10)); digit_char (Z.to_N (n mod 10))].

(** [%Y] of [strftime]: the C library of the platform pads a year below
    1000 with zeros to four digits ([pad_year]), or prints it as it is. *)
Definition year_text (pad_year : bool) (y : Z) : str :=
  if pad_year then four_digits y else Z_chars y.

(** [d.strftime("%m/%d/%Y")] *)
Definition display_date (pad_year : bool) (d : date) : str :=
  two_digits (month d) ++ py "/" ++ two_digits (day d) ++ py "/"
    ++ year_text pad_year (year d).

(** [a <= b] on dates. *)
Definition date_leb (a b : date) : bool :=
  (year a <? year b)
  || (year a =? year b)
     && ((month a <? month b) || (month a =? month b) && (day a <=? day b)).

(** The years whose text [%Y] prints with four digits on every platform. *)
Definition four_digit_years : list Z := seqZ 1000 9000.

End Calendar.

(** ** Checks of the table entries (app.py, lines 267-274, 363-376) *)

Module Check.
Import PyStr PyFloat Py Money Rows.

Definition is_whole_number (value : pyval) : bool :=
  all_digits (strip (replace 44%N [] (py_str value))).

Definition is_numeric_amount (value : pyval) : result bool :=
  match cleaned_amount value with
  | [] => Ok false
  | cleaned =>
      try_except (_ ← float_of_text cleaned; Ok true) ValueError (Ok false)
  end.

(** [None] of the source is [None] here. *)
Definition parse_numeric_value (value : pyval) : result (option float) :=
  match cleaned_amount value with
  | [] => Ok None
  | cleaned =>
      try_except (f ← float_of_text cleaned; Ok (Some f)) ValueError (Ok None)
  end.

(** The whole number of cents nearest to [|x|], ties to even: the digits
    that the [",.2f"] format prints for a finite [x]. *)
Definition cents (x : float) : N :=
  match value x with
  | Some v => Z.to_N (round_hundredths (Z.abs (fst v)) (snd v))
  | None => 0%N
  end.

(** [x] rounded to cents: the double nearest to the amount that
    [fmt_money] prints. *)
Definition rounded_to_cents (x : float) : float :=
  match x with
  | S754_nan | S754_infinity _ => x
  | _ => of_decimal (sign_bit x) (cents x) (-2)
  end.

(** The fee entry that [normalize_service_rows] reads in a raw row. *)
Definition fee_entry (raw : row) : pyval :=
  get raw "annual_service_fee" (get raw "Annual Service Fee" (VStr [])).

(** An [int] that [float] cannot convert: beyond the finite doubles. *)
Definition too_large (v : pyval) : Prop :=
  exists z, v = VInt z /\ is_finite (of_Z z) = false.

End Check.

(** ** Products and usage terms (app.py, lines 228-264, 287-312, 397-424,
    434-603) *)

Module Products.
Import PyStr PyFloat Py Money Rows Check.

(** [x in items] for a list, a set or a tuple of [str]. *)
Definition mem (x : str) (items : list str) : bool :=
  existsb (str_eqb x) items.

(** [list(dict.fromkeys(items))]: the items in the order of their first
    occurrence. *)
Definition fromkeys (items : list str) : list str :=
  foldl (fun keys x => if mem x keys then keys else keys ++ [x]) [] items.

(** [str(row.get("service", "")).strip()] *)
Definition stripped_service (r : row) : str :=
  strip (py_str (get r "service" (VStr []))).

Definition CLOUD_PRODUCTS : list str :=
  [py "Feature Gates and SDKs"; py "Experimentation";
   py "Advanced Product Analytics"; py "Platform Fee"; py "Session Replay"].

Definition WAREHOUSE_NATIVE_EXPERIMENTATION_OPTIONS : list str :=
  [py "Experimentation: Analysis Only";
   py "Experimentation: Analysis + Assignment"].

Definition WAREHOUSE_NATIVE_OTHER_PRODUCTS : list str :=
  [py "Feature Gates and SDKs"; py "Advanced Product Analytics";
   py "Platform Fee"; py "Session Replay"].

Definition USAGE_BASED_REQUIRED_PRODUCTS : list str :=
  [py "Warehouse Native"; py "Platform Fee"].

Definition product_options_by_warehouse (warehouse_type : str) : list str :=
  if str_eqb warehouse_type (py "Warehouse Native")
  then WAREHOUSE_NATIVE_OTHER_PRODUCTS
         ++ WAREHOUSE_NATIVE_EXPERIMENTATION_OPTIONS
  else if mem warehouse_type
            [py "Credit"; py "Credit/Usage Based"; py "Usage Based Pricing"]
  then USAGE_BASED_REQUIRED_PRODUCTS
  else CLOUD_PRODUCTS.

Definition default_unit_for_service (service : str) : str :=
  if str_eqb service (py "Experimentation") then py "Billable Events"
  else if str_eqb service (py "Session Replay") then py "Sessions"
  else py "N/A".

Definition is_experimentation_service (service warehouse_type : str) : bool :=
  let cloud_only := [py "Experimentation"] in
  let warehouse_native_only :=
    [py "Experimentation: Analysis Only";
     py "Experimentation: Analysis + Assignment"] in
  if str_eqb warehouse_type (py "Cloud") then mem service cloud_only
  else if str_eqb warehouse_type (py "Warehouse Native")
  then mem service warehouse_native_only
  else mem service (cloud_only ++ warehouse_native_only).

Definition default_usage_for_service (service : str) : str :=
  if is_experimentation_service service [] then []
  else if mem service [py "Feature Gates and SDKs"; py "Platform Fee"]
  then py "N/A"
  else if endswith service (py "Support") then py "N/A"
  else py "N/A".

(** *** [products_from_services_rows], [normalize_special_terms] *)

Definition products_from_services_rows (rows : list row)
  : result (list str) :=
  normalized ← normalize_service_rows rows;
  let products :=
    foldl (fun products r =>
             let service := stripped_service r in
             match service with
             | [] => products
             | _ =>
                 if endswith service (py "Support")
                 then products ++ [py "Support"]
                 else products ++ [service]
             end) [] normalized in
  Ok (fromkeys products).

(** [s.lower() != "none"]: [lower] is the lower case of the ASCII letters,
    which is all the comparison with ["none"] depends on. *)
Definition normalize_special_terms (selected : list str) : list str :=
  match selected with
  | [] => []
  | _ =>
      let cleaned :=
        strip <$> List.filter (fun s => negb (str_eqb (strip s) [])) selected in
      let non_none :=
        List.filter (fun s => negb (str_eqb (lower s) (py "none"))) cleaned in
      fromkeys non_none
  end.

(** *** [build_services_rows] *)

Definition existing_by_service (existing_rows : list row) : gmap str row :=
  foldl (fun by_service r =>
           let existing_service := stripped_service r in
           match existing_service with
           | [] => by_service
           | _ => <[existing_service := r]> by_service
           end) ∅ existing_rows.

Definition service_name_of (support_tier product : str) : str :=
  if str_eqb product (py "Support") then support_tier ++ py " Support"
  else product.

Definition build_services_rows (selected_products : list str)
  (support_tier : str) (existing_rows : list row) : result (list row) :=
  existing_rows ← normalize_service_rows existing_rows;
  let by_service := existing_by_service existing_rows in
  mapM (fun product =>
          let service_name := service_name_of support_tier product in
          let existing : row := default ∅ (by_service !! service_name) in
          let usage :=
            format_usage_commitment_value
              (get existing "annual_usage_commitment"
                 (VStr (default_usage_for_service service_name))) in
          let unit :=
            py_str (get existing "unit"
                      (VStr (default_unit_for_service service_name))) in
          fee ← normalize_fee_value
                  (get existing "annual_service_fee" (VFloat zero));
          Ok (<[py "subscription_period" := VStr []]>
              (<[py "service" := VStr service_name]>
               (<[py "annual_usage_commitment" := VStr usage]>
                (<[py "unit" := VStr unit]>
                 (<[py "annual_service_fee" := VFloat fee]> ∅))))))
       selected_products.

(** *** [validate_services_rows] *)

Definition credit_validation (warehouse_type : str) : bool :=
  mem warehouse_type [py "Credit"; py "Credit/Usage Based"].

Definition row_label (idx : nat) : str := py "Row " ++ Z_chars (Z.of_nat idx).

Definition service_required (idx : nat) : str :=
  row_label idx ++ py ": Service is required.".

Definition fee_not_numeric (idx : nat) (service : str) : str :=
  row_label idx ++ py " (" ++ service
    ++ py "): Annual Service Fee is required and must be numeric.".

Definition credits_not_whole (idx : nat) (service : str) : str :=
  row_label idx ++ py " (" ++ service
    ++ py "): Credits must be a whole number.".

Definition usage_not_whole (idx : nat) (service : str) : str :=
  row_label idx ++ py " (" ++ service
    ++ py "): Annual Usage Commitment must be a whole number.".

Definition usage_not_na (idx : nat) (service : str) : str :=
  row_label idx ++ py " (" ++ service
    ++ py "): Annual Usage Commitment must be N/A for non-experimentation products.".

(** The body of the loop, for the row numbered [idx]: the errors it
    appends. *)
Definition validate_row (warehouse_type : str) (idx : nat) (r : row)
  : result (list str) :=
  let service := strip (py_str (get r "service" (VStr []))) in
  let usage := strip (py_str (get r "annual_usage_commitment" (VStr []))) in
  let fee := strip (py_str (get r "annual_service_fee" (VStr []))) in
  match service with
  | [] => Ok [service_required idx]
  | _ =>
      numeric ← is_numeric_amount (VStr fee);
      let fee_errors :=
        if (numeric : bool) then [] else [fee_not_numeric idx service] in
      let usage_errors :=
        if credit_validation warehouse_type
           && negb (is_whole_number (VStr usage))
        then [credits_not_whole idx service]
        else if is_experimentation_service service warehouse_type then
          (if str_eqb usage [] || str_eqb (upper usage) (py "N/A")
              || negb (is_whole_number (VStr usage))
           then [usage_not_whole idx service] else [])
        else if negb (str_eqb (upper usage) (py "N/A"))
        then [usage_not_na idx service]
        else [] in
      Ok (fee_errors ++ usage_errors)
  end.

(** [enumerate(rows, start=1)] *)
Definition validate_services_rows (rows : list row) (warehouse_type : str)
  : result (list str) :=
  errors ← mapM (fun ir : nat * row =>
                   validate_row warehouse_type (S (fst ir)) (snd ir))
              (imap (fun i r => (i, r)) rows);
  Ok (concat (errors : list (list str))).

(** *** [build_usage_terms_for_products] *)

Definition session_replay_term : str :=
  py "Customer will have access to 50,000 recorded user sessions on "
    ++ py "a rolling 30-day basis, for a total of 600,000 during the Paid "
    ++ py "Subscription Term. New sessions above 50,000 in a 30-day window "
    ++ py "will not be recorded or stored. Customer can control session "
    ++ py "recording frequency by adjusting sample rate.".

Definition cloud_short_fg_only : str :=
  py "Customer may use up to 100,000,000,000 non-analytic Feature "
    ++ py "Gate and config checks through all server and client-side SDKs "
    ++ py "during each subscription period.".

Definition cloud_long_fg_plus_exp (excess_usage_rate_display : str) : str :=
  py "Customer has access to the number of billable events specified "
    ++ py "in the table above during the applicable subscription period "
    ++ py "("
    ++ [34%N]
    ++ py "Annual Usage Commitment"
    ++ [34%N]
    ++ py "). Unused billable events expire at the end of the applicable "
    ++ py "subscription period and cannot be rolled over to a future subscription "
    ++ py "period."
    ++ [10%N; 10%N]
    ++ py "Statsig records a billable event when Customer's application "
    ++ py "uses Statsig SDKs or APIs to check the value of an experiment, "
    ++ py "analytics-enabled gate, or layer. Statsig deduplicates exposure "
    ++ py "events for identical users and features or experiments within "
    ++ py "each hour on a client-side SDK and within each minute on a server-side "
    ++ py "SDK."
    ++ [10%N; 10%N]
    ++ py "Statsig also records a billable event each time Customer logs "
    ++ py "an event to Statsig via Statsig SDKs, ingests a metric, or computes "
    ++ py "a custom metric. Customer can add one event dimension for each "
    ++ py "logged event, without incurring an additional billable event. "
    ++ py "For every additional dimension added, an extra log event will "
    ++ py "be recorded."
    ++ [10%N; 10%N]
    ++ py "Checks for experiments that result in no allocation (i.e., if "
    ++ py "the experiment hasn't commenced or has concluded) or Feature "
    ++ py "Gates that are deactivated (i.e., fully launched or discarded "
    ++ py "without any rule evaluation) do not generate billable events."
    ++ [10%N; 10%N]
    ++ py "Customer may use up to 100,000,000,000 non-analytic Feature "
    ++ py "Gate and config checks through all server and client-side SDKs "
    ++ py "during each subscription period."
    ++ [10%N; 10%N]
    ++ py "If Customer exceeds the Annual Usage Commitment during the applicable "
    ++ py "subscription period, Customer shall be invoiced monthly in arrears "
    ++ py "for any excess usage at a rate of "
    ++ excess_usage_rate_display
    ++ py " per 1,000 billable events.".

Definition wn_analysis_assignment_text (excess_usage_rate_display : str) : str :=
  py "If Customer has access to the number of experiments specified "
    ++ py "in the table above during the applicable subscription period "
    ++ py "("
    ++ [34%N]
    ++ py "Annual Usage Commitment"
    ++ [34%N]
    ++ py "). Unused experiments expire at the end of the applicable subscription "
    ++ py "period and cannot be rolled over to a future subscription period."
    ++ [10%N; 10%N]
    ++ py "Experiment is defined as an experiment or a feature rollout "
    ++ py "that results in metric lifts being computed. Feature rollouts "
    ++ py "configured to not compute metric lifts are not counted as experiments. "
    ++ py "The same experiment being restarted is not counted as a new "
    ++ py "experiment."
    ++ [10%N; 10%N]
    ++ py "Customer may use up to 100,000,000,000 Feature Gate checks through "
    ++ py "all server and client-side SDKs. Customers may also forward "
    ++ py "up to 100,000,000,000 exposures to their data warehouse using "
    ++ py "Statsig's SDKs."
    ++ [10%N; 10%N]
    ++ py "If Customer exceeds the Annual Usage Commitment during the applicable "
    ++ py "subscription period, Customer shall be invoiced monthly in arrears "
    ++ py "for any excess usage at a rate of "
    ++ excess_usage_rate_display
    ++ py " per experiment.".

Definition wn_analysis_only_text (excess_usage_rate_display : str) : str :=
  py "Customer has access to the number of experiments specified in "
    ++ py "the table above during the applicable subscription period ("
    ++ [34%N]
    ++ py "Annual Usage Commitment"
    ++ [34%N]
    ++ py "). Unused experiments expire at the end of the applicable subscription "
    ++ py "period and cannot be rolled over to a future subscription period."
    ++ [10%N; 10%N]
    ++ py "Experiment is defined as an experiment or a feature rollout "
    ++ py "that results in metric lifts being computed. Feature rollouts "
    ++ py "configured to not compute metric lifts are not counted as experiments. "
    ++ py "The same experiment being restarted is not counted as a new "
    ++ py "experiment."
    ++ [10%N; 10%N]
    ++ py "If Customer exceeds the Annual Usage Commitment during the applicable "
    ++ py "subscription period, Customer shall be invoiced monthly in arrears "
    ++ py "for any excess usage at a rate of "
    ++ excess_usage_rate_display
    ++ py " per experiment.".

Definition paragraph_break : str := [10%N; 10%N].

Definition build_usage_terms_for_products (warehouse_type : str)
  (selected_products : list str) (excess_usage_rate : str) : result str :=
  rate ← safe_money (VStr excess_usage_rate);
  let excess_usage_rate_display := fmt_money rate in
  let has_feature_gates := mem (py "Feature Gates and SDKs") selected_products in
  let has_session_replay := mem (py "Session Replay") selected_products in
  let cloud_experimentation_set :=
    [py "Experimentation"; py "Experimentation: Analysis Only";
     py "Experimentation: Analysis + Assignment"] in
  let has_cloud_experimentation :=
    existsb (fun p => mem p selected_products) cloud_experimentation_set in
  let has_wn_analysis_assignment :=
    existsb (fun p => mem p selected_products)
      [py "Experimentation: Analysis + Assignment";
       py "Warehouse Native: Experimentation (Analysis + Assignment)"] in
  let has_wn_analysis_only :=
    existsb (fun p => mem p selected_products)
      [py "Experimentation: Analysis Only"; py "Warehouse Native: Analysis"] in
  if str_eqb warehouse_type (py "Cloud") then
    let base :=
      if has_feature_gates && has_cloud_experimentation
      then cloud_long_fg_plus_exp excess_usage_rate_display
      else if has_feature_gates && negb has_cloud_experimentation
      then cloud_short_fg_only
      else [] in
    if has_session_replay
    then Ok (match base with
             | [] => session_replay_term
             | _ => base ++ paragraph_break ++ session_replay_term
             end)
    else Ok base
  else if str_eqb warehouse_type (py "Warehouse Native") then
    let base :=
      if has_wn_analysis_assignment
      then wn_analysis_assignment_text excess_usage_rate_display
      else if has_wn_analysis_only
      then wn_analysis_only_text excess_usage_rate_display
      else [] in
    if has_session_replay
    then Ok (match base with
             | [] => session_replay_term
             | _ => base ++ paragraph_break ++ session_replay_term
             end)
    else Ok base
  else Ok [].

End Products.

(** ** The rate for excess usage (app.py, lines 434-479) *)

Module Usage.
Import PyStr PyFloat Py Money Rows Check Products.

(** The exceptions of the arithmetic of this function: the ones of [exn],
    and the one a division by zero raises. *)
Inductive failure := PyError (e : exn) | ZeroDivisionError.

Inductive outcome (A : Type) :=
| Returns (a : A)
| Fails (f : failure).
Arguments Returns {A} a.
Arguments Fails {A} f.

#[global] Instance outcome_ret : MRet outcome := fun A a => Returns a.
#[global] Instance outcome_bind : MBind outcome :=
  fun A B k r => match r with Returns a => k a | Fails f => Fails f end.

Definition lift {A} (r : result A) : outcome A :=
  match r with
  | Ok a => Returns a
  | Raise e => Fails (PyError e)
  end.

Definition is_zero (x : float) : bool :=
  match x with S754_zero _ => true | _ => false end.

(** [x / n] for a [float] and an [int]: the [int] is converted first
    ([OverflowError] beyond the doubles), a zero divisor raises
    [ZeroDivisionError]. *)
Definition truediv (x : float) (n : Z) : outcome float :=
  d ← lift (float_of_int n);
  if is_zero d then Fails ZeroDivisionError else Returns (fdiv x d).

(** [m * 2^e * k] rounded to an integer, ties to even. *)
Definition round_scaled (k : Z) (m : Z) (e : Z) : Z :=
  match e with
  | Zneg p =>
      let d := Z.pow_pos 2 p in
      let n := m * k in
      let q := n / d in
      let r := n mod d in
      match Z.compare (2 * r) d with
      | Lt => q
      | Gt => q + 1
      | Eq => if Z.even q then q else q + 1
      end
  | _ => m * 2 ^ e * k
  end.

Definition pad_zeros (width : nat) (ds : str) : str :=
  replicate (width - length ds) 48%N ++ ds.

(** The text of [|v|] with [places] decimals. *)
Definition fixed_abs (places : nat) (v : dyadic) : str :=
  let k := 10 ^ Z.of_nat places in
  let c := round_scaled k (Z.abs (fst v)) (snd v) in
  N_chars (Z.to_N (c / k))
    ++ match places with
       | O => []
       | _ => py "." ++ pad_zeros places (N_chars (Z.to_N (c mod k)))
       end.

(** [format(x, ".4f")] and [format(x, ".2f")], by the number of places. *)
Definition format_fixed (places : nat) (x : float) : str :=
  match x with
  | S754_nan => py "nan"
  | S754_infinity s => sign_text s ++ py "inf"
  | S754_zero s => sign_text s ++ fixed_abs places (0, 0)
  | S754_finite s m e => sign_text s ++ fixed_abs places (Zpos m, e)
  end.

(** The row returned, or the empty [dict]. *)
Definition find_row_by_service (rows : list row) (service_name : str) : row :=
  match List.find (fun r => str_eqb (stripped_service r) service_name) rows
  with
  | Some r => r
  | None => ∅
  end.

(** [not d] for a [dict]. *)
Definition no_row (d : row) : bool := bool_decide (d = ∅).

Definition fee_of_row (r : row) : outcome float :=
  lift (safe_money (VStr (py_str (get r "annual_service_fee" (VStr []))))).

Definition usage_of_row (r : row) : N :=
  parse_whole_number (VStr (py_str (get r "annual_usage_commitment" (VStr [])))).

Definition compute_excess_usage_rate (rows : list row) (warehouse_type : str)
  : outcome str :=
  if str_eqb warehouse_type (py "Cloud") then
    let exp_row := find_row_by_service rows (py "Experimentation") in
    if no_row exp_row then Returns (py "N/A")
    else
      total_price ← fee_of_row exp_row;
      let usage_commitment := usage_of_row exp_row in
      if (usage_commitment <=? 0)%N then Returns (py "N/A")
      else
        quotient ← truediv total_price (Z.of_N usage_commitment);
        let rate := fmul quotient (of_Z 1000) in
        Returns (format_fixed 4 rate)
  else if str_eqb warehouse_type (py "Warehouse Native") then
    let exp_row :=
      let first := find_row_by_service rows (py "Experimentation: Analysis Only") in
      if no_row first
      then find_row_by_service rows (py "Experimentation: Analysis + Assignment")
      else first in
    if no_row exp_row then Returns (py "N/A")
    else
      total_price ← fee_of_row exp_row;
      let usage_commitment := usage_of_row exp_row in
      if (usage_commitment <=? 0)%N then Returns (py "N/A")
      else
        rate ← truediv total_price (Z.of_N usage_commitment);
        Returns (format_fixed 2 rate)
  else if mem warehouse_type [py "Credit"; py "Credit/Usage Based"] then
    let warehouse_native_row :=
      find_row_by_service rows (py "Warehouse Native") in
    if no_row warehouse_native_row then Returns (py "N/A")
    else
      total_price ← fee_of_row warehouse_native_row;
      let credit_amount := usage_of_row warehouse_native_row in
      if (credit_amount <=? 0)%N then Returns (py "N/A")
      else
        rate ← truediv total_price (Z.of_N credit_amount);
        Returns (format_fixed 4 rate)
  else Returns (py "N/A").

End Usage.

(** ** The usage terms block of [create_branded_pdf] (app.py, lines
    1234-1263) *)

Module Sections.
Import PyStr PyFloat Py Wrap Canvas Canvas.Notations Flow.

(** [s.split(sep)] for a one-character separator: the pieces between the
    separators, empty ones included. *)
Fixpoint split_on (sep : char) (s : str) : list str :=
  match s with
  | [] => [[]]
  | c :: s' =>
      if char_eqb c sep then [] :: split_on sep s'
      else match split_on sep s' with
           | piece :: rest => (c :: piece) :: rest
           | [] => [[c]]
           end
  end.

Section WithCanvas.
Variable stringWidth : str -> str -> Z -> float.
Variables width height : float.
Variables font_regular font_bold : str.

(** From the choice of the usage text to the rule under the block;
    [y_after] is the cursor under the footer rule. *)
Definition draw_usage_section (auto_usage_terms order_usage_terms : str)
  (y_after : float) : state :=
  let usage_text :=
    match auto_usage_terms with
    | [] => order_usage_terms
    | _ => auto_usage_terms
    end in
  let s := mkstate (y_after - #23)%F [] in
  let s := emit [SetFont font_bold 12; SetFillColor Black;
                 DrawString (of_Z 36) (y s) (py "Usage Terms")] s in
  let s := move_down 20 s in
  let s := emit [SetFont font_regular 10; SetFillColor Black] s in
  let paragraph_blocks := split_on 10%N usage_text in
  let s :=
    draw_usage_terms stringWidth width height font_regular paragraph_blocks s in
  let s := move_down 5 s in
  emit [SetStrokeColor rule_grey;
        Line (of_Z 36) (y s) (width - #36)%F (y s)] s.

End WithCanvas.

End Sections.

(** ** Shapes of texts and rows that the properties below speak of *)

Module Shapes.
Import PyStr PyFloat Py Money Rows Check Products Usage Canvas.

(** One step of reading a decimal number, digit by digit. *)
Definition digit_step (acc d : N) : N := (acc * 10 + d)%N.

(** Where a run of digits ends: at the end of the text, or before a
    character that is neither a digit nor an underscore. *)
Definition digits_stop (r : str) : Prop :=
  match r with
  | [] => True
  | c :: _ => is_digit c = false /\ char_eqb c 95%N = false
  end.

Definition digit_or_comma (c : char) : Prop :=
  is_digit c = true \/ c = 44%N.

Definition money_char (c : char) : Prop :=
  is_digit c = true \/ c = 44%N \/ c = 45%N \/ c = 46%N.

(** The text [",.2f"] prints for [c] cents. *)
Definition cents_text (c : N) : str :=
  let frac := (c mod 100)%N in
  group3 (N_chars (c / 100)) ++ py "."
    ++ [digit_char (frac / 10); digit_char (frac mod 10)].

(** A row as [normalize_service_rows] returns it. *)
Definition normalized (r : row) : Prop :=
  exists p s v un fee,
    r = mkrow p s (format_usage_commitment_value v) un fee.

(** One step of [dict.fromkeys]. *)
Definition add_key (keys : list str) (x : str) : list str :=
  if mem x keys then keys else keys ++ [x].

(** The entries of a row as [validate_services_rows] reads them. *)
Definition usage_text (r : row) : str :=
  strip (py_str (get r "annual_usage_commitment" (VStr []))).

Definition fee_text (r : row) : str :=
  strip (py_str (get r "annual_service_fee" (VStr []))).

(** [float] reads a number in the cleaned text. *)
Definition reads_number (text : str) : bool :=
  match float_of_str (cleaned_amount (VStr text)) with
  | Some _ => true
  | None => false
  end.

(** The services whose row [compute_excess_usage_rate] prices. *)
Definition priced_services : list str :=
  [py "Experimentation"; py "Experimentation: Analysis Only";
   py "Experimentation: Analysis + Assignment"; py "Warehouse Native"].

(** Whether the font and the fill colour are still to be set after the
    calls [ops], as [breaks_reset_state] keeps track of them. *)
Fixpoint flags_after (font fill : bool) (ops : list op) : bool * bool :=
  match ops with
  | [] => (font, fill)
  | o :: rest =>
      match o with
      | ShowPage => flags_after true true rest
      | SetFont _ _ => flags_after false fill rest
      | SetFillColor _ => flags_after font false rest
      | _ => flags_after font fill rest
      end
  end.

(** The calls [ops] draw no text before the font and the colour are set,
    and leave both set. *)
Definition tidy (font fill : bool) (ops : list op) : Prop :=
  breaks_reset_state font fill ops = true
  /\ flags_after font fill ops = (false, false).

(** A text line drawn above the bottom margin of 40 points. *)
Definition above_margin (o : op) : Prop :=
  match o with
  | DrawString _ y _ => fle y (of_Z 40) = false
  | _ => True
  end.

End Shapes.

(** * Properties *)

(** ** Facts about the string methods *)

Module PyStrFacts.
Import PyStr.

Lemma isspace_space : isspace space = true.
Proof. reflexivity. Qed.

Lemma lstrip_nil_iff (s : str) :
  lstrip s = [] <-> Forall (fun c => isspace c = true) s.
Proof.
  induction s as [|c s IH]; simpl.
  - split; [constructor | reflexivity].
  - destruct (isspace c) eqn:Hc.
    + rewrite IH. split.
      * intros H. by constructor.
      * by inversion 1.
    + split; [discriminate|]. inversion 1; congruence.
Qed.

Lemma split_nil_iff (s : str) :
  split s = [] <-> Forall (fun c => isspace c = true) s.
Proof.
  induction s as [|c s IH]; simpl.
  - split; [constructor | reflexivity].
  - destruct (isspace c) eqn:Hc.
    + rewrite IH. split.
      * intros H. by constructor.
      * by inversion 1.
    + split.
      * destruct s as [|c' s']; [discriminate|].
        destruct (isspace c'); [discriminate|].
        destruct (split (c' :: s')); discriminate.
      * inversion 1; congruence.
Qed.

Lemma split_lstrip (s : str) : split (lstrip s) = split s.
Proof.
  induction s as [|c s IH]; [reflexivity|].
  simpl. destruct (isspace c) eqn:Hc; [exact IH|].
  simpl. by rewrite Hc.
Qed.

Lemma rstrip_head (s : str) (x : char) (r : str) :
  rstrip s = x :: r -> exists t, s = x :: t.
Proof.
  destruct s as [|c s]; [discriminate|]. simpl.
  destruct (rstrip s).
  - destruct (isspace c); [discriminate|]. intros [= <- <-]. eauto.
  - intros [= <- <-]. eauto.
Qed.

Lemma split_rstrip (s : str) : split (rstrip s) = split s.
Proof.
  induction s as [|c s IH]; [reflexivity|].
  simpl. destruct (rstrip s) as [|x r] eqn:Hr.
  - simpl in IH. symmetry in IH.
    destruct (isspace c) eqn:Hc.
    + by rewrite IH.
    + simpl. rewrite Hc.
      destruct s as [|c' s']; [reflexivity|].
      rewrite IH. by destruct (isspace c').
  - destruct (rstrip_head _ _ _ Hr) as [t ->].
    change (split (c :: x :: r) = split (c :: x :: t)).
    cbn [split]. cbn [split] in IH. rewrite IH. reflexivity.
Qed.

Lemma split_strip (s : str) : split (strip s) = split s.
Proof. unfold strip. by rewrite split_rstrip, split_lstrip. Qed.

(** A stripped text that is not empty has a word, so [words[0]] exists. *)
Lemma split_strip_nil (s : str) : split (strip s) = [] -> strip s = [].
Proof.
  rewrite split_strip. intros H%split_nil_iff.
  unfold strip. apply lstrip_nil_iff in H. by rewrite H.
Qed.

Lemma strip_nil_split (s : str) : strip s = [] -> split s = [].
Proof. intros H. by rewrite <- split_strip, H. Qed.

Lemma split_words (s : str) : Forall is_word (split s).
Proof.
  induction s as [|c s IH]; [constructor|].
  simpl. destruct (isspace c) eqn:Hc; [exact IH|].
  destruct s as [|c' s'].
  - repeat constructor; [done|exact Hc].
  - destruct (isspace c') eqn:Hc'.
    + constructor; [|exact IH]. split; [done|]. by repeat constructor.
    + destruct (split (c' :: s')) as [|w ws].
      * repeat constructor; [done|exact Hc].
      * inversion IH as [|? ? [Hw1 Hw2] Hws]; subst.
        constructor; [|exact Hws]. split; [done|]. by constructor.
Qed.

Lemma split_cons2 (c c' : char) (s : str) :
  split (c :: c' :: s) =
    if isspace c then split (c' :: s)
    else if isspace c' then [c] :: split (c' :: s)
    else match split (c' :: s) with
         | w :: ws => (c :: w) :: ws
         | [] => [[c]]
         end.
Proof. reflexivity. Qed.

Lemma split_nonspace_app (w rest : str) (c : char) :
  isspace c = false ->
  Forall (fun c => isspace c = false) w ->
  (rest = [] \/ exists t, rest = space :: t) ->
  split (c :: w ++ rest) = (c :: w) :: split rest.
Proof.
  intros Hc Hw Hrest. revert c Hc.
  induction Hw as [|c2 w Hc2 Hw IH]; intros c Hc.
  - destruct Hrest as [-> | [t ->]].
    + simpl. by rewrite Hc.
    + rewrite app_nil_l, split_cons2, Hc, isspace_space. reflexivity.
  - change (c :: (c2 :: w) ++ rest) with (c :: c2 :: (w ++ rest)).
    rewrite split_cons2, Hc, Hc2, (IH c2 Hc2). reflexivity.
Qed.

(** Splitting a word followed by nothing or by whitespace. *)
Lemma split_word_app (w rest : str) :
  is_word w ->
  (rest = [] \/ exists t, rest = space :: t) ->
  split (w ++ rest) = w :: split rest.
Proof.
  intros [Hne Hw] Hrest.
  destruct w as [|c w]; [done|].
  inversion Hw; subst. by apply split_nonspace_app.
Qed.

Lemma join_cons (sep p : str) (rest : list str) :
  rest <> [] -> join sep (p :: rest) = p ++ sep ++ join sep rest.
Proof. by destruct rest. Qed.

Lemma join_snoc (sep : str) (ps : list str) (p : str) :
  ps <> [] -> join sep (ps ++ [p]) = join sep ps ++ sep ++ p.
Proof.
  induction ps as [|q ps IH]; [done|]. intros _.
  destruct ps as [|q' ps'].
  - reflexivity.
  - change ((q :: q' :: ps') ++ [p]) with (q :: ((q' :: ps') ++ [p])).
    rewrite join_cons by (by destruct ps').
    rewrite IH by done.
    rewrite (join_cons sep q (q' :: ps')) by done.
    by rewrite <- !app_assoc.
Qed.

(** [" ".join(words).split()] gives the words back. *)
Lemma split_join (ws : list str) :
  Forall is_word ws -> split (join [space] ws) = ws.
Proof.
  induction 1 as [|w ws Hw Hws IH]; [reflexivity|].
  destruct ws as [|w' ws'].
  - simpl. rewrite <- (app_nil_r w) at 1.
    rewrite split_word_app; auto.
  - rewrite join_cons by done.
    rewrite split_word_app; [|done|right; eauto].
    change (split ([space] ++ join [space] (w' :: ws'))) with
      (split (space :: join [space] (w' :: ws'))).
    cbn [split]. rewrite isspace_space. by rewrite IH.
Qed.

End PyStrFacts.

(** ** Text wrapping *)

Module WrapFacts.
Import PyStr PyFloat Wrap PyStrFacts.

Section WithMetrics.
Variable stringWidth : str -> str -> Z -> float.
Variable max_width : float.
Variable font_name : str.
Variable font_size : Z.

Local Abbreviation fits := (fits stringWidth max_width font_name font_size).
Local Abbreviation wrap_loop :=
  (wrap_loop stringWidth max_width font_name font_size).
Local Abbreviation wrap :=
  (wrap_text_to_width stringWidth max_width font_name font_size).
Local Abbreviation greedy := (greedy stringWidth max_width font_name font_size).
Local Abbreviation line_ok := (line_ok stringWidth max_width font_name font_size).
Local Abbreviation stable_line :=
  (stable_line stringWidth max_width font_name font_size).

Lemma wrap_loop_nil (cur : str) (lines : list str) :
  wrap_loop [] cur lines = lines ++ [cur].
Proof. reflexivity. Qed.

Lemma wrap_loop_cons (w : str) (ws : list str) (cur : str) (lines : list str) :
  wrap_loop (w :: ws) cur lines =
    if fits (cur ++ [space] ++ w) then wrap_loop ws (cur ++ [space] ++ w) lines
    else wrap_loop ws w (lines ++ [cur]).
Proof. reflexivity. Qed.

Lemma wrap_loop_lines (ws : list str) (cur : str) (lines : list str) :
  wrap_loop ws cur lines = lines ++ wrap_loop ws cur [].
Proof.
  revert cur lines. induction ws as [|w ws IH]; intros cur lines.
  - reflexivity.
  - rewrite !wrap_loop_cons. destruct (fits _).
    + apply IH.
    + rewrite (IH w (lines ++ [cur])), (IH w ([] ++ [cur])).
      by rewrite <- app_assoc.
Qed.

Lemma wrap_loop_not_nil (ws : list str) (cur : str) :
  wrap_loop ws cur [] <> [].
Proof.
  revert cur. induction ws as [|w ws IH]; intros cur; [done|].
  rewrite wrap_loop_cons. destruct (fits _); [apply IH|].
  rewrite wrap_loop_lines. done.
Qed.

(** The function in terms of the words of the text. *)
Lemma wrap_words (text : str) :
  wrap text =
    match split text with
    | [] => [[]]
    | first :: rest => wrap_loop rest first []
    end.
Proof.
  unfold wrap_text_to_width.
  destruct (strip text) as [|c content] eqn:Hs.
  - by rewrite (strip_nil_split _ Hs).
  - rewrite <- Hs, split_strip.
    destruct (split text) eqn:Hsp; [|reflexivity].
    rewrite <- split_strip in Hsp. apply split_strip_nil in Hsp. congruence.
Qed.

Lemma wrap_loop_fit (words ws : list str) (cur : str) :
  line_ok words cur ->
  Forall (fun w => w ∈ words) ws ->
  Forall (line_ok words) (wrap_loop ws cur []).
Proof.
  intros Hcur Hws. revert cur Hcur.
  induction Hws as [|w ws Hw Hws IH]; intros cur Hcur.
  - by constructor.
  - rewrite wrap_loop_cons.
    destruct (fits (cur ++ [space] ++ w)) eqn:Hfit.
    + apply IH. by left.
    + rewrite wrap_loop_lines. constructor; [exact Hcur|].
      apply IH. destruct (fits w) eqn:Hfw; [by left | by right].
Qed.

Lemma wrap_loop_join (ws : list str) (cur : str) :
  join [space] (wrap_loop ws cur []) = join [space] (cur :: ws).
Proof.
  revert cur. induction ws as [|w ws IH]; intros cur.
  - reflexivity.
  - rewrite wrap_loop_cons. destruct (fits _).
    + rewrite IH. rewrite (join_cons _ cur (w :: ws)) by done.
      destruct ws as [|w' ws'].
      * reflexivity.
      * rewrite (join_cons _ _ (w' :: ws')) by done.
        rewrite (join_cons _ w (w' :: ws')) by done.
        by rewrite <- !app_assoc.
    + rewrite wrap_loop_lines.
      change (([] ++ [cur]) ++ wrap_loop ws w [])
        with (cur :: wrap_loop ws w []).
      rewrite join_cons by apply wrap_loop_not_nil.
      rewrite IH. by rewrite (join_cons _ cur (w :: ws)).
Qed.

Lemma wrap_loop_app (r1 r2 : list str) (c c' : str) (lines : list str) :
  wrap_loop r1 c [] = [c'] ->
  wrap_loop (r1 ++ r2) c lines = wrap_loop r2 c' lines.
Proof.
  revert c. induction r1 as [|w r1 IH]; intros c.
  - by intros [= ->].
  - change ((w :: r1) ++ r2) with (w :: (r1 ++ r2)).
    rewrite !wrap_loop_cons.
    destruct (fits _); [apply IH|].
    rewrite wrap_loop_lines. intros [= _ Hnil].
    by apply wrap_loop_not_nil in Hnil.
Qed.

Lemma stable_line_extend (cur w : str) :
  stable_line cur -> is_word w -> fits (cur ++ [space] ++ w) = true ->
  stable_line (cur ++ [space] ++ w).
Proof.
  intros (lws & Hne & Hws & -> & Hg) Hw Hfit.
  exists (lws ++ [w]). split_and!.
  - by destruct lws.
  - apply Forall_app. by split; [|constructor].
  - by rewrite join_snoc.
  - destruct lws as [|h t]; [done|].
    change (wrap_loop (t ++ [w]) h [] = [join [space] (h :: t) ++ [space] ++ w]).
    change (wrap_loop t h [] = [join [space] (h :: t)]) in Hg.
    rewrite (wrap_loop_app _ _ _ _ _ Hg), wrap_loop_cons, Hfit.
    reflexivity.
Qed.

Lemma stable_line_word (w : str) : is_word w -> stable_line w.
Proof. intros Hw. exists [w]. split_and!; try done. by constructor. Qed.

Lemma wrap_loop_stable (ws : list str) (cur : str) :
  stable_line cur -> Forall is_word ws ->
  Forall stable_line (wrap_loop ws cur []).
Proof.
  intros Hcur Hws. revert cur Hcur.
  induction Hws as [|w ws Hw Hws IH]; intros cur Hcur.
  - by constructor.
  - rewrite wrap_loop_cons.
    destruct (fits (cur ++ [space] ++ w)) eqn:Hfit.
    + apply IH. by apply stable_line_extend.
    + rewrite wrap_loop_lines. constructor; [exact Hcur|].
      apply IH. by apply stable_line_word.
Qed.

Lemma wrap_stable_line (line : str) : stable_line line -> wrap line = [line].
Proof.
  intros (lws & Hne & Hws & -> & Hg).
  rewrite wrap_words, split_join by done.
  destruct lws; [done | exact Hg].
Qed.

(** The words of the lines, line after line, are the words given. *)
Lemma wrap_loop_split (ws lws : list str) (cur : str) :
  lws <> [] -> Forall is_word lws -> cur = join [space] lws ->
  Forall is_word ws ->
  mjoin (split <$> wrap_loop ws cur []) = lws ++ ws.
Proof.
  intros Hne Hlws Hcur Hws. revert cur lws Hne Hlws Hcur.
  induction Hws as [|w ws Hw Hws IH]; intros cur lws Hne Hlws ->.
  - rewrite wrap_loop_nil. simpl. by rewrite split_join, !app_nil_r.
  - rewrite wrap_loop_cons. destruct (fits _).
    + rewrite (IH _ (lws ++ [w])).
      * by rewrite <- app_assoc.
      * by destruct lws.
      * apply Forall_app. by split; [|constructor].
      * by rewrite join_snoc.
    + rewrite wrap_loop_lines.
      change (([] ++ [join [space] lws]) ++ wrap_loop ws w [])
        with (join [space] lws :: wrap_loop ws w []).
      rewrite fmap_cons. simpl mjoin.
      rewrite split_join by done.
      rewrite (IH w [w]); try done. by constructor.
Qed.

(** C5.  Every line that [wrap_text_to_width] returns is at most
    [max_width] wide, except a line that is a single word of the text
    which alone is wider: that word is a line of its own, unsplit.  The
    empty text gives one empty line, which is taken to fit (the width of
    the empty string is 0 and widths are not negative). *)
Theorem wrap_lines_fit (text : str) :
  fits [] = true ->
  Forall (fun line =>
            fits line = true
            \/ (line ∈ split text /\ is_word line /\ fits line = false))
         (wrap text).
Proof.
  intros Hempty. rewrite wrap_words.
  pose proof (split_words text) as Hwords.
  destruct (split text) as [|first rest] eqn:Hsp.
  - constructor; [by left | constructor].
  - assert (Hin : Forall (fun w => w ∈ first :: rest) (first :: rest)).
    { apply Forall_forall. auto. }
    inversion Hin as [|? ? Hf Hr]; subst.
    assert (Hok : line_ok (first :: rest) first).
    { destruct (fits first) eqn:E; [by left | by right]. }
    pose proof (wrap_loop_fit _ _ _ Hok Hr) as H.
    eapply Forall_impl; [exact H|].
    intros line [Hl | [Hl1 Hl2]]; [by left | right].
    split_and!; try done.
    rewrite Forall_forall in Hwords. by apply Hwords.
Qed.

(** C6.  Wrapping again, at the same width, any line that
    [wrap_text_to_width] returned gives back that line alone; so wrapping
    the lines of a wrapped text one by one reproduces them. *)
Theorem wrap_idempotent (text : str) :
  Forall (fun line => wrap line = [line]) (wrap text)
  /\ mjoin (wrap <$> wrap text) = wrap text.
Proof.
  assert (H : Forall (fun line => wrap line = [line]) (wrap text)).
  { rewrite wrap_words.
    pose proof (split_words text) as Hwords.
    destruct (split text) as [|first rest].
    - constructor; [reflexivity | constructor].
    - inversion Hwords as [|? ? Hf Hr]; subst.
      eapply Forall_impl.
      + apply wrap_loop_stable; [by apply stable_line_word | exact Hr].
      + intros line. apply wrap_stable_line. }
  split; [exact H|].
  induction H as [|line lines Hl _ IH]; [reflexivity|].
  rewrite fmap_cons. simpl mjoin. by rewrite Hl, IH.
Qed.

(** C10.  The lines of [wrap_text_to_width], joined with single spaces,
    are the text with its whitespace normalized ([" ".join(text.split())]),
    and the words of the lines, line after line, are the words of the
    text: none is dropped, repeated, moved or cut. *)
Theorem wrap_preserves_words (text : str) :
  join [space] (wrap text) = join [space] (split text)
  /\ mjoin (split <$> wrap text) = split text.
Proof.
  rewrite wrap_words.
  pose proof (split_words text) as Hwords.
  destruct (split text) as [|first rest]; [done|].
  inversion Hwords as [|? ? Hf Hr]; subst.
  split.
  - apply wrap_loop_join.
  - by rewrite (wrap_loop_split rest [first] first); try done; constructor.
Qed.

End WithMetrics.

Example wrap_example :
  wrap_text_to_width (fixed_pitch 6) (of_Z 60) [] 10
    (py "  the quick  brown fox jumps over antidisestablishment x ")
  = [py "the quick"; py "brown fox"; py "jumps over";
     py "antidisestablishment"; py "x"].
Proof. vm_compute. reflexivity. Qed.

(** Witness of C5: a width of 60 points, characters 6 points wide. *)
Lemma wrap_lines_fit_witness :
  Forall (fun line =>
            fits (fixed_pitch 6) (of_Z 60) [] 10 line = true
            \/ (line ∈ split (py "the quick antidisestablishment x")
                /\ is_word line
                /\ fits (fixed_pitch 6) (of_Z 60) [] 10 line = false))
         (wrap_text_to_width (fixed_pitch 6) (of_Z 60) [] 10
            (py "the quick antidisestablishment x")).
Proof.
  apply (wrap_lines_fit (fixed_pitch 6) (of_Z 60) [] 10
           (py "the quick antidisestablishment x")).
  reflexivity.
Defined.

End WrapFacts.

(** ** Whole numbers as floats

    The cursor positions and heights of the layout are whole numbers of
    points.  On whole numbers below 2^52 the float subtraction and comparison
    are the ones of the integers. *)

Module FloatIntFacts.
Import PyStr PyFloat.

Lemma digits2_size (p : positive) : digits2_pos p = Pos.size p.
Proof. induction p; simpl; congruence. Qed.

Lemma iter_pos_nat {A} (f : A -> A) (n : positive) (x : A) :
  SpecFloat.iter_pos f n x = Nat.iter (Pos.to_nat n) f x.
Proof.
  revert x. induction n as [n IH|n IH|]; intros x; cbn [SpecFloat.iter_pos].
  - rewrite !IH, Pos2Nat.inj_xI.
    replace (S (2 * Pos.to_nat n)) with (Pos.to_nat n + (Pos.to_nat n + 1))%nat
      by lia.
    rewrite !Nat.iter_add. reflexivity.
  - rewrite !IH, Pos2Nat.inj_xO.
    replace (2 * Pos.to_nat n)%nat with (Pos.to_nat n + Pos.to_nat n)%nat by lia.
    by rewrite Nat.iter_add.
  - reflexivity.
Qed.

Lemma pos_iter_nat {A} (f : A -> A) (n : positive) (x : A) :
  Pos.iter f x n = Nat.iter (Pos.to_nat n) f x.
Proof. apply Pos2Nat.inj_iter. Qed.

Lemma shiftl_nat_Z (p : positive) (n : nat) :
  Zpos (Pos.shiftl_nat p n) = Zpos p * 2 ^ Z.of_nat n.
Proof.
  induction n as [|n IH]; [simpl; lia|].
  change (Pos.shiftl_nat p (S n)) with (xO (Pos.shiftl_nat p n)).
  rewrite Pos2Z.inj_xO, IH, Nat2Z.inj_succ, Z.pow_succ_r by lia. ring.
Qed.

Lemma shiftl_nat_size (p : positive) (n : nat) :
  Zpos (Pos.size (Pos.shiftl_nat p n)) = Zpos (Pos.size p) + Z.of_nat n.
Proof.
  induction n as [|n IH]; [simpl; lia|].
  change (Pos.shiftl_nat p (S n)) with (xO (Pos.shiftl_nat p n)).
  simpl Pos.size. rewrite Pos2Z.inj_succ, IH. lia.
Qed.

Lemma shiftl_nat_add (p : positive) (n m : nat) :
  Pos.shiftl_nat (Pos.shiftl_nat p n) m = Pos.shiftl_nat p (n + m).
Proof.
  induction m as [|m IH]; [by rewrite Nat.add_0_r|].
  rewrite Nat.add_succ_r.
  change (xO (Pos.shiftl_nat (Pos.shiftl_nat p n) m) = xO (Pos.shiftl_nat p (n + m))).
  by rewrite IH.
Qed.

Lemma shr_exact (p : positive) (n j : nat) :
  Nat.iter n shr_1 (Build_shr_record (Zpos (Pos.shiftl_nat p (j + n))) false false)
  = Build_shr_record (Zpos (Pos.shiftl_nat p j)) false false.
Proof.
  revert j. induction n as [|n IH]; intros j.
  - by rewrite Nat.add_0_r.
  - rewrite Nat.iter_succ_r.
    replace (j + S n)%nat with (S (j + n)) by lia.
    change (Pos.shiftl_nat p (S (j + n))) with (xO (Pos.shiftl_nat p (j + n))).
    simpl shr_1. apply IH.
Qed.

Lemma pos_iter_shiftl (p q : positive) :
  Pos.iter xO p q = Pos.shiftl_nat p (Pos.to_nat q).
Proof. by rewrite Pos2Nat.inj_iter. Qed.

Lemma size_bound (c : positive) : Zpos c < 2 ^ 53 -> Zpos (Pos.size c) <= 53.
Proof.
  intros Hc. pose proof (Pos.size_le c) as H.
  apply Pos2Z.pos_le_pos in H. rewrite Pos2Z.inj_pow in H.
  change (Z.pos c~0) with (2 * Z.pos c) in H.
  destruct (Z_le_gt_dec (Zpos (Pos.size c)) 53) as [|Hgt]; [done|].
  assert (H54 : 2 ^ 54 <= 2 ^ Zpos (Pos.size c))
    by (apply Z.pow_le_mono_r; lia).
  replace (2 ^ 54) with (2 * 2 ^ 53) in H54 by reflexivity. lia.
Qed.

Lemma size_lower (c : positive) : 2 ^ (Zpos (Pos.size c) - 1) <= Zpos c.
Proof.
  pose proof (Pos.size_le c) as H.
  apply Pos2Z.pos_le_pos in H. rewrite Pos2Z.inj_pow in H.
  change (Z.pos c~0) with (2 * Z.pos c) in H.
  replace (Zpos (Pos.size c)) with (Z.succ (Zpos (Pos.size c) - 1)) in H by lia.
  rewrite Z.pow_succ_r in H by lia. lia.
Qed.

Lemma size_upper (c : positive) : Zpos c < 2 ^ Zpos (Pos.size c).
Proof.
  pose proof (Pos.size_gt c) as H.
  apply Pos2Z.pos_lt_pos in H. by rewrite Pos2Z.inj_pow in H.
Qed.

Lemma shr_fexp_id (m : positive) (e : Z) :
  Zpos (Pos.size m) = 53 -> -1074 <= e ->
  shr_fexp prec emax (Zpos m) e loc_Exact
  = (Build_shr_record (Zpos m) false false, e).
Proof.
  intros Hd He. unfold shr_fexp, fexp, emin, Zdigits2, prec, emax.
  rewrite digits2_size, Hd.
  replace (Z.max (53 + e - 53) (3 - 1024 - 53) - e) with 0 by lia.
  reflexivity.
Qed.

Lemma binary_round_aux_exact (s : bool) (m : positive) (e : Z) :
  Zpos (Pos.size m) = 53 -> -1074 <= e <= 971 ->
  binary_round_aux prec emax s (Zpos m) e loc_Exact = S754_finite s m e.
Proof.
  intros Hd He. unfold binary_round_aux.
  rewrite shr_fexp_id by lia. cbn [shr_m loc_of_shr_record round_nearest_even].
  rewrite shr_fexp_id by lia. cbn [shr_m].
  unfold prec, emax. replace (e <=? 1024 - 53) with true; [done|].
  symmetry. apply Z.leb_le. lia.
Qed.

Lemma canon_size (c : positive) :
  Zpos (Pos.size c) <= 53 ->
  Zpos (Pos.size (Pos.shiftl_nat c (Z.to_nat (53 - Zpos (Pos.size c))))) = 53.
Proof. intros H. rewrite shiftl_nat_size. lia. Qed.

Lemma shr_fexp_shift (c : positive) (k : nat) :
  Zpos (Pos.size c) <= 53 -> 53 <= Zpos (Pos.size c) + Z.of_nat k ->
  shr_fexp prec emax (Zpos (Pos.shiftl_nat c k)) (- Z.of_nat k) loc_Exact
  = (Build_shr_record
       (Zpos (Pos.shiftl_nat c (Z.to_nat (53 - Zpos (Pos.size c))))) false false,
     Zpos (Pos.size c) - 53).
Proof.
  intros Hd Hk. unfold shr_fexp, fexp, emin, Zdigits2, prec, emax.
  rewrite digits2_size, shiftl_nat_size.
  set (d := Zpos (Pos.size c)) in *.
  replace (Z.max (d + Z.of_nat k + - Z.of_nat k - 53) (3 - 1024 - 53)
           - - Z.of_nat k) with (d - 53 + Z.of_nat k) by lia.
  unfold shr. cbn [shr_record_of_loc].
  destruct (d - 53 + Z.of_nat k) as [|q|q] eqn:Hn; [| |lia].
  - f_equal; [|lia]. do 3 f_equal. lia.
  - rewrite iter_pos_nat.
    replace k with (Z.to_nat (53 - d) + Pos.to_nat q)%nat at 1 by lia.
    rewrite shr_exact. f_equal. lia.
Qed.

Lemma binary_round_shift (s : bool) (c : positive) (k : nat) :
  Zpos (Pos.size c) <= 53 ->
  binary_round prec emax s (Pos.shiftl_nat c k) (- Z.of_nat k) = canon s c.
Proof.
  intros Hd. unfold binary_round, canon.
  rewrite digits2_size.
  assert (Hsz : Zpos (Pos.size (Pos.shiftl_nat c k)) + - Z.of_nat k
                = Zpos (Pos.size c)) by (rewrite shiftl_nat_size; lia).
  rewrite Hsz.
  pose proof (Pos2Z.is_pos (Pos.size c)) as Hpos.
  set (d := Zpos (Pos.size c)) in *.
  assert (Hf : fexp prec emax d = d - 53).
  { unfold fexp, emin, prec, emax. lia. }
  rewrite Hf. unfold shl_align.
  destruct (d - 53 - - Z.of_nat k) as [|q|q] eqn:Hn.
  - unfold binary_round_aux.
    rewrite shr_fexp_shift by (fold d; lia). fold d.
    cbn [shr_m loc_of_shr_record round_nearest_even].
    rewrite shr_fexp_id by (rewrite ?canon_size; fold d; lia).
    cbn [shr_m]. unfold prec, emax.
    replace (d - 53 <=? 1024 - 53) with true; [done|].
    symmetry. apply Z.leb_le. lia.
  - unfold binary_round_aux.
    rewrite shr_fexp_shift by (fold d; lia). fold d.
    cbn [shr_m loc_of_shr_record round_nearest_even].
    rewrite shr_fexp_id by (rewrite ?canon_size; fold d; lia).
    cbn [shr_m]. unfold prec, emax.
    replace (d - 53 <=? 1024 - 53) with true; [done|].
    symmetry. apply Z.leb_le. lia.
  - rewrite pos_iter_shiftl, shiftl_nat_add.
    replace (k + Pos.to_nat q)%nat with (Z.to_nat (53 - d)) by lia.
    apply binary_round_aux_exact; [apply canon_size; fold d; lia | lia].
Qed.

Lemma of_Z_pos (c : positive) :
  Zpos c < 2 ^ 53 -> of_Z (Zpos c) = canon false c /\ of_Z (Zneg c) = canon true c.
Proof.
  intros Hc%size_bound. unfold of_Z, binary_normalize.
  split; apply (binary_round_shift _ c 0 Hc).
Qed.

Lemma canon_exponent (c : positive) :
  Zpos (Pos.size c) <= 53 ->
  Zpos (Pos.size c) - 53 = - Z.of_nat (Z.to_nat (53 - Zpos (Pos.size c))).
Proof. lia. Qed.

Lemma shl_align_shift (c : positive) (j K : nat) :
  (j <= K)%nat ->
  fst (shl_align (Pos.shiftl_nat c j) (- Z.of_nat j) (- Z.of_nat K))
  = Pos.shiftl_nat c K.
Proof.
  intros Hj. unfold shl_align.
  destruct (- Z.of_nat K - - Z.of_nat j) as [|q|q] eqn:Hn; cbn [fst].
  - f_equal. lia.
  - lia.
  - rewrite pos_iter_shiftl, shiftl_nat_add. f_equal. lia.
Qed.

Lemma binary_normalize_shift (z : Z) (K : nat) :
  - 2 ^ 53 < z < 2 ^ 53 ->
  binary_normalize prec emax (z * 2 ^ Z.of_nat K) (- Z.of_nat K) false = of_Z z.
Proof.
  intros Hz. destruct z as [|c|c].
  - reflexivity.
  - rewrite <- shiftl_nat_Z. cbn [binary_normalize].
    rewrite (binary_round_shift false c K) by (apply size_bound; lia).
    symmetry. apply of_Z_pos. lia.
  - replace (Z.neg c * 2 ^ Z.of_nat K) with (- (Zpos c * 2 ^ Z.of_nat K))
      by (rewrite <- Z.mul_opp_l; reflexivity).
    rewrite <- shiftl_nat_Z.
    change (- Zpos (Pos.shiftl_nat c K)) with (Zneg (Pos.shiftl_nat c K)).
    cbn [binary_normalize].
    rewrite (binary_round_shift true c K) by (apply size_bound; lia).
    symmetry. apply of_Z_pos. lia.
Qed.

Lemma of_Z_nonzero (z : Z) :
  z <> 0 -> - 2 ^ 53 < z < 2 ^ 53 ->
  exists c, Zpos c = Z.abs z /\ of_Z z = canon (z <? 0) c.
Proof.
  intros Hz Hb. destruct z as [|c|c]; [done| |]; exists c.
  - split; [done|]. apply of_Z_pos. lia.
  - split; [done|]. apply of_Z_pos. lia.
Qed.

Lemma fsub_canon (sa sb : bool) (ca cb : positive) :
  Zpos ca < 2 ^ 52 -> Zpos cb < 2 ^ 52 ->
  fsub (canon sa ca) (canon sb cb)
  = of_Z (cond_Zopp sa (Zpos ca) - cond_Zopp sb (Zpos cb)).
Proof.
  intros Ha Hb.
  assert (Hda : Zpos (Pos.size ca) <= 53) by (apply size_bound; lia).
  assert (Hdb : Zpos (Pos.size cb) <= 53) by (apply size_bound; lia).
  unfold fsub, canon, SFsub.
  rewrite (canon_exponent ca Hda), (canon_exponent cb Hdb).
  set (ja := Z.to_nat (53 - Zpos (Pos.size ca))).
  set (jb := Z.to_nat (53 - Zpos (Pos.size cb))).
  replace (Z.min (- Z.of_nat ja) (- Z.of_nat jb))
    with (- Z.of_nat (Nat.max ja jb)) by lia.
  rewrite !shl_align_shift by lia.
  rewrite !shiftl_nat_Z.
  replace (cond_Zopp sa (Zpos ca * 2 ^ Z.of_nat (ja `max` jb))
           - cond_Zopp sb (Zpos cb * 2 ^ Z.of_nat (ja `max` jb)))
    with ((cond_Zopp sa (Zpos ca) - cond_Zopp sb (Zpos cb))
          * 2 ^ Z.of_nat (ja `max` jb)).
  2:{ destruct sa, sb; cbn [cond_Zopp]; ring. }
  apply binary_normalize_shift.
  replace (2 ^ 53) with (2 * 2 ^ 52) by reflexivity.
  destruct sa, sb; cbn [cond_Zopp]; lia.
Qed.

Lemma fsub_of_Z (a b : Z) :
  - 2 ^ 52 < a < 2 ^ 52 -> - 2 ^ 52 < b < 2 ^ 52 ->
  fsub (of_Z a) (of_Z b) = of_Z (a - b).
Proof.
  intros Ha Hb.
  assert (H53 : 2 ^ 53 = 2 * 2 ^ 52) by reflexivity.
  destruct (Z.eq_dec a 0) as [->|Hna], (Z.eq_dec b 0) as [->|Hnb].
  - reflexivity.
  - destruct (of_Z_nonzero b Hnb) as (c & Hc & Hof); [lia|].
    rewrite Hof. change (of_Z 0) with (S754_zero false).
    unfold fsub, canon, SFsub.
    destruct (of_Z_nonzero (0 - b)) as (c' & Hc' & Hof'); [lia..|].
    rewrite Hof'. unfold canon.
    assert (c' = c) as -> by lia.
    f_equal. destruct b; try done; reflexivity.
  - rewrite Z.sub_0_r.
    destruct (of_Z_nonzero a Hna) as (c & Hc & Hof); [lia|].
    rewrite Hof. reflexivity.
  - destruct (of_Z_nonzero a Hna) as (ca & Hca & Hofa); [lia|].
    destruct (of_Z_nonzero b Hnb) as (cb & Hcb & Hofb); [lia|].
    rewrite Hofa, Hofb, fsub_canon by lia.
    f_equal. destruct a, b; try done; cbn [cond_Zopp Z.ltb Z.compare]; lia.
Qed.

Lemma pos_compare_shift (c d : positive) (j : nat) :
  (Pos.shiftl_nat c j ?= Pos.shiftl_nat d j)%positive = (c ?= d)%positive.
Proof.
  induction j as [|j IH]; [reflexivity|].
  change (Pos.shiftl_nat ?p (S j)) with (xO (Pos.shiftl_nat p j)).
  exact IH.
Qed.

Lemma flt_canon (c d : positive) :
  Zpos c < 2 ^ 53 -> Zpos d < 2 ^ 53 ->
  flt (canon false c) (canon false d) = (Zpos c <? Zpos d).
Proof.
  intros Hc Hd. unfold flt, SFltb, SFcompare, canon.
  pose proof (size_lower c). pose proof (size_upper c).
  pose proof (size_lower d). pose proof (size_upper d).
  destruct (Z.compare_spec (Zpos (Pos.size c) - 53) (Zpos (Pos.size d) - 53))
    as [Heq|Hlt|Hgt].
  - assert (Hs : Pos.size c = Pos.size d) by lia. rewrite Hs.
    change (Pos.compare_cont Eq ?a ?b) with (a ?= b)%positive.
    rewrite pos_compare_shift.
    change (Zpos c <? Zpos d) with
      (match (c ?= d)%positive with Lt => true | _ => false end).
    reflexivity.
  - symmetry. apply Z.ltb_lt.
    assert (2 ^ Zpos (Pos.size c) <= 2 ^ (Zpos (Pos.size d) - 1))
      by (apply Z.pow_le_mono_r; lia).
    lia.
  - symmetry. apply Z.ltb_ge.
    assert (2 ^ Zpos (Pos.size d) <= 2 ^ (Zpos (Pos.size c) - 1))
      by (apply Z.pow_le_mono_r; lia).
    lia.
Qed.

Lemma flt_of_Z (c d : Z) :
  - 2 ^ 53 < c < 2 ^ 53 -> 0 < d < 2 ^ 53 ->
  flt (of_Z c) (of_Z d) = (c <? d).
Proof.
  intros Hc Hd.
  destruct (of_Z_nonzero d) as (cd & Hcd & Hofd); [lia..|].
  replace (d <? 0) with false in Hofd by (symmetry; apply Z.ltb_ge; lia).
  rewrite Hofd.
  destruct (Z.eq_dec c 0) as [->|Hnc].
  - change (of_Z 0) with (S754_zero false).
    symmetry. apply Z.ltb_lt. lia.
  - destruct (of_Z_nonzero c Hnc Hc) as (cc & Hcc & Hofc).
    rewrite Hofc. destruct (Z.ltb_spec c 0) as [Hneg|Hpos].
    + symmetry. apply Z.ltb_lt. lia.
    + rewrite flt_canon by lia.
      replace (Zpos cc) with c by lia. replace (Zpos cd) with d by lia.
      reflexivity.
Qed.

End FloatIntFacts.

(** ** Amounts and dates *)

Module ValueFacts.
Import PyStr PyFloat Py Money Dates.

Lemma float_of_str_empty : float_of_str [] = None.
Proof. reflexivity. Qed.

Lemma safe_money_str (s : str) : safe_money (VStr s) = Ok (parsed_or_zero s).
Proof.
  unfold safe_money, parsed_or_zero.
  destruct (cleaned_amount (VStr s)) as [|c cl] eqn:Hc.
  - reflexivity.
  - unfold float_of_text. by destruct (float_of_str (c :: cl)).
Qed.

Lemma normalize_fee_value_str (s : str) :
  normalize_fee_value (VStr s) = Ok (parsed_or_zero s).
Proof.
  unfold normalize_fee_value, parsed_or_zero.
  destruct (cleaned_amount (VStr s)) as [|c cl] eqn:Hc.
  - reflexivity.
  - unfold float_of_text. by destruct (float_of_str (c :: cl)).
Qed.

Lemma make_date_raises (y m d : Z) (e : exn) :
  make_date y m d = Raise e -> e = ValueError.
Proof. unfold make_date. destruct (_ && _); [discriminate|]. by intros [= <-]. Qed.

Lemma strptime_raises (value : str) (fmt : list directive) (e : exn) :
  strptime value fmt = Raise e -> e = ValueError.
Proof.
  unfold strptime.
  destruct (match_format _ _ _) as [[f [|c r]]|].
  - apply make_date_raises.
  - by intros [= <-].
  - by intros [= <-].
Qed.

Lemma days_in_month_pos (y m : Z) : 1 <= days_in_month y m.
Proof.
  unfold days_in_month.
  repeat match goal with |- context [if ?b then _ else _] => destruct b end;
    lia.
Qed.

Lemma first_day_is_date (today : date) :
  is_date today ->
  make_date (year today) (month today) 1
  = Ok (mkdate (year today) (month today) 1).
Proof.
  unfold is_date, make_date.
  destruct (_ && _) eqn:H; [intros _ | discriminate].
  rewrite !andb_true_iff, !Z.leb_le in H.
  pose proof (days_in_month_pos (year today) (month today)) as Hd.
  assert (Hc : (1 <=? year today) && (year today <=? 9999)
               && (1 <=? month today) && (month today <=? 12) && (1 <=? 1)
               && (1 <=? days_in_month (year today) (month today)) = true).
  { rewrite !andb_true_iff, !Z.leb_le. lia. }
  by rewrite Hc.
Qed.

Lemma try_formats_fallback (value : str) (fmts : list (list directive))
  (fallback : result date) :
  Forall (fun fmt => strptime value fmt = Raise ValueError) fmts ->
  try_formats value fmts fallback = fallback.
Proof.
  induction 1 as [|fmt fmts Hf _ IH]; [reflexivity|].
  simpl. rewrite Hf. exact IH.
Qed.

Lemma try_formats_ok (value : str) (fmts : list (list directive)) (d0 : date) :
  exists d, try_formats value fmts (Ok d0) = Ok d.
Proof.
  induction fmts as [|fmt fmts [d IH]]; [by exists d0|].
  simpl. destruct (strptime value fmt) as [d1|e] eqn:Hs.
  - by exists d1.
  - rewrite (strptime_raises _ _ _ Hs). simpl. by exists d.
Qed.



Example safe_money_reads_amount :
  safe_money (VStr (py " $1,234.50 ")) = Ok (of_decimal false 12345 (-1)).
Proof. vm_compute. reflexivity. Qed.

Example parse_date_reads_formats :
  parse_date (mkdate 2026 11 4) (py "2024-02-29") = Ok (mkdate 2024 2 29)
  /\ parse_date (mkdate 2026 11 4) (py "1/5/2024") = Ok (mkdate 2024 1 5)
  /\ parse_date (mkdate 2026 11 4) (py "2024/12/31") = Ok (mkdate 2024 12 31).
Proof. vm_compute. auto. Qed.

End ValueFacts.

(** ** Page breaks *)

Module FlowFacts.
Import PyStr PyFloat Py Wrap Canvas Canvas.Notations Flow.
Import FloatIntFacts.

Lemma page_breaks_app (a b : list op) :
  page_breaks (a ++ b) = (page_breaks a + page_breaks b)%nat.
Proof. unfold page_breaks. by rewrite List.filter_app, length_app. Qed.

(** With the test of the code: when [y - required_height] is below the
    bottom margin, one page break, and the cursor goes to the top margin. *)
Lemma ensure_space_low (height required y0 : float) (ops : list op) :
  flt (y0 - required)%F (of_Z min_bottom_margin) = true ->
  ensure_space height required (mkstate y0 ops)
  = mkstate (height - of_Z 56)%F (ops ++ [ShowPage; SetFillColor Black]).
Proof. intros Hlow. unfold ensure_space. cbn [y out]. by rewrite Hlow. Qed.

(** On whole points the test of the code is the comparison of the space
    left above the bottom margin with the required height. *)
Lemma ensure_space_test (cursor required : Z) :
  - 2 ^ 52 < cursor < 2 ^ 52 -> - 2 ^ 52 < required < 2 ^ 52 ->
  flt (of_Z cursor - of_Z required)%F (of_Z min_bottom_margin)
  = (cursor - min_bottom_margin <? required).
Proof.
  intros Hc Hr. rewrite fsub_of_Z by done.
  assert (H53 : 2 ^ 53 = 2 * 2 ^ 52) by reflexivity.
  rewrite flt_of_Z by (unfold min_bottom_margin; lia).
  unfold min_bottom_margin.
  destruct (Z.ltb_spec (cursor - required) 40),
    (Z.ltb_spec (cursor - 40) required); (done || lia).
Qed.

(** C3.  For a cursor position and a required height in whole points, when
    the space left above the bottom margin of 40 is less than the required
    height, [ensure_space] makes exactly one page transition, and the cursor
    after it is the top margin [height - 56], whatever the cursor was
    before. *)
Theorem ensure_space_breaks_once (height : float) (ops : list op)
  (cursor required : Z) :
  - 2 ^ 52 < cursor < 2 ^ 52 -> - 2 ^ 52 < required < 2 ^ 52 ->
  cursor - min_bottom_margin < required ->
  let s' := ensure_space height (of_Z required) (mkstate (of_Z cursor) ops) in
  out s' = ops ++ [ShowPage; SetFillColor Black]
  /\ page_breaks (out s') = S (page_breaks ops)
  /\ y s' = (height - of_Z 56)%F.
Proof.
  intros Hc Hr Hlow. cbv zeta.
  rewrite ensure_space_low.
  - cbn [y out]. split_and!; try reflexivity.
    rewrite page_breaks_app.
    change (page_breaks [ShowPage; SetFillColor Black]) with 1%nat. lia.
  - rewrite ensure_space_test by done. by apply Z.ltb_lt.
Qed.

(** Witness of C3: 20 points above the margin, 24 required, letter page. *)
Lemma ensure_space_breaks_once_witness :
  page_breaks (out (ensure_space (of_Z 792) (of_Z 24) (mkstate (of_Z 60) [])))
  = 1%nat
  /\ y (ensure_space (of_Z 792) (of_Z 24) (mkstate (of_Z 60) [])) = of_Z 736.
Proof.
  destruct (ensure_space_breaks_once (of_Z 792) [] 60 24) as (_ & H2 & H3).
  - split; reflexivity.
  - split; reflexivity.
  - reflexivity.
  - split; [exact H2 | exact H3].
Defined.

(** With enough space nothing happens. *)
Lemma ensure_space_enough (height required y0 : float) (ops : list op) :
  flt (y0 - required)%F (of_Z min_bottom_margin) = false ->
  ensure_space height required (mkstate y0 ops) = mkstate y0 ops.
Proof. intros H. unfold ensure_space. simpl y. by rewrite H. Qed.

End FlowFacts.

(** ** The agreement section *)

Module AgreementFacts.
Import PyStr PyFloat Py Wrap Canvas Canvas.Notations Flow FlowFacts.

Lemma breaks_reset_state_app (a b : list op) (font fill : bool) :
  breaks_reset_state font fill a = false ->
  breaks_reset_state font fill (a ++ b) = false.
Proof.
  revert font fill. induction a as [|o a IH]; intros font fill; [done|].
  destruct o; simpl; auto.
  all: rewrite !andb_false_iff; intros [[H|H]|H]; auto.
Qed.

Lemma extends_refl (s : state) : extends s s.
Proof. exists []. by rewrite app_nil_r. Qed.

Lemma extends_trans (s1 s2 s3 : state) :
  extends s1 s2 -> extends s2 s3 -> extends s1 s3.
Proof.
  intros [m1 H1] [m2 H2]. exists (m1 ++ m2).
  by rewrite H2, H1, app_assoc.
Qed.

Lemma extends_emit (ops : list op) (s : state) : extends s (emit ops s).
Proof. by exists ops. Qed.

Lemma extends_move_down (d : Z) (s : state) : extends s (move_down d s).
Proof. exists []. by rewrite app_nil_r. Qed.

Lemma extends_foldl {A} (f : state -> A -> state) (l : list A) (s : state) :
  (forall s a, extends s (f s a)) -> extends s (foldl f s l).
Proof.
  intros Hf. revert s. induction l as [|a l IH]; intros s.
  - apply extends_refl.
  - simpl. eapply extends_trans; [apply Hf | apply IH].
Qed.

Section WithCanvas.
Variable stringWidth : str -> str -> Z -> float.
Variables width height : float.
Variables font_regular font_bold : str.

Local Abbreviation ensure_space := (ensure_space height).
Local Abbreviation draw_wrapped_line := (draw_wrapped_line height).
Local Abbreviation draw_paragraph_line :=
  (draw_paragraph_line height font_regular).

Lemma extends_ensure_space (r : float) (s : state) :
  extends s (ensure_space r s).
Proof.
  unfold Flow.ensure_space. destruct (flt _ _).
  - by eexists.
  - apply extends_refl.
Qed.

Lemma extends_draw_wrapped_line (s : state) (line : str) :
  extends s (draw_wrapped_line s line).
Proof.
  unfold Flow.draw_wrapped_line.
  eapply extends_trans; [apply extends_ensure_space|].
  eapply extends_trans; [apply extends_emit | apply extends_move_down].
Qed.

Lemma extends_draw_paragraph_line (s : state) (line : str) :
  extends s (draw_paragraph_line s line).
Proof.
  unfold Flow.draw_paragraph_line. destruct line.
  - apply extends_move_down.
  - eapply extends_trans; [apply extends_ensure_space|].
    eapply extends_trans; [apply extends_emit | apply extends_move_down].
Qed.

Lemma extends_draw_signature_block (s : state) :
  extends s (draw_signature_block width font_regular font_bold s).
Proof.
  unfold draw_signature_block. eexists. cbn [out]. reflexivity.
Qed.

(** What follows the paragraph of the agreement only adds calls. *)
Lemma extends_after_paragraph (s : state) :
  extends s
    (draw_signature_block width font_regular font_bold
       (ensure_space (of_Z 132)
          (move_down 30
             (foldl draw_paragraph_line (emit [SetFont font_regular 10] s)
                paragraph_lines)))).
Proof.
  eapply extends_trans; [apply (extends_emit [SetFont font_regular 10])|].
  eapply extends_trans;
    [apply (extends_foldl draw_paragraph_line paragraph_lines _
              extends_draw_paragraph_line)|].
  eapply extends_trans; [apply (extends_move_down 30)|].
  eapply extends_trans; [apply extends_ensure_space|].
  apply extends_draw_signature_block.
Qed.
End WithCanvas.

(** C4 (the code departs from it).  On a letter page, an agreement text
    without the two links, wrapped to two lines or more, and a section that
    starts 80 points above the page bottom: the second line triggers the
    page break of [ensure_space], which sets the fill colour but not the
    font, and the line is drawn on the new page before any [setFont]. *)
Theorem agreement_break_keeps_font
  (stringWidth : str -> str -> Z -> float) (font_regular font_bold : str)
  (agreement_section l1 l2 : str) (rest : list str) :
  contains agreement_section (py "Enterprise Subscription Agreement")
    && contains agreement_section (py "Data Processing Addendum") = false ->
  wrap_text_to_width stringWidth (of_Z 612 - of_Z 72)%F font_regular 10
    agreement_section = l1 :: l2 :: rest ->
  breaks_reset_state false false
    (out (draw_agreement_section stringWidth (of_Z 612) (of_Z 792)
            font_regular font_bold agreement_section (of_Z 80))) = false.
Proof.
  intros Hplain Hwrap.
  unfold draw_agreement_section. rewrite Hplain.
  unfold draw_plain_paragraph. rewrite Hwrap.
  change (foldl ?f ?s (l1 :: l2 :: rest)) with (foldl f (f (f s l1) l2) rest).
  match goal with
  | |- context [foldl ?f (?f (?f ?s l1) l2) rest] =>
      set (s2 := f (f s l1) l2);
      assert (Hs2 : out s2 =
                [SetFillColor Black; SetFont font_bold 12;
                 DrawString (of_Z 36) (of_Z 80) (py "Agreement");
                 SetFont font_regular 10;
                 DrawString (of_Z 36) (of_Z 60) l1;
                 ShowPage; SetFillColor Black;
                 DrawString (of_Z 36) (of_Z 736) l2])
        by (vm_compute; reflexivity)
  end.
  match goal with
  | |- breaks_reset_state _ _ (out ?final) = false =>
      assert (Hext : extends s2 final)
  end.
  { eapply extends_trans;
      [apply (extends_foldl (draw_wrapped_line (of_Z 792)) rest _
                (extends_draw_wrapped_line (of_Z 792)))|].
    eapply extends_trans; [apply (extends_move_down 12)|].
    apply extends_after_paragraph. }
  destruct Hext as [more ->]. rewrite Hs2.
  apply breaks_reset_state_app. reflexivity.
Qed.

(** Witness of C4: the MSA text of [create_branded_pdf], measured with
    characters 5 points wide. *)
Lemma agreement_break_keeps_font_witness :
  breaks_reset_state false false
    (out (draw_agreement_section (fixed_pitch 5) (of_Z 612) (of_Z 792)
            (py "Helvetica") (py "Helvetica-Bold")
            (msa_agreement_section (py "01/02/2025")) (of_Z 80))) = false.
Proof.
  eapply (agreement_break_keeps_font (fixed_pitch 5) (py "Helvetica")
            (py "Helvetica-Bold") (msa_agreement_section (py "01/02/2025"))).
  - vm_compute. reflexivity.
  - vm_compute. reflexivity.
Defined.

(** The page breaks written in line, in the token loop and in the usage
    terms loop, do set both. *)
Lemma usage_line_break_resets (height : float) (font_regular : str)
  (y0 : float) (ops : list op) (line : str) :
  fle y0 (of_Z 40) = true ->
  out (draw_usage_line height font_regular (mkstate y0 ops) line)
  = ops ++ [ShowPage; SetFillColor Black; SetFont font_regular 10;
            DrawString (of_Z 36) (height - of_Z 56)%F line].
Proof.
  intros Hlow. unfold draw_usage_line. cbn [y out]. rewrite Hlow.
  cbn [y out emit move_down]. by rewrite <- app_assoc.
Qed.

End AgreementFacts.

(** ** The services table *)

Module TableFacts.
Import PyStr PyFloat Py Money Rows Wrap Canvas Canvas.Notations Table.
Import ValueFacts FlowFacts.

Lemma bind_ok {A B} (a : A) (k : A -> result B) : (Ok a ≫= k) = k a.
Proof. reflexivity. Qed.

Lemma bind_raise {A B} (e : exn) (k : A -> result B) :
  (Raise e ≫= k) = Raise e.
Proof. reflexivity. Qed.

Lemma mapM_ok_fmap {A B} (f : A -> result B) (g : A -> B) (l : list A) :
  Forall (fun a => f a = Ok (g a)) l -> mapM f l = Ok (g <$> l).
Proof.
  induction 1 as [|a l Ha _ IH]; [reflexivity|].
  simpl. by rewrite Ha, bind_ok, IH.
Qed.

Lemma mapM_ok {A B} (f : A -> result B) (l : list A) :
  (forall a, exists b, f a = Ok b) -> exists bs, mapM f l = Ok bs.
Proof.
  intros Hf. induction l as [|a l [bs IH]]; [by eexists|].
  destruct (Hf a) as [b Hb]. exists (b :: bs).
  simpl. by rewrite Hb, bind_ok, IH.
Qed.

Lemma foldl_inv {A B} (P : B -> Prop) (f : B -> A -> B) (l : list A) (b : B) :
  P b -> (forall b a, P b -> P (f b a)) -> P (foldl f b l).
Proof.
  intros Hb Hf. revert b Hb. induction l as [|a l IH]; intros b Hb; [done|].
  simpl. apply IH, Hf, Hb.
Qed.

Lemma Forall_imap_intro {A B} (P : B -> Prop) (f : nat -> A -> B) (l : list A) :
  (forall i a, P (f i a)) -> Forall P (imap f l).
Proof.
  revert f. induction l as [|a l IH]; intros f Hf; [constructor|].
  simpl. constructor; [apply Hf|]. apply IH. intros i. apply Hf.
Qed.

Lemma no_break_app (a b : list op) :
  no_break a -> no_break b -> no_break (a ++ b).
Proof. intros Ha Hb. by apply Forall_app. Qed.

Lemma no_break_page_breaks (ops : list op) :
  no_break ops -> page_breaks ops = 0%nat.
Proof.
  unfold page_breaks. induction 1 as [|o ops Ho _ IH]; [reflexivity|].
  simpl. by rewrite Ho.
Qed.

Lemma cell_value_ok (r : row) (key : string) :
  exists v, cell_value r key = Ok v.
Proof.
  unfold cell_value. destruct (_ && _); [|by eexists].
  rewrite safe_money_str, bind_ok. by eexists.
Qed.

Section WithCanvas.
Variable stringWidth : str -> str -> Z -> float.
Variables font_regular font_bold : str.
Variable alg : summation.

Lemma wrap_row_ok (col_w : list float) (columns : list (string * str))
  (r : row) :
  exists cells, wrap_row stringWidth font_regular col_w columns r = Ok cells.
Proof.
  unfold wrap_row. apply mapM_ok. intros [i [key label]].
  destruct (cell_value_ok r key) as [v Hv].
  rewrite Hv, bind_ok. by eexists.
Qed.

Lemma draw_header_cells_no_break (left top : float) (head_h : Z)
  (col_w : list float) (header_wrapped : list (list str)) :
  no_break (draw_header_cells left top head_h col_w header_wrapped).
Proof.
  unfold draw_header_cells.
  apply (foldl_inv (fun acc : float * list op => no_break (snd acc))).
  - constructor.
  - intros [x ops] [i lines] Hops. cbn [snd] in *.
    apply no_break_app; [exact Hops|].
    by apply Forall_imap_intro.
Qed.

Lemma draw_header_lines_no_break (left top : float) (head_h : Z)
  (col_w : list float) :
  no_break (draw_header_lines left top head_h col_w).
Proof.
  unfold draw_header_lines.
  apply (foldl_inv (fun acc : float * list op => no_break (snd acc))).
  - constructor.
  - intros [x ops] w Hops. cbn [snd] in *.
    apply no_break_app; [exact Hops|]. by repeat constructor.
Qed.

Lemma draw_merged_period_no_break (left : float) (col_w : list float)
  (merged_top merged_bottom : float) (period_text : str) :
  no_break (draw_merged_period left col_w merged_top merged_bottom period_text).
Proof.
  unfold draw_merged_period. constructor; [reflexivity|].
  destruct (strip period_text); by repeat constructor.
Qed.

Lemma draw_row_cells_spec (left : float) (col_w : list float)
  (columns : list (string * str)) (r : row) (row_top : float) (row_h : Z)
  (cell_lines : list (list str)) :
  exists ops,
    draw_row_cells left col_w columns r row_top row_h cell_lines = Ok ops
    /\ no_break ops.
Proof.
  unfold draw_row_cells.
  match goal with
  | |- context [foldl ?f ?b ?l] =>
      assert (H : exists x ops, foldl f b l = Ok (x, ops) /\ no_break ops)
  end.
  { apply (foldl_inv
             (fun acc : result (float * list op) =>
                exists x ops, acc = Ok (x, ops) /\ no_break ops)).
    - do 2 eexists. split; [reflexivity | constructor].
    - intros acc [i lines] (x & ops & -> & Hops).
      rewrite bind_ok.
      destruct (cell_value_ok r (fst (at_index (""%string, []) columns (S i))))
        as [v Hv].
      rewrite Hv, bind_ok. do 2 eexists. split; [reflexivity|].
      apply no_break_app; [exact Hops|]. apply no_break_app.
      + apply (foldl_inv (fun acc : float * list op => no_break (snd acc))).
  * constructor.
  * intros [ly drawn] line Hd. cbn [snd] in *.
    apply no_break_app; [exact Hd|].
    destruct (String.eqb _ _); by repeat constructor.
      + destruct (strip v); by repeat constructor. }
  destruct H as (x & ops & -> & Hops). rewrite bind_ok. eauto.
Qed.

Lemma draw_body_spec (left : float) (col_w : list float)
  (columns : list (string * str)) (y_cursor : float)
  (rows : list (row * (Z * list (list str)))) :
  exists ops,
    draw_body left col_w columns y_cursor rows = Ok ops /\ no_break ops.
Proof.
  revert y_cursor. induction rows as [|[r [row_h cells]] rows IH];
    intros y_cursor.
  - exists []. split; [reflexivity | constructor].
  - destruct (draw_row_cells_spec left col_w columns r y_cursor row_h cells)
      as (ops & Hops & Hnb).
    destruct (IH (y_cursor - of_Z row_h)%F) as (more & Hmore & Hnb').
    exists (ops ++ more). split; [|by apply no_break_app].
    cbn [draw_body]. by rewrite Hops, bind_ok, Hmore, bind_ok.
Qed.

Lemma table_total_ok (services : list row) :
  exists total, table_total alg services = Ok total.
Proof.
  unfold table_total.
  destruct (mapM_ok
              (fun r => safe_money (VStr (py_str (get r fee_key (VStr [])))))
              services) as [fees Hfees].
  - intros r. rewrite safe_money_str. by eexists.
  - rewrite Hfees, bind_ok. by eexists.
Qed.

(** The calls of the total row, for at least one column. *)
Lemma draw_total_row_ops (left : float) (col_w : list float)
  (services : list row) (y_total_divider : float) (total_row_h : Z)
  (ops : list op) :
  draw_total_row font_regular alg left col_w services y_total_divider total_row_h
  = Ok ops ->
  exists total last,
    table_total alg services = Ok total
    /\ from_end col_w 0 = Ok last
    /\ let total_y := (y_total_divider - of_Z 15)%F in
       let last_col_left := (left + py_sum alg (but_last 1 col_w))%F in
       let amount :=
         [SetFillColor Black;
          DrawRightString (last_col_left + last - of_Z 4)%F total_y
            (fmt_money total);
          Rect last_col_left (y_total_divider - of_Z total_row_h)%F last
            (of_Z total_row_h) true false] in
       if (1 <? length col_w)%nat then
         exists prev,
           from_end col_w 1 = Ok prev
           /\ ops =
                [SetFont font_regular 10; SetFillColor Black;
                 DrawCentredString
                   (left + py_sum alg (but_last 2 col_w) + prev / of_Z 2)%F
                   total_y (py "Total:");
                 Rect (last_col_left - prev)%F
                   (y_total_divider - of_Z total_row_h)%F prev
                   (of_Z total_row_h) true false]
                ++ amount
       else ops = SetFont font_regular 10 :: amount.
Proof.
  unfold draw_total_row.
  destruct (table_total alg services) as [total|e]; [|discriminate].
  rewrite bind_ok.
  destruct (from_end col_w 0) as [last|e]; [|discriminate].
  rewrite !bind_ok.
  destruct (1 <? length col_w)%nat.
  - destruct (from_end col_w 1) as [prev|e]; [|discriminate].
    rewrite !bind_ok. intros [= <-].
    exists total, last. split_and!; [done..|].
    exists prev. split; reflexivity.
  - rewrite !bind_ok. intros [= <-].
    exists total, last. split_and!; [done..|]. reflexivity.
Qed.

Lemma from_end_ok (col_w : list float) (k : nat) :
  (k < length col_w)%nat -> exists a, from_end col_w k = Ok a.
Proof.
  intros Hk. unfold from_end.
  destruct (reverse col_w !! k) eqn:H; [by eexists|].
  apply lookup_ge_None in H. rewrite length_reverse in H. lia.
Qed.

Lemma draw_total_row_ok (left : float) (col_w : list float)
  (services : list row) (y_total_divider : float) (total_row_h : Z) :
  col_w <> [] ->
  exists ops,
    draw_total_row font_regular alg left col_w services y_total_divider
      total_row_h = Ok ops
    /\ no_break ops.
Proof.
  intros Hne. unfold draw_total_row.
  destruct (table_total_ok services) as [total ->]. rewrite bind_ok.
  destruct (from_end_ok col_w 0) as [last ->].
  { destruct col_w; [done | simpl; lia]. }
  rewrite !bind_ok.
  destruct (1 <? length col_w)%nat eqn:Hlen.
  - apply Nat.ltb_lt in Hlen.
    destruct (from_end_ok col_w 1 Hlen) as [prev ->].
    rewrite !bind_ok. eexists. split; [reflexivity|].
    by repeat constructor.
  - rewrite !bind_ok. eexists. split; [reflexivity|].
    by repeat constructor.
Qed.

Lemma col_w_not_nil (table_w : float) (warehouse_type : str) :
  (fun w => table_w * w)%F
    <$> column_weights (length (table_columns_for_warehouse warehouse_type))
  <> [].
Proof.
  unfold table_columns_for_warehouse, column_weights.
  by destruct (is_credit_mode warehouse_type).
Qed.

(** C7.  Drawing the services table starts no new page, whatever the
    rows and wherever the table starts on the page: none of the calls for
    the header, the body rows, the merged period cell and the total row
    is a page break.  The table is drawn whenever the rows normalize;
    otherwise the exception of the normalization is raised. *)
Theorem table_never_breaks_page (width y : float) (services : list row)
  (warehouse_type start_str end_str : str) :
  match draw_services_table stringWidth font_regular font_bold alg width y
          services warehouse_type start_str end_str with
  | Ok ops => no_break ops /\ page_breaks ops = 0%nat
  | Raise e => normalize_service_rows services = Raise e
  end.
Proof.
  unfold draw_services_table.
  destruct (normalize_service_rows services) as [norm|e]; [|reflexivity].
  rewrite bind_ok.
  match goal with
  | |- context [mapM ?f norm] =>
      destruct (mapM_ok f norm) as [row_wrapped ->];
        [intros r; apply wrap_row_ok|]
  end.
  rewrite bind_ok.
  match goal with
  | |- context [draw_body ?l ?c ?cs ?yc ?rs] =>
      destruct (draw_body_spec l c cs yc rs) as (body & -> & Hbody)
  end.
  rewrite bind_ok.
  match goal with
  | |- context [draw_total_row ?f ?a ?l ?c ?s ?yd ?h] =>
      destruct (draw_total_row_ok l c s yd h) as (total & -> & Htotal);
        [apply col_w_not_nil|]
  end.
  rewrite bind_ok.
  match goal with
  | |- no_break ?ops /\ _ => assert (H : no_break ops)
  end.
  { repeat apply no_break_app; try (by repeat constructor); try done.
    - apply draw_header_cells_no_break.
    - apply draw_header_lines_no_break.
    - apply draw_merged_period_no_break. }
  split; [exact H | by apply no_break_page_breaks].
Qed.

End WithCanvas.

End TableFacts.

(** ** The total row *)

Module TotalFacts.
Import PyStr PyFloat Py Money Rows Wrap Canvas Canvas.Notations Table Stated.
Import ValueFacts FlowFacts TableFacts.

Ltac key_ne := let H := fresh in intros H; vm_compute in H; discriminate H.

Lemma fee_of_mkrow (p s u un : str) (fee : float) :
  fee_of (mkrow p s u un fee) = fee.
Proof.
  unfold fee_of, get, mkrow.
  rewrite !lookup_insert_ne by key_ne.
  by rewrite lookup_insert_eq.
Qed.

Lemma get_fee_mkrow (p s u un : str) (fee : float) (d : pyval) :
  get (mkrow p s u un fee) "annual_service_fee" d = VFloat fee.
Proof.
  unfold get, mkrow.
  rewrite !lookup_insert_ne by key_ne.
  by rewrite lookup_insert_eq.
Qed.

Lemma label_of_mkrow (p s u un : str) (fee : float) :
  label_of (mkrow p s u un fee) = s.
Proof.
  unfold label_of, get, mkrow.
  rewrite lookup_insert_ne by key_ne.
  by rewrite lookup_insert_eq.
Qed.

(** A normalized row is made of its five fields, the fee being the
    normalized fee of the raw row. *)
Lemma normalize_row_mkrow (raw r : row) :
  normalize_row raw = Ok r ->
  exists p s u un fee, r = mkrow p s u un fee /\ raw_fee raw = Ok fee.
Proof.
  unfold normalize_row, raw_fee.
  destruct (normalize_fee_value _) as [fee|e]; [|discriminate].
  rewrite bind_ok. intros [= <-]. by do 5 eexists.
Qed.

Lemma normalize_rows_mkrow (rows norm : list row) :
  normalize_service_rows rows = Ok norm ->
  Forall2 (fun raw r =>
             exists p s u un fee, r = mkrow p s u un fee /\ raw_fee raw = Ok fee)
          rows norm.
Proof.
  unfold normalize_service_rows. revert norm.
  induction rows as [|raw rows IH]; intros norm.
  - intros [= <-]. constructor.
  - simpl. destruct (normalize_row raw) as [r|e] eqn:Hr; [|discriminate].
    rewrite bind_ok.
    destruct (mapM normalize_row rows) as [rs|e]; [|discriminate].
    rewrite bind_ok. intros [= <-].
    constructor; [by apply normalize_row_mkrow | by apply IH].
Qed.

Lemma normalize_rows_fees (rows norm : list row) :
  normalize_service_rows rows = Ok norm ->
  Forall2 (fun raw r => raw_fee raw = Ok (fee_of r)) rows norm.
Proof.
  intros H%normalize_rows_mkrow.
  eapply Forall2_impl; [exact H|].
  intros raw r (p & s & u & un & fee & -> & Hfee).
  by rewrite fee_of_mkrow.
Qed.

Lemma table_total_sum (alg : summation) (norm : list row) :
  Forall fee_text_round_trips norm ->
  table_total alg norm = Ok (py_sum alg (fee_of <$> norm)).
Proof.
  intros H. unfold table_total.
  by rewrite (mapM_ok_fmap _ fee_of norm H), bind_ok.
Qed.

(** *** Two-decimal rounding depends on the amount only *)

Lemma round_hundredths_nonneg (m e : Z) :
  0 <= e -> round_hundredths m e = m * 2 ^ e * 100.
Proof. intros He. unfold round_hundredths. destruct e; [done..|lia]. Qed.

Lemma round_hundredths_neg (m e : Z) :
  e < 0 ->
  round_hundredths m e =
    let d := 2 ^ (- e) in
    let n := m * 100 in
    match Z.compare (2 * (n mod d)) d with
    | Lt => n / d
    | Gt => n / d + 1
    | Eq => if Z.even (n / d) then n / d else n / d + 1
    end.
Proof.
  intros He. unfold round_hundredths. destruct e as [|p|p]; [lia..|].
  by rewrite Z.pow_pos_fold.
Qed.

Lemma round_hundredths_scale (m e k : Z) :
  0 <= m -> 0 <= k ->
  round_hundredths (m * 2 ^ k) (e - k) = round_hundredths m e.
Proof.
  intros Hm Hk.
  destruct (Z_le_gt_dec 0 (e - k)) as [Hek|Hek].
  - rewrite !round_hundredths_nonneg by lia.
    replace e with ((e - k) + k) at 2 by lia.
    rewrite Z.pow_add_r by lia. ring.
  - rewrite (round_hundredths_neg _ (e - k)) by lia. cbv zeta.
    destruct (Z_le_gt_dec 0 e) as [He|He].
    + rewrite round_hundredths_nonneg by lia.
      replace (m * 2 ^ k * 100) with (m * 2 ^ e * 100 * 2 ^ (- (e - k))).
      2:{ replace k with (e + - (e - k)) at 2 by lia.
          rewrite Z.pow_add_r by lia. ring. }
      assert (0 < 2 ^ (- (e - k))) by (apply Z.pow_pos_nonneg; lia).
      rewrite Z.mod_mul, Z.div_mul by lia.
      replace (2 * 0) with 0 by lia.
      by destruct (Z.compare_spec 0 (2 ^ (- (e - k)))); try lia.
    + rewrite (round_hundredths_neg m e) by lia. cbv zeta.
      assert (Hd : 0 < 2 ^ (- e)) by (apply Z.pow_pos_nonneg; lia).
      assert (Hk2 : 0 < 2 ^ k) by (apply Z.pow_pos_nonneg; lia).
      replace (2 ^ (- (e - k))) with (2 ^ (- e) * 2 ^ k).
      2:{ rewrite <- Z.pow_add_r by lia. f_equal. lia. }
      replace (m * 2 ^ k * 100) with (m * 100 * 2 ^ k) by ring.
      rewrite Z.div_mul_cancel_r by lia.
      rewrite Z.mul_mod_distr_r by lia.
      replace (2 * (m * 100 mod 2 ^ (- e) * 2 ^ k))
        with (2 * (m * 100 mod 2 ^ (- e)) * 2 ^ k) by ring.
      by rewrite <- Zmult_compare_compat_r by lia.
Qed.

Lemma round_hundredths_dyadic (v w : dyadic) :
  0 <= fst v -> dyadic_eqb v w = true ->
  round_hundredths (Z.abs (fst v)) (snd v)
  = round_hundredths (Z.abs (fst w)) (snd w).
Proof.
  destruct v as [m1 e1], w as [m2 e2]. unfold dyadic_eqb. cbn [fst snd].
  intros Hm1 Heq%Z.eqb_eq.
  destruct (Z_le_gt_dec e1 e2) as [Hle|Hgt].
  - rewrite Z.min_l in Heq by lia.
    rewrite Z.sub_diag, Z.mul_1_r in Heq. subst m1.
    assert (0 < 2 ^ (e2 - e1)) by (apply Z.pow_pos_nonneg; lia).
    assert (0 <= m2) by nia.
    rewrite !Z.abs_eq by nia.
    replace e1 with (e2 - (e2 - e1)) at 2 by lia.
    apply round_hundredths_scale; lia.
  - rewrite Z.min_r in Heq by lia.
    rewrite Z.sub_diag, Z.mul_1_r in Heq. subst m2.
    assert (0 < 2 ^ (e1 - e2)) by (apply Z.pow_pos_nonneg; lia).
    rewrite !Z.abs_eq by nia.
    replace e2 with (e1 - (e1 - e2)) at 2 by lia.
    symmetry. apply round_hundredths_scale; lia.
Qed.

Lemma fmt_money_exact (alg : summation) (fees : list float) :
  sum_is_exact alg fees ->
  spec_total_text fees = Some (fmt_money (py_sum alg fees)).
Proof.
  intros (Hsign & v & w & Hv & Hw & Heq).
  unfold spec_total_text. rewrite Hw. simpl. f_equal.
  unfold fmt_exact, fmt_money. f_equal.
  assert (Hfmt : format_comma_2f (py_sum alg fees) = fixed2_abs v /\ 0 <= fst v).
  { destruct (py_sum alg fees) as [s|s| |s m e]; simpl in *; try discriminate.
    - subst s. by injection Hv as <-.
    - subst s. by injection Hv as <-. }
  destruct Hfmt as [-> Hpos].
  unfold fixed2_abs.
  by rewrite (round_hundredths_dyadic v w Hpos Heq).
Qed.

(** C1 (as amended).  The total drawn in the total row is the sum of the
    fees of the normalized rows as the built-in [sum] of the Python version
    in use adds floats, left to right in double precision, formatted with a
    dollar sign, thousands separators and two decimals; it is the exact sum
    of the fees, so formatted, whenever the float sum is the exact sum. *)
Theorem total_is_float_sum (font_regular : str) (alg : summation)
  (left : float)
  (col_w : list float) (rows norm : list row) (y_total_divider : float)
  (total_row_h : Z) (ops : list op) :
  normalize_service_rows rows = Ok norm ->
  Forall fee_text_round_trips norm ->
  draw_total_row font_regular alg left col_w norm y_total_divider total_row_h
  = Ok ops ->
  Forall2 (fun raw r => raw_fee raw = Ok (fee_of r)) rows norm
  /\ right_texts ops = [fmt_money (py_sum alg (fee_of <$> norm))]
  /\ (sum_is_exact alg (fee_of <$> norm) ->
      spec_total_text (fee_of <$> norm)
      = Some (fmt_money (py_sum alg (fee_of <$> norm)))).
Proof.
  intros Hnorm Hrt Hops. split_and!.
  - by apply normalize_rows_fees.
  - apply draw_total_row_ops in Hops as (total & last & Htotal & _ & Hops).
    rewrite (table_total_sum _ _ Hrt) in Htotal. injection Htotal as <-.
    cbv zeta in Hops. destruct (1 <? length col_w)%nat.
    + destruct Hops as (prev & _ & ->). reflexivity.
    + subst ops. reflexivity.
  - apply fmt_money_exact.
Qed.

End TotalFacts.

Module TotalRowFacts.
Import PyStr PyFloat Py Money Rows Wrap Canvas Canvas.Notations Table Stated.
Import ValueFacts FlowFacts TableFacts TotalFacts.

Lemma money_is_not_label (total : float) :
  str_eqb (fmt_money total) (py "Total:") = false.
Proof. reflexivity. Qed.

(** C9 (as amended).  In the total row the summed total is drawn
    right-aligned, ending 4 points before the right edge of the last
    column; the label "Total:" is drawn centred on the middle of the
    second-to-last column, and is left out exactly when there is a single
    column.  The row is drawn for every column list that is not empty. *)
Theorem total_row_alignment (font_regular : str) (alg : summation)
  (left : float)
  (col_w : list float) (services : list row) (y_total_divider : float)
  (total_row_h : Z) :
  col_w <> [] ->
  exists ops total last,
    draw_total_row font_regular alg left col_w services y_total_divider
      total_row_h = Ok ops
    /\ table_total alg services = Ok total
    /\ from_end col_w 0 = Ok last
    /\ DrawRightString
         (left + py_sum alg (but_last 1 col_w) + last - of_Z 4)%F
         (y_total_divider - of_Z 15)%F (fmt_money total) ∈ ops
    /\ right_texts ops = [fmt_money total]
    /\ draws AlignCentre (py "Total:") ops = (1 <? length col_w)%nat
    /\ draws AlignRight (py "Total:") ops = false
    /\ draws AlignLeft (py "Total:") ops = false
    /\ ((1 < length col_w)%nat ->
        exists prev,
          from_end col_w 1 = Ok prev
          /\ DrawCentredString
               (left + py_sum alg (but_last 2 col_w) + prev / of_Z 2)%F
               (y_total_divider - of_Z 15)%F (py "Total:") ∈ ops).
Proof.
  intros Hne.
  destruct (draw_total_row_ok font_regular alg left col_w services
              y_total_divider total_row_h Hne) as (ops & Hops & _).
  pose proof (draw_total_row_ops _ _ _ _ _ _ _ _ Hops)
    as (total & last & Htotal & Hlast & Hshape).
  exists ops, total, last. cbv zeta in Hshape.
  destruct (1 <? length col_w)%nat eqn:Hlen.
  - destruct Hshape as (prev & Hprev & ->).
    split_and!; try done.
    + set_solver.
    + intros _. exists prev. split; [done | set_solver].
  - subst ops. split_and!; try done.
    + set_solver.
    + apply Nat.ltb_ge in Hlen. lia.
Qed.

(** Witness of C9: the five columns of the standard table, under either
    summation. *)
Lemma total_row_alignment_witness :
  every_summation (fun alg =>
    exists ops,
      draw_total_row (py "Helvetica") alg (of_Z 36) letter_col_w example_norm
        (of_Z 400) 22 = Ok ops
      /\ right_texts ops = [py "$1,299.75"]
      /\ draws AlignCentre (py "Total:") ops = true).
Proof.
  split.
  - destruct (total_row_alignment (py "Helvetica") PlainSum (of_Z 36)
                letter_col_w example_norm (of_Z 400) 22)
      as (ops & total & last & Hops & Htotal & _ & _ & Hr & Hc & _).
    + discriminate.
    + exists ops. split; [exact Hops|].
      assert (Ht : total = of_decimal false 129975 (-2)).
      { assert (H : table_total PlainSum example_norm
                    = Ok (of_decimal false 129975 (-2)))
          by (vm_compute; reflexivity).
        congruence. }
      subst total. split; [exact Hr | exact Hc].
  - destruct (total_row_alignment (py "Helvetica") CompensatedSum (of_Z 36)
                letter_col_w example_norm (of_Z 400) 22)
      as (ops & total & last & Hops & Htotal & _ & _ & Hr & Hc & _).
    + discriminate.
    + exists ops. split; [exact Hops|].
      assert (Ht : total = of_decimal false 129975 (-2)).
      { assert (H : table_total CompensatedSum example_norm
                    = Ok (of_decimal false 129975 (-2)))
          by (vm_compute; reflexivity).
        congruence. }
      subst total. split; [exact Hr | exact Hc].
Defined.

(** C9 as stated fails: with the five standard columns the label is not
    drawn right-aligned, under either summation. *)
Lemma total_label_is_not_right_aligned :
  every_summation (fun alg =>
    exists ops total,
      draw_total_row (py "Helvetica") alg (of_Z 36) letter_col_w example_norm
        (of_Z 400) 22 = Ok ops
      /\ table_total alg example_norm = Ok total
      /\ ~ total_row_as_stated letter_col_w total ops).
Proof.
  split.
  - eexists. eexists. split; [vm_compute; reflexivity|].
    split; [vm_compute; reflexivity|].
    intros [_ H]. vm_compute in H. discriminate H.
  - eexists. eexists. split; [vm_compute; reflexivity|].
    split; [vm_compute; reflexivity|].
    intros [_ H]. vm_compute in H. discriminate H.
Qed.

Example normalize_example_rows :
  normalize_service_rows example_rows = Ok example_norm.
Proof. vm_cast_no_check (eq_refl (Ok example_norm)). Qed.

Example normalize_large_rows :
  normalize_service_rows large_rows = Ok large_norm.
Proof. vm_cast_no_check (eq_refl (Ok large_norm)). Qed.

(** Witness of C1: the fees 1234.5 and 65.25 of the specification, under
    either summation. *)
Lemma total_is_float_sum_witness :
  every_summation (fun alg =>
    exists ops,
      draw_total_row (py "Helvetica") alg (of_Z 36) letter_col_w example_norm
        (of_Z 400) 22 = Ok ops
      /\ right_texts ops = [py "$1,299.75"]
      /\ spec_total_text (fee_of <$> example_norm) = Some (py "$1,299.75")).
Proof.
  assert (Hrt : Forall fee_text_round_trips example_norm).
  { repeat constructor; vm_compute; reflexivity. }
  split.
  - destruct (draw_total_row_ok (py "Helvetica") PlainSum (of_Z 36)
                letter_col_w example_norm (of_Z 400) 22) as (ops & Hops & _);
      [discriminate|].
    exists ops. split; [exact Hops|].
    destruct (total_is_float_sum (py "Helvetica") PlainSum (of_Z 36)
                letter_col_w example_rows example_norm (of_Z 400) 22 ops
                normalize_example_rows Hrt Hops) as (_ & Hr & Hexact).
    rewrite Hr, Hexact.
    + split; vm_compute; reflexivity.
    + split; [reflexivity|].
      eexists _, _. split_and!; vm_compute; reflexivity.
  - destruct (draw_total_row_ok (py "Helvetica") CompensatedSum (of_Z 36)
                letter_col_w example_norm (of_Z 400) 22) as (ops & Hops & _);
      [discriminate|].
    exists ops. split; [exact Hops|].
    destruct (total_is_float_sum (py "Helvetica") CompensatedSum (of_Z 36)
                letter_col_w example_rows example_norm (of_Z 400) 22 ops
                normalize_example_rows Hrt Hops) as (_ & Hr & Hexact).
    rewrite Hr, Hexact.
    + split; vm_compute; reflexivity.
    + split; [reflexivity|].
      eexists _, _. split_and!; vm_compute; reflexivity.
Defined.

(** C1 as stated fails: for the fees 10^16 and 1, both non-negative
    decimals, the total drawn is $10,000,000,000,000,000.00 under either
    summation and the sum is 10,000,000,000,000,001. *)
Lemma total_is_not_exact_sum :
  normalize_service_rows large_rows = Ok large_norm
  /\ spec_total_text (fee_of <$> large_norm)
     = Some (py "$10,000,000,000,000,001.00")
  /\ every_summation (fun alg =>
       exists ops,
         draw_total_row (py "Helvetica") alg (of_Z 36) letter_col_w
           large_norm (of_Z 400) 22 = Ok ops
         /\ right_texts ops = [py "$10,000,000,000,000,000.00"]
         /\ Some <$> right_texts ops
            <> [spec_total_text (fee_of <$> large_norm)]).
Proof.
  split; [exact normalize_large_rows|].
  split; [vm_compute; reflexivity|].
  split.
  - eexists. split; [vm_compute; reflexivity|].
    split; [vm_compute; reflexivity|].
    vm_compute. discriminate.
  - eexists. split; [vm_compute; reflexivity|].
    split; [vm_compute; reflexivity|].
    vm_compute. discriminate.
Qed.

End TotalRowFacts.

(** ** The order of the rows *)

Module OrderFacts.
Import PyStr PyFloat Py Money Rows Order.

Lemma rank_fneg (x : float) :
  float_rank (fneg x)
  = let '(a, b, c) := float_rank x in (- a, - b, - c).
Proof.
  destruct x as [s|[]| |[] m e]; simpl; by rewrite ?Z.opp_involutive.
Qed.

Lemma fneg_involutive (x : float) : fneg (fneg x) = x.
Proof. destruct x as [s|s| |s m e]; simpl; by rewrite ?negb_involutive. Qed.

Lemma is_nan_fneg (x : float) : is_nan (fneg x) = is_nan x.
Proof. by destruct x. Qed.

Lemma compare_cont_eq (m1 m2 : positive) :
  Pos.compare_cont Eq m1 m2 = (m1 ?= m2)%positive.
Proof. reflexivity. Qed.

Ltac rank_cases :=
  repeat match goal with
  | |- context [(?a ?= ?b)%positive] =>
      destruct (Pos.compare_spec a b); simpl
  | |- context [?a ?= ?b] => destruct (Z.compare_spec a b); simpl
  end.

(** On floats that are not NaN, [<] is the order of the ranks. *)
Lemma flt_rank (x y : float) :
  is_nan x = false -> is_nan y = false ->
  flt x y = true <-> rank_lt (float_rank x) (float_rank y).
Proof.
  unfold flt, SFltb, SFcompare, rank_lt.
  destruct x as [s1|s1| |s1 m1 e1], y as [s2|s2| |s2 m2 e2];
    try discriminate; intros _ _;
    try destruct s1; try destruct s2; simpl;
    rewrite ?compare_cont_eq; rank_cases;
    split; intros ?; try discriminate; try reflexivity; try lia.
Qed.

Lemma feq_rank (x y : float) :
  feq x y = true ->
  is_nan x = false /\ is_nan y = false /\ float_rank x = float_rank y.
Proof.
  unfold feq, SFeqb, SFcompare.
  destruct x as [s1|s1| |s1 m1 e1], y as [s2|s2| |s2 m2 e2];
    try discriminate;
    try destruct s1; try destruct s2; simpl; try discriminate;
    rewrite ?compare_cont_eq; rank_cases;
    intros ?; try discriminate; split_and!; try reflexivity;
    subst; reflexivity.
Qed.

Lemma fle_rank (x y : float) :
  is_nan x = false -> is_nan y = false ->
  fle x y = true <-> ~ rank_lt (float_rank y) (float_rank x).
Proof.
  unfold fle, SFleb, SFcompare, rank_lt.
  destruct x as [s1|s1| |s1 m1 e1], y as [s2|s2| |s2 m2 e2];
    try discriminate; intros _ _;
    try destruct s1; try destruct s2; simpl;
    rewrite ?compare_cont_eq; rank_cases;
    split; intros ?; try discriminate; try reflexivity; try lia.
Qed.

Lemma key_lt_rank (a b : bool * float) :
  not_nan_key a -> not_nan_key b ->
  key_lt a b = true <-> key_rank_lt (key_rank a) (key_rank b).
Proof.
  destruct a as [a1 a2], b as [b1 b2].
  unfold not_nan_key, key_lt, key_rank, key_rank_lt. cbn [fst snd].
  intros Ha Hb. pose proof (flt_rank a2 b2 Ha Hb) as Hf.
  destruct a1, b1; simpl; rewrite ?Hf; split; intros H;
    try discriminate; try reflexivity; try lia.
  - by right.
  - by destruct H as [? | [_ ?]]; [lia|].
  - by right.
  - by destruct H as [? | [_ ?]]; [lia|].
Qed.

Lemma rank_lt_asym (a b : Z * Z * Z) : rank_lt a b -> ~ rank_lt b a.
Proof. destruct a as [[? ?] ?], b as [[? ?] ?]. unfold rank_lt. lia. Qed.

Lemma rank_lt_negtrans (a b c : Z * Z * Z) :
  ~ rank_lt a b -> ~ rank_lt b c -> ~ rank_lt a c.
Proof.
  destruct a as [[? ?] ?], b as [[? ?] ?], c as [[? ?] ?].
  unfold rank_lt. lia.
Qed.

Lemma key_lt_asym (a b : bool * float) :
  not_nan_key a -> not_nan_key b -> key_lt a b = true -> key_lt b a = false.
Proof.
  intros Ha Hb H. apply (key_lt_rank a b Ha Hb) in H.
  apply not_true_is_false. rewrite (key_lt_rank b a Hb Ha).
  destruct a as [a1 a2], b as [b1 b2].
  unfold key_rank_lt, key_rank in *. cbn [fst snd] in *.
  pose proof (rank_lt_asym (float_rank a2) (float_rank b2)).
  destruct a1, b1; intuition lia.
Qed.

Lemma key_lt_negtrans (a b c : bool * float) :
  not_nan_key a -> not_nan_key b -> not_nan_key c ->
  key_lt a b = false -> key_lt b c = false -> key_lt a c = false.
Proof.
  intros Ha Hb Hc Hab Hbc.
  apply not_true_iff_false in Hab, Hbc. apply not_true_is_false.
  rewrite key_lt_rank in * by done.
  destruct a as [a1 a2], b as [b1 b2], c as [c1 c2].
  unfold key_rank_lt, key_rank in *. cbn [fst snd] in *.
  pose proof (rank_lt_negtrans (float_rank a2) (float_rank b2)
                (float_rank c2)).
  destruct a1, b1, c1; intuition lia.
Qed.

(** Keys of one group are not below one another. *)
Lemma group_key_incomparable (b : bool) (f : float) (k1 k2 : bool * float) :
  group_key b f k1 = true -> group_key b f k2 = true -> key_lt k1 k2 = false.
Proof.
  destruct k1 as [b1 x1], k2 as [b2 x2]. unfold group_key. cbn [fst snd].
  intros [Hb1 H1]%andb_prop [Hb2 H2]%andb_prop.
  apply eqb_prop in Hb1, Hb2. subst b1 b2.
  apply feq_rank in H1 as (Hn1 & _ & Hr1), H2 as (Hn2 & _ & Hr2).
  rewrite is_nan_fneg in Hn1, Hn2.
  apply not_true_is_false. rewrite key_lt_rank by done.
  unfold key_rank_lt, key_rank. cbn [fst snd].
  rewrite !rank_fneg in Hr1, Hr2.
  destruct (float_rank x1) as [[? ?] ?], (float_rank x2) as [[? ?] ?],
    (float_rank f) as [[? ?] ?].
  injection Hr1 as ? ? ?. injection Hr2 as ? ? ?.
  unfold rank_lt. lia.
Qed.

(** *** The stable sort *)

Section Sort.
Context {K A : Type}.
Variable lt : K -> K -> bool.
Variable P : K -> Prop.
Hypothesis lt_asym :
  forall a b, P a -> P b -> lt a b = true -> lt b a = false.
Hypothesis lt_negtrans :
  forall a b c, P a -> P b -> P c ->
                lt a b = false -> lt b c = false -> lt a c = false.

Local Abbreviation keyed := (fun d : K * A => P (fst d)).

Lemma insert_sorted_perm (x : K * A) (l : list (K * A)) :
  insert_sorted lt x l ≡ₚ x :: l.
Proof.
  induction l as [|y l IH]; [reflexivity|].
  simpl. destruct (lt (fst y) (fst x)); [|reflexivity].
  rewrite IH. apply Permutation_swap.
Qed.

Lemma sort_decorated_perm (l : list (K * A)) : sort_decorated lt l ≡ₚ l.
Proof.
  induction l as [|x l IH]; [reflexivity|].
  unfold sort_decorated in *. simpl.
  by rewrite insert_sorted_perm, IH.
Qed.

Lemma insert_sorted_sorted (x : K * A) (l : list (K * A)) :
  keyed x -> Forall keyed l ->
  keys_sorted lt l -> keys_sorted lt (insert_sorted lt x l).
Proof.
  intros Hx Hl Hs. unfold keys_sorted in *.
  induction Hs as [|y l Hs IH Hy]; simpl.
  - repeat constructor.
  - inversion Hl as [|? ? Hpy Hl']; subst.
    destruct (lt (fst y) (fst x)) eqn:Hyx.
    + constructor; [by apply IH|].
      rewrite insert_sorted_perm. constructor; [|exact Hy].
      by apply lt_asym.
    + constructor; [by constructor|].
      constructor; [exact Hyx|].
      rewrite Forall_forall in Hy, Hl'. apply Forall_forall.
      intros z Hz. apply (lt_negtrans _ (fst y)); auto.
Qed.

Lemma sort_decorated_sorted (l : list (K * A)) :
  Forall keyed l -> keys_sorted lt (sort_decorated lt l).
Proof.
  induction 1 as [|x l Hx Hl IH]; [constructor|].
  unfold sort_decorated in *. simpl.
  apply insert_sorted_sorted; [exact Hx | | exact IH].
  by rewrite (sort_decorated_perm l).
Qed.

(** Stability, for a set [sel] of keys that are not below one another. *)
Variable sel : K -> bool.
Hypothesis sel_incomparable :
  forall a b, sel a = true -> sel b = true -> lt a b = false.

Lemma insert_sorted_filter (x : K * A) (l : list (K * A)) :
  List.filter (fun d => sel (fst d)) (insert_sorted lt x l)
  = List.filter (fun d => sel (fst d)) (x :: l).
Proof.
  induction l as [|y l IH]; [reflexivity|].
  cbn [insert_sorted]. destruct (lt (fst y) (fst x)) eqn:Hyx; [|reflexivity].
  cbn [List.filter] in *.
  destruct (sel (fst y)) eqn:Hy, (sel (fst x)) eqn:Hx.
  - by rewrite (sel_incomparable _ _ Hy Hx) in Hyx.
  - by rewrite IH.
  - exact IH.
  - exact IH.
Qed.

Lemma sort_decorated_filter (l : list (K * A)) :
  List.filter (fun d => sel (fst d)) (sort_decorated lt l)
  = List.filter (fun d => sel (fst d)) l.
Proof.
  induction l as [|x l IH]; [reflexivity|].
  unfold sort_decorated in *. cbn [foldr].
  rewrite insert_sorted_filter. cbn [List.filter]. by rewrite IH.
Qed.
End Sort.

Lemma keys_sorted_lookup {K A} (lt : K -> K -> bool) (l : list (K * A))
  (i j : nat) (x y : K * A) :
  keys_sorted lt l -> (i < j)%nat -> l !! i = Some x -> l !! j = Some y ->
  lt (fst y) (fst x) = false.
Proof.
  intros Hs. revert i j. induction Hs as [|z l Hs IH Hz]; intros i j Hij Hi Hj.
  - by rewrite lookup_nil in Hi.
  - destruct j as [|j]; [lia|]. destruct i as [|i].
    + injection Hi as <-. cbn in Hj.
      rewrite Forall_forall in Hz. apply Hz.
      by eapply list_elem_of_lookup_2.
    + cbn in Hi, Hj. apply (IH i j); [lia | done | done].
Qed.

End OrderFacts.

Module SortFacts.
Import PyStr PyFloat Py Money Rows Order Stated.
Import TableFacts TotalFacts OrderFacts.

Lemma sort_key_mkrow (p s u un : str) (fee : float) :
  sort_key (mkrow p s u un fee) = Ok (key_of (mkrow p s u un fee)).
Proof.
  unfold sort_key, key_of, is_support, label_of.
  by rewrite get_fee_mkrow, fee_of_mkrow.
Qed.

Lemma decorate_rows (norm : list row) :
  Forall (fun r => exists p s u un fee, r = mkrow p s u un fee) norm ->
  mapM (fun a => k ← sort_key a; Ok (k, a)) norm = Ok (decorate <$> norm).
Proof.
  intros H. apply mapM_ok_fmap.
  eapply Forall_impl; [exact H|].
  intros r (p & s & u & un & fee & ->).
  by rewrite sort_key_mkrow.
Qed.

Lemma same_group_key (b : bool) (f : float) (r : row) :
  same_group b f r = group_key b f (key_of r).
Proof.
  unfold same_group, group_key, key_of. cbn [fst snd].
  by rewrite fneg_involutive.
Qed.

Lemma filter_decorated (sel : row -> bool) (sel' : bool * float -> bool)
  (l : list ((bool * float) * row)) :
  Forall (fun d => sel (snd d) = sel' (fst d)) l ->
  List.filter sel (snd <$> l) = snd <$> List.filter (fun d => sel' (fst d)) l.
Proof.
  induction 1 as [|d l Hd _ IH]; [reflexivity|].
  rewrite fmap_cons. cbn [List.filter]. rewrite Hd.
  destruct (sel' (fst d)); [rewrite fmap_cons|]; by rewrite IH.
Qed.

Lemma decorated_keys (norm : list row) (l : list ((bool * float) * row)) :
  l ≡ₚ decorate <$> norm -> Forall (fun d => fst d = key_of (snd d)) l.
Proof.
  intros ->. apply Forall_fmap, Forall_forall. done.
Qed.

(** What the order of the keys says about two rows. *)
Lemma key_order_rows (r s : row) :
  is_nan (fee_of r) = false -> is_nan (fee_of s) = false ->
  key_lt (key_of s) (key_of r) = false ->
  (is_support r = true -> is_support s = true)
  /\ (is_support r = is_support s -> fle (fee_of s) (fee_of r) = true).
Proof.
  intros Hr Hs. unfold key_lt, key_of. cbn [fst snd].
  destruct (is_support s) eqn:Es, (is_support r) eqn:Er; simpl;
    intros H; try discriminate; split; try done; intros _.
  all: apply fle_rank; [done..|].
  all: apply not_true_iff_false in H.
  all: rewrite flt_rank in H by (by rewrite is_nan_fneg).
  all: rewrite !rank_fneg in H.
  all: destruct (float_rank (fee_of s)) as [[? ?] ?],
         (float_rank (fee_of r)) as [[? ?] ?].
  all: unfold rank_lt in *; lia.
Qed.

(** C2 (as amended).  [sort_rows_by_fee_desc] returns the normalized rows
    rearranged so that every row whose label, without surrounding
    whitespace, ends with "Support" comes after every row whose label does
    not; within each of the two groups the fees descend; and rows of one
    group with equal fees keep the order they had.  This holds when no fee
    is NaN. *)
Theorem sort_rows_support_last_fee_desc (rows norm : list row) :
  normalize_service_rows rows = Ok norm ->
  Forall (fun r => is_nan (fee_of r) = false) norm ->
  exists out,
    sort_rows_by_fee_desc rows = Ok out
    /\ out ≡ₚ norm
    /\ (forall i j r s,
          (i < j)%nat -> out !! i = Some r -> out !! j = Some s ->
          (is_support r = true -> is_support s = true)
          /\ (is_support r = is_support s ->
              fle (fee_of s) (fee_of r) = true))
    /\ (forall b f,
          List.filter (same_group b f) out
          = List.filter (same_group b f) norm).
Proof.
  intros Hnorm Hnan.
  assert (Hshape : Forall (fun r => exists p s u un fee,
                               r = mkrow p s u un fee) norm).
  { apply normalize_rows_mkrow in Hnorm.
    clear Hnan. induction Hnorm as [|raw r rows norm Hr _ IH]; [constructor|].
    constructor; [|exact IH].
    destruct Hr as (p & s & u & un & fee & -> & _). by do 5 eexists. }
  set (dec := decorate <$> norm).
  set (sorted_dec := sort_decorated key_lt dec).
  exists (snd <$> sorted_dec).
  assert (Hperm : sorted_dec ≡ₚ dec) by apply sort_decorated_perm.
  assert (Hkeys : Forall (fun d => fst d = key_of (snd d)) sorted_dec)
    by (by apply (decorated_keys norm)).
  assert (Hnn : Forall (fun d : (bool * float) * row => not_nan_key (fst d)) dec).
  { apply Forall_fmap. eapply Forall_impl; [exact Hnan|].
    intros r Hr. unfold not_nan_key. simpl. by rewrite is_nan_fneg. }
  assert (Hsorted : keys_sorted key_lt sorted_dec).
  { apply (sort_decorated_sorted key_lt not_nan_key);
      [apply key_lt_asym | apply key_lt_negtrans | exact Hnn]. }
  split_and!.
  - unfold sort_rows_by_fee_desc, sorted.
    by rewrite Hnorm, bind_ok, (decorate_rows _ Hshape), bind_ok.
  - rewrite Hperm. unfold dec. rewrite <- list_fmap_compose.
    by rewrite list_fmap_id.
  - intros i j r s Hij Hi Hj.
    rewrite list_lookup_fmap in Hi, Hj.
    destruct (sorted_dec !! i) as [[kr r']|] eqn:Ei; [|discriminate].
    destruct (sorted_dec !! j) as [[ks s']|] eqn:Ej; [|discriminate].
    injection Hi as ->. injection Hj as ->.
    pose proof (keys_sorted_lookup _ _ _ _ _ _ Hsorted Hij Ei Ej) as Hlt.
    rewrite Forall_forall in Hkeys.
    pose proof (Hkeys _ (list_elem_of_lookup_2 _ _ _ Ei)) as Hkr.
    pose proof (Hkeys _ (list_elem_of_lookup_2 _ _ _ Ej)) as Hks.
    cbn [fst snd] in *. subst kr ks.
    assert (Hin : forall i x, sorted_dec !! i = Some x ->
                              is_nan (fee_of (snd x)) = false).
    { intros i0 x Hx. apply list_elem_of_lookup_2 in Hx.
      rewrite Hperm in Hx. apply list_elem_of_fmap in Hx as (r0 & -> & Hr0).
      rewrite Forall_forall in Hnan. by apply Hnan. }
    apply key_order_rows; [apply (Hin _ _ Ei) | apply (Hin _ _ Ej) | exact Hlt].
  - intros b f.
    rewrite (filter_decorated _ (group_key b f)).
    2:{ eapply Forall_impl; [exact Hkeys|].
        intros d Hd. by rewrite same_group_key, Hd. }
    unfold sorted_dec.
    rewrite (sort_decorated_filter key_lt (group_key b f)
               (group_key_incomparable b f)).
    rewrite <- (filter_decorated (same_group b f)).
    + unfold dec. rewrite <- list_fmap_compose. by rewrite list_fmap_id.
    + apply Forall_fmap, Forall_forall. intros r _. apply same_group_key.
Qed.

Example normalize_abc_rows : normalize_service_rows abc_rows = Ok abc_norm.
Proof. vm_cast_no_check (eq_refl (Ok abc_norm)). Qed.

Example sort_abc_rows : sort_rows_by_fee_desc abc_rows = Ok abc_sorted.
Proof. vm_cast_no_check (eq_refl (Ok abc_sorted)). Qed.

Example sort_blank_rows : sort_rows_by_fee_desc blank_rows = Ok blank_sorted.
Proof. vm_cast_no_check (eq_refl (Ok blank_sorted)). Qed.

(** Witness of C2: the fees 10, 50, 10 of A, B, C give B, A, C. *)
Lemma sort_rows_support_last_fee_desc_witness :
  exists out,
    sort_rows_by_fee_desc abc_rows = Ok out
    /\ out ≡ₚ abc_norm
    /\ label_of <$> out = [py "B"; py "A"; py "C"].
Proof.
  destruct (sort_rows_support_last_fee_desc abc_rows abc_norm)
    as (out & Hout & Hperm & _).
  - exact normalize_abc_rows.
  - unfold abc_norm, norm_row. repeat constructor; by rewrite fee_of_mkrow.
  - exists out. split_and!; [exact Hout | exact Hperm |].
    rewrite sort_abc_rows in Hout. injection Hout as <-.
    unfold abc_sorted, norm_row. simpl. by rewrite !label_of_mkrow.
Defined.

Example sort_nan_rows : sort_rows_by_fee_desc nan_rows = Ok nan_sorted.
Proof. vm_cast_no_check (eq_refl (Ok nan_sorted)). Qed.

(** C2 as stated fails.  "Premium Support" ends with "Support", "Basic
    Support " with its trailing blank does not, and the first stays ahead
    of the second.  With a NaN fee between the fees 10 and 50 the rows stay
    as they are, the fee 10 ahead of the fee 50. *)
Lemma support_row_before_other_label :
  (exists out,
     sort_rows_by_fee_desc blank_rows = Ok out /\ ~ support_rows_last out)
  /\ (exists out,
        sort_rows_by_fee_desc nan_rows = Ok out /\ ~ other_fees_descend out).
Proof.
  split.
  - exists blank_sorted. split; [exact sort_blank_rows|].
    intros H.
    specialize (H 0%nat 1%nat (norm_row "Premium Support" (of_Z 10))
                  (norm_row "Basic Support " (of_Z 5))).
    unfold label_ends_support, norm_row in H. rewrite !label_of_mkrow in H.
    discriminate H; [lia | reflexivity | reflexivity | reflexivity].
  - exists nan_sorted. split; [exact sort_nan_rows|].
    intros H.
    specialize (H 0%nat 2%nat (norm_row "A" (of_Z 10))
                  (norm_row "C" (of_Z 50))).
    unfold label_ends_support, norm_row in H.
    rewrite !label_of_mkrow, !fee_of_mkrow in H.
    discriminate H; [lia | reflexivity..].
Qed.

End SortFacts.

(** ** Digits, separators and the amounts read back from their text *)

Module DigitFacts.
Import PyStr PyFloat Py Money Rows Shapes.

Lemma str_eqb_eq (a b : str) : str_eqb a b = true -> a = b.
Proof.
  revert b. induction a as [|x a IH]; intros [|y b]; cbn; try done.
  intros [Hx Hab]%andb_true_iff. apply N.eqb_eq in Hx. f_equal; auto.
Qed.

Lemma str_eqb_refl (a : str) : str_eqb a a = true.
Proof.
  induction a as [|x a IH]; [reflexivity|].
  cbn. unfold char_eqb. by rewrite N.eqb_refl, IH.
Qed.

Lemma str_eqb_neq (a b : str) : a <> b -> str_eqb a b = false.
Proof.
  intros H. destruct (str_eqb a b) eqn:E; [|reflexivity].
  by apply str_eqb_eq in E.
Qed.

Lemma replace_cons (old : char) (new : str) (c : char) (s : str) :
  replace old new (c :: s)
  = (if char_eqb c old then new else [c]) ++ replace old new s.
Proof. reflexivity. Qed.

Lemma replace_app (old : char) (new : str) (a b : str) :
  replace old new (a ++ b) = replace old new a ++ replace old new b.
Proof.
  induction a as [|c a IH]; [reflexivity|].
  cbn [app]. by rewrite !replace_cons, IH, app_assoc.
Qed.

Lemma replace_id (old : char) (new : str) (s : str) :
  Forall (fun c => char_eqb c old = false) s -> replace old new s = s.
Proof.
  induction 1 as [|c s Hc _ IH]; [reflexivity|].
  by rewrite replace_cons, Hc, IH.
Qed.

Lemma replace_reverse (old : char) (s : str) :
  replace old [] (reverse s) = reverse (replace old [] s).
Proof.
  induction s as [|c s IH]; [reflexivity|].
  rewrite reverse_cons, replace_app, IH, (replace_cons old [] c s).
  change (replace old [] [c])
    with ((if char_eqb c old then [] else [c]) ++ @nil char).
  destruct (char_eqb c old).
  - by rewrite !app_nil_r.
  - by rewrite reverse_app, app_nil_r.
Qed.

Lemma group3_rev_step (a b c d : char) (rest : str) :
  group3_rev (a :: b :: c :: d :: rest)
  = a :: b :: c :: 44%N :: group3_rev (d :: rest).
Proof. reflexivity. Qed.

Lemma replace_group3_rev (n : nat) (ds : str) :
  (length ds <= n)%nat ->
  replace 44%N [] (group3_rev ds) = replace 44%N [] ds.
Proof.
  revert ds. induction n as [|n IH]; intros ds Hlen.
  - destruct ds; [reflexivity | cbn in Hlen; lia].
  - destruct ds as [|a [|b [|c [|d rest]]]]; try reflexivity.
    rewrite group3_rev_step.
    rewrite 4!replace_cons, (IH (d :: rest)) by (cbn in Hlen |- *; lia).
    by rewrite 3!(replace_cons _ _ _ (_ :: _)).
Qed.

(** Taking the separators out of a grouped number gives the digits. *)
Lemma replace_group3 (ds : str) :
  Forall (fun c => char_eqb c 44%N = false) ds ->
  replace 44%N [] (group3 ds) = ds.
Proof.
  intros H. unfold group3.
  rewrite replace_reverse, (replace_group3_rev (length (reverse ds))) by lia.
  rewrite replace_reverse, reverse_involutive. by apply replace_id.
Qed.

Lemma group3_rev_chars (P : char -> Prop) (n : nat) (ds : str) :
  (length ds <= n)%nat -> P 44%N -> Forall P ds -> Forall P (group3_rev ds).
Proof.
  intros Hlen Hc. revert ds Hlen. induction n as [|n IH]; intros ds Hlen Hds.
  - destruct ds; [constructor | cbn in Hlen; lia].
  - destruct ds as [|a [|b [|c [|d rest]]]]; try exact Hds.
    rewrite group3_rev_step.
    inversion Hds as [|? ? Ha H1]; subst.
    inversion H1 as [|? ? Hb H2]; subst.
    inversion H2 as [|? ? Hc' H3]; subst.
    repeat (constructor; [assumption|]).
    apply IH; [cbn in Hlen |- *; lia | exact H3].
Qed.

Lemma group3_chars (P : char -> Prop) (ds : str) :
  P 44%N -> Forall P ds -> Forall P (group3 ds).
Proof.
  intros Hc Hds. unfold group3.
  apply Forall_reverse, (group3_rev_chars P (length (reverse ds)));
    [lia | exact Hc | by apply Forall_reverse].
Qed.

Lemma group3_rev_not_nil (ds : str) : ds <> [] -> group3_rev ds <> [].
Proof. by destruct ds as [|a [|b [|c [|d rest]]]]. Qed.

Lemma group3_not_nil (ds : str) : ds <> [] -> group3 ds <> [].
Proof.
  intros H. unfold group3. intros E.
  apply (f_equal reverse) in E. rewrite reverse_involutive in E.
  apply (group3_rev_not_nil (reverse ds)); [|exact E].
  intros E'. apply (f_equal reverse) in E'.
  by rewrite reverse_involutive in E'.
Qed.

(** *** Stripping *)

Lemma lstrip_head (s : str) (x : char) (r : str) :
  lstrip s = x :: r -> isspace x = false.
Proof.
  induction s as [|c s IH]; [discriminate|]. cbn.
  destruct (isspace c) eqn:Hc; [exact IH|]. by intros [= <- <-].
Qed.

Lemma lstrip_id (x : char) (r : str) :
  isspace x = false -> lstrip (x :: r) = x :: r.
Proof. intros H. cbn. by rewrite H. Qed.

Lemma rstrip_idem (s : str) : rstrip (rstrip s) = rstrip s.
Proof.
  induction s as [|c s IH]; [reflexivity|]. cbn [rstrip].
  destruct (rstrip s) as [|x r] eqn:Hr.
  - destruct (isspace c) eqn:Hc; [reflexivity|]. cbn. by rewrite Hc.
  - cbn [rstrip]. cbn [rstrip] in IH. by rewrite IH.
Qed.

Lemma strip_strip (s : str) : strip (strip s) = strip s.
Proof.
  unfold strip.
  destruct (rstrip (lstrip s)) as [|x r] eqn:Hr; [reflexivity|].
  destruct (PyStrFacts.rstrip_head _ _ _ Hr) as [t Ht].
  rewrite lstrip_id by (by eapply lstrip_head).
  by rewrite <- Hr, rstrip_idem.
Qed.

Lemma rstrip_no_space (s : str) :
  Forall (fun c => isspace c = false) s -> rstrip s = s.
Proof.
  induction 1 as [|c s Hc _ IH]; [reflexivity|].
  cbn [rstrip]. rewrite IH. destruct s; [by rewrite Hc | reflexivity].
Qed.

Lemma strip_no_space (s : str) :
  Forall (fun c => isspace c = false) s -> strip s = s.
Proof.
  intros H. unfold strip.
  destruct H as [|c s Hc Hs]; [reflexivity|].
  rewrite lstrip_id by exact Hc. apply rstrip_no_space. by constructor.
Qed.

(** *** Decimal digits *)

Lemma is_digit_bounds (c : char) :
  is_digit c = true <-> (48 <= c <= 57)%N.
Proof.
  unfold is_digit. rewrite andb_true_iff, !N.leb_le. tauto.
Qed.

Lemma digit_not_space (c : char) : is_digit c = true -> isspace c = false.
Proof.
  intros H%is_digit_bounds. unfold isspace.
  repeat match goal with
         | |- context [(?a <=? ?b)%N] =>
             destruct (N.leb_spec a b); try lia
         | |- context [(?a =? ?b)%N] =>
             destruct (N.eqb_spec a b); try lia
         end; reflexivity.
Qed.

Lemma digit_not_comma (c : char) :
  is_digit c = true -> char_eqb c 44%N = false.
Proof.
  intros H%is_digit_bounds. apply N.eqb_neq. lia.
Qed.

Lemma uint_chars_digits (u : Decimal.uint) :
  Forall (fun c => is_digit c = true) (uint_chars u).
Proof. induction u; cbn; constructor; done. Qed.

Lemma N_chars_digits (n : N) :
  Forall (fun c => is_digit c = true) (N_chars n).
Proof. apply uint_chars_digits. Qed.

Lemma N_chars_not_nil (n : N) : N_chars n <> [].
Proof.
  unfold N_chars. destruct n as [|p]; [discriminate|].
  cbn [N.to_uint].
  pose proof (DecimalPos.Unsigned.to_uint_nonnil p) as H.
  by destruct (Pos.to_uint p).
Qed.

Lemma digits_value_acc (u : Decimal.uint) (acc : positive) :
  foldl digit_step (Npos acc) (digit_val <$> uint_chars u)
  = Npos (Pos.of_uint_acc u acc).
Proof.
  revert acc. induction u; intros acc; cbn [uint_chars fmap list_fmap foldl];
    [reflexivity|..];
    match goal with
    | |- foldl _ ?a _ = _ =>
        match goal with
        | |- _ = N.pos (Pos.of_uint_acc (_ ?u') _) =>
            cbn [Pos.of_uint_acc];
            etransitivity; [|apply IHu]; f_equal;
            unfold digit_step, digit_val, digit_char; lia
        end
    end.
Qed.

Lemma digits_value_uint (u : Decimal.uint) :
  digits_value (digit_val <$> uint_chars u) = N.of_uint u.
Proof.
  unfold digits_value. change (fun acc d : N => (acc * 10 + d)%N) with digit_step.
  unfold N.of_uint.
  induction u; cbn [uint_chars fmap list_fmap foldl Pos.of_uint];
    [reflexivity | exact IHu |..];
    (etransitivity; [|apply digits_value_acc]); f_equal.
Qed.

(** The digits of a number read back as the number. *)
Lemma digits_value_N_chars (n : N) :
  digits_value (digit_val <$> N_chars n) = n.
Proof.
  unfold N_chars. rewrite digits_value_uint.
  apply DecimalN.Unsigned.of_to.
Qed.

Lemma all_digits_intro (s : str) :
  s <> [] -> Forall (fun c => is_digit c = true) s -> all_digits s = true.
Proof.
  intros Hne H. unfold all_digits. destruct s as [|c0 s0]; [done|].
  apply forallb_forall. intros x Hx.
  rewrite Forall_forall in H. by apply H, list_elem_of_In.
Qed.

Lemma digitpart_rest_digits (ds r : str) :
  Forall (fun c => is_digit c = true) ds -> digits_stop r ->
  digitpart_rest (ds ++ r) = Some (digit_val <$> ds, r).
Proof.
  intros Hds Hr. induction Hds as [|c ds Hc _ IH].
  - destruct r as [|c r]; [reflexivity|].
    destruct Hr as [Hd Hu]. cbn. by rewrite Hd, Hu.
  - cbn [app digitpart_rest]. by rewrite Hc, IH.
Qed.

Lemma opt_digitpart_digits (ds r : str) :
  Forall (fun c => is_digit c = true) ds -> digits_stop r ->
  opt_digitpart (ds ++ r) = Some (digit_val <$> ds, r).
Proof.
  intros Hds Hr. destruct Hds as [|c ds Hc Hds'].
  - destruct r as [|c r]; [reflexivity|].
    destruct Hr as [Hd Hu]. cbn. by rewrite Hd.
  - cbn [app opt_digitpart]. rewrite Hc.
    apply (digitpart_rest_digits (c :: ds)); [by constructor | exact Hr].
Qed.

Lemma digits_value_app (a b : list N) :
  digits_value (a ++ b)
  = foldl (fun acc d => acc * 10 + d)%N (digits_value a) b.
Proof. unfold digits_value. apply foldl_app. Qed.

Lemma digit_val_digit_char (n : N) : digit_val (digit_char n) = n.
Proof. unfold digit_val, digit_char. lia. Qed.

End DigitFacts.

(** ** Properties of the subscription period *)

Module CalendarFacts.
Import PyStr PyFloat Py Dates Calendar ValueFacts DigitFacts.

Lemma add_months_position (d : date) (months : Z) :
  add_months d months
  = make_date ((month_position d + months) / 12)
      ((month_position d + months) mod 12 + 1) 1.
Proof.
  unfold add_months, month_position. cbv zeta.
  replace (12 * year d + (month d - 1) + months)
    with (month d - 1 + months + year d * 12) by lia.
  rewrite Z.div_add, Z.mod_add by lia.
  f_equal. lia.
Qed.

Lemma make_first_day (y m : Z) :
  make_date y m 1
  = if (1 <=? y) && (y <=? 9999) && (1 <=? m) && (m <=? 12)
    then Ok (mkdate y m 1) else Raise ValueError.
Proof.
  unfold make_date.
  destruct ((1 <=? y) && (y <=? 9999) && (1 <=? m) && (m <=? 12)) eqn:E;
    [|reflexivity].
  pose proof (days_in_month_pos y m) as H.
  apply Z.leb_le in H. rewrite H. reflexivity.
Qed.

Lemma make_date_ok (y m d : Z) (r : date) :
  make_date y m d = Ok r ->
  r = mkdate y m d /\ 1 <= y <= 9999 /\ 1 <= m <= 12
  /\ 1 <= d <= days_in_month y m.
Proof.
  unfold make_date.
  destruct (_ && _) eqn:E; [|discriminate].
  intros [= <-].
  rewrite !andb_true_iff, !Z.leb_le in E. split; [reflexivity | lia].
Qed.

Lemma is_date_range (d : date) :
  is_date d ->
  1 <= year d <= 9999 /\ 1 <= month d <= 12
  /\ 1 <= day d <= days_in_month (year d) (month d).
Proof. intros H. apply make_date_ok in H. tauto. Qed.

Lemma is_date_intro (y m d : Z) :
  1 <= y <= 9999 -> 1 <= m <= 12 -> 1 <= d <= days_in_month y m ->
  is_date (mkdate y m d).
Proof.
  intros Hy Hm Hd. unfold is_date, make_date. cbn [year month day].
  replace (_ && _) with true; [reflexivity|].
  symmetry. rewrite !andb_true_iff, !Z.leb_le. lia.
Qed.

Lemma days_in_month_max (y m : Z) : days_in_month y m <= 31.
Proof.
  unfold days_in_month.
  destruct (m =? 2); [destruct (is_leap y); lia|].
  destruct (_ || _); lia.
Qed.

Lemma add_months_ok (d d' : date) (months : Z) :
  add_months d months = Ok d' ->
  d' = mkdate (year d') (month d') 1
  /\ 1 <= month d' <= 12 /\ 1 <= year d' <= 9999
  /\ month_position d' = month_position d + months.
Proof.
  rewrite add_months_position, make_first_day.
  set (k := month_position d + months).
  pose proof (Z.mod_pos_bound k 12 ltac:(lia)) as Hmod.
  pose proof (Z.div_mod k 12 ltac:(lia)) as Hdiv.
  destruct (_ && _) eqn:E; [|discriminate].
  intros [= <-].
  rewrite !andb_true_iff, !Z.leb_le in E.
  unfold month_position at 1. cbn [year month day].
  split; [reflexivity | lia].
Qed.

Lemma add_months_in_range (d : date) (months : Z) :
  12 <= month_position d + months < 120000 ->
  exists d', add_months d months = Ok d'.
Proof.
  intros Hk. rewrite add_months_position, make_first_day.
  set (k := month_position d + months) in *.
  pose proof (Z.mod_pos_bound k 12 ltac:(lia)) as Hmod.
  pose proof (Z.div_mod k 12 ltac:(lia)) as Hdiv.
  replace (_ && _) with true; [by eexists|].
  symmetry. rewrite !andb_true_iff, !Z.leb_le. lia.
Qed.

Lemma add_months_raises (d : date) (months : Z) (e : exn) :
  add_months d months = Raise e -> e = ValueError.
Proof. unfold add_months. apply make_date_raises. Qed.


(** X2.  Adding months in two steps is adding their sum: when the first
    step returns a date, the second step from it returns what one step
    over both numbers returns. *)
Theorem add_months_compose (d d' : date) (a b : Z) :
  add_months d a = Ok d' ->
  add_months d' b = add_months d (a + b).
Proof.
  intros H. rewrite (add_months_position d'), (add_months_position d (a + b)).
  apply add_months_ok in H as (_ & _ & _ & ->).
  by rewrite Z.add_assoc.
Qed.

Lemma add_months_compose_witness :
  add_months (mkdate 2025 11 17) 3 = Ok (mkdate 2026 2 1)
  /\ add_months (mkdate 2026 2 1) (-14) = add_months (mkdate 2025 11 17) (3 + -14).
Proof.
  split; [reflexivity|].
  apply (add_months_compose (mkdate 2025 11 17) (mkdate 2026 2 1) 3 (-14)).
  reflexivity.
Defined.

Lemma first_of_month_ok (d : date) :
  is_date d -> first_of_month d = Ok (mkdate (year d) (month d) 1).
Proof.
  intros (Hy & Hm & _)%is_date_range.
  unfold first_of_month. rewrite make_first_day.
  replace (_ && _) with true; [reflexivity|].
  symmetry. rewrite !andb_true_iff, !Z.leb_le. lia.
Qed.

Lemma date_leb_position (a b : date) :
  1 <= month a <= 12 -> 1 <= month b <= 12 ->
  month_position a < month_position b -> date_leb a b = true.
Proof.
  unfold month_position, date_leb. intros Ha Hb Hlt.
  destruct (year a <? year b) eqn:E1; [reflexivity|].
  apply Z.ltb_ge in E1.
  assert (year a = year b) as Hy by lia.
  rewrite Hy, Z.eqb_refl. cbn [orb andb].
  replace (month a <? month b) with true; [reflexivity|].
  symmetry. apply Z.ltb_lt. lia.
Qed.



(** X4.  For a calendar day [today], the default start of a subscription
    is the first day of the month after the month of [today], a day after
    [today]; [ValueError] is raised for a day of December 9999 only. *)
Theorem default_start_is_next_month (today : date) :
  is_date today ->
  match default_subscription_start_date today with
  | Ok d =>
      is_date d /\ day d = 1
      /\ month_position d = month_position today + 1
      /\ date_leb d today = false
  | Raise e => e = ValueError /\ year today = 9999 /\ month today = 12
  end.
Proof.
  intros Htoday. pose proof (is_date_range _ Htoday) as (Hy & Hm & Hd).
  unfold default_subscription_start_date.
  rewrite (first_of_month_ok _ Htoday).
  change (mbind ?f (Ok ?a)) with (f a). cbv beta.
  set (first := mkdate (year today) (month today) 1).
  destruct (add_months first 1) as [d|e] eqn:E.
  - apply add_months_ok in E as (Hshape & Hdm & Hdy & Hpos).
    change (month_position first) with (month_position today) in Hpos.
    split_and!.
    + rewrite Hshape. apply is_date_intro; [lia | lia |].
      pose proof (days_in_month_pos (year d) (month d)). lia.
    + by rewrite Hshape.
    + exact Hpos.
    + unfold month_position in Hpos. unfold date_leb.
      destruct (year d <? year today) eqn:E1;
        [apply Z.ltb_lt in E1; lia|].
      destruct (year d =? year today) eqn:E2; [|reflexivity].
      apply Z.eqb_eq in E2. cbn [orb andb].
      replace (month d <? month today) with false
        by (symmetry; apply Z.ltb_ge; lia).
      replace (month d =? month today) with false
        by (symmetry; apply Z.eqb_neq; lia).
      reflexivity.
  - split; [by eapply add_months_raises|].
    destruct (Z_lt_dec (month_position first + 1) 120000) as [Hlt|Hge].
    + destruct (add_months_in_range first 1) as [d' Hd'];
        [subst first; unfold month_position in *; cbn [year month] in *; lia
        | congruence].
    + subst first. unfold month_position in Hge. cbn [year month] in Hge.
      lia.
Qed.

Lemma default_start_is_next_month_witness :
  default_subscription_start_date (mkdate 2025 12 31) = Ok (mkdate 2026 1 1)
  /\ is_date (mkdate 2026 1 1).
Proof.
  split; [reflexivity|].
  pose proof (default_start_is_next_month (mkdate 2025 12 31) eq_refl) as H.
  exact (proj1 H).
Defined.

Lemma is_digit_digit_char (n : N) :
  (n < 10)%N -> is_digit (digit_char n) = true.
Proof.
  intros H. unfold is_digit, digit_char.
  apply andb_true_iff. split; apply N.leb_le; lia.
Qed.

Lemma dv_digit_char (n : N) : dv (digit_char n) = Z.of_N n.
Proof. unfold dv, digit_val, digit_char. lia. Qed.

Lemma month_alternatives (m : Z) (f : fields) (r : str) :
  1 <= m <= 12 ->
  exists more,
    alternatives Dm f (two_digits m ++ r)
    = (mkfields (fY f) m (fd f), r) :: more.
Proof.
  intros Hm.
  assert (m = 1 \/ m = 2 \/ m = 3 \/ m = 4 \/ m = 5 \/ m = 6 \/ m = 7
          \/ m = 8 \/ m = 9 \/ m = 10 \/ m = 11 \/ m = 12) as Hcases by lia.
  repeat destruct Hcases as [->|Hcases]; try subst m;
    eexists; reflexivity.
Qed.

Lemma day_alternatives (d : Z) (f : fields) (r : str) :
  1 <= d <= 31 ->
  exists more,
    alternatives Dd f (two_digits d ++ r)
    = (mkfields (fY f) (fm f) d, r) :: more.
Proof.
  intros Hd.
  assert (Hcases : In d (seqZ 1 31))
    by (apply list_elem_of_In, elem_of_seqZ; lia).
  cbn in Hcases.
  repeat destruct Hcases as [<-|Hcases]; try (eexists; reflexivity).
  destruct Hcases.
Qed.

Lemma year_alternatives (y : Z) (f : fields) :
  0 <= y <= 9999 ->
  alternatives DY f (four_digits y) = [(mkfields y (fm f) (fd f), [])].
Proof.
  intros Hy. unfold four_digits, alternatives.
  pose proof (Z.div_mod y 1000 ltac:(lia)).
  pose proof (Z.mod_pos_bound y 1000 ltac:(lia)).
  pose proof (Z.mod_pos_bound y 10 ltac:(lia)).
  pose proof (Z.mod_pos_bound (y / 10) 10 ltac:(lia)).
  pose proof (Z.mod_pos_bound (y / 100) 10 ltac:(lia)).
  assert (0 <= y / 1000 < 10)
    by (split; [apply Z.div_pos; lia | apply Z.div_lt_upper_bound; lia]).
  rewrite !is_digit_digit_char by lia. cbn [andb].
  rewrite !dv_digit_char, !Z2N.id by lia.
  do 2 f_equal. f_equal.
  pose proof (Z.div_mod y 10 ltac:(lia)).
  pose proof (Z.div_mod (y / 10) 10 ltac:(lia)).
  pose proof (Z.div_mod (y / 100) 10 ltac:(lia)).
  assert (y / 10 / 10 = y / 100)
    by (rewrite Z.div_div by lia; reflexivity).
  assert (y / 100 / 10 = y / 1000)
    by (rewrite Z.div_div by lia; reflexivity).
  lia.
Qed.

Lemma four_digit_year_text :
  forallb (fun y => str_eqb (Z_chars y) (four_digits y)) four_digit_years
  = true.
Proof. vm_compute. reflexivity. Qed.

Lemma year_text_four (pad_year : bool) (y : Z) :
  pad_year = true \/ 1000 <= y -> 1 <= y <= 9999 ->
  year_text pad_year y = four_digits y.
Proof.
  intros Hpad Hy. unfold year_text.
  destruct pad_year; [reflexivity|].
  destruct Hpad as [|Hlow]; [discriminate|].
  pose proof four_digit_year_text as Hall.
  rewrite forallb_forall in Hall.
  apply str_eqb_eq, Hall, list_elem_of_In, elem_of_seqZ. lia.
Qed.

(** X5.  The text [display_date] prints for a calendar day is read back by
    [parse_date] as the same day, whatever today is.  This holds for every
    day on a platform that pads the year to four digits, and from year 1000
    on elsewhere. *)
Theorem parse_date_reads_display_date (pad_year : bool) (today d : date) :
  is_date d ->
  pad_year = true \/ 1000 <= year d ->
  parse_date today (display_date pad_year d) = Ok d.
Proof.
  intros Hd Hpad. pose proof (is_date_range _ Hd) as (Hy & Hm & Hday).
  pose proof (days_in_month_max (year d) (month d)) as Hmax.
  unfold display_date. rewrite (year_text_four _ _ Hpad Hy).
  assert (Hdash : strptime (two_digits (month d) ++ py "/"
                    ++ two_digits (day d) ++ py "/" ++ four_digits (year d))
                    fmt_ymd_dash = Raise ValueError).
  { unfold strptime, fmt_ymd_dash, match_format, alternatives, two_digits.
    cbn [app py fmap list_fmap list_ascii_of_string]. 
    change (is_digit (N_of_ascii "/")) with false.
    by rewrite andb_false_r. }
  assert (Hslash : strptime (two_digits (month d) ++ py "/"
                     ++ two_digits (day d) ++ py "/" ++ four_digits (year d))
                     fmt_mdy_slash = Ok d).
  { unfold strptime, fmt_mdy_slash.
    destruct (month_alternatives (month d) (mkfields 1900 1 1)
                (py "/" ++ two_digits (day d) ++ py "/"
                   ++ four_digits (year d)) Hm) as [more1 H1].
    destruct (day_alternatives (day d) (mkfields 1900 (month d) 1)
                (py "/" ++ four_digits (year d)) ltac:(lia)) as [more2 H2].
    cbn [match_format]. rewrite H1. cbn [first_some fst snd].
    cbn [match_format]. 
    change (alternatives (Lit 47%N) ?f (py "/" ++ ?r)) with [(f, r)].
    cbn [first_some fst snd fY fm fd].
    rewrite H2. cbn [first_some fst snd fY fm fd].
    change (alternatives (Lit 47%N) ?f (py "/" ++ ?r)) with [(f, r)].
    cbn [first_some fst snd fY fm fd].
    rewrite year_alternatives by lia.
    cbn [first_some fst snd fY fm fd].
    exact Hd. }
  unfold parse_date.
  destruct (two_digits (month d) ++ _) as [|c rest] eqn:E;
    [discriminate E|].
  unfold accepted_formats. cbn [try_formats].
  rewrite Hdash. cbn [try_except exn_eqb]. by rewrite Hslash.
Qed.

Lemma parse_date_reads_display_date_witness :
  display_date false (mkdate 2025 3 9) = py "03/09/2025"
  /\ parse_date (mkdate 2000 1 1) (py "03/09/2025") = Ok (mkdate 2025 3 9).
Proof.
  split; [reflexivity|].
  apply (parse_date_reads_display_date false (mkdate 2000 1 1)
           (mkdate 2025 3 9)); [reflexivity | right; cbn; lia].
Defined.

End CalendarFacts.

(** ** Amounts and whole numbers through their text *)

Module AmountFacts.
Import PyStr PyFloat Py Money Rows Check ValueFacts DigitFacts Shapes.

Lemma upper_not_na (s : str) :
  Forall digit_or_comma s -> str_eqb (upper s) (py "N/A") = false.
Proof.
  intros [|c s' Hc _]; [reflexivity|].
  cbn. replace (char_eqb (upper_char c) _) with false; [reflexivity|].
  symmetry. apply N.eqb_neq. unfold upper_char.
  destruct Hc as [Hc%is_digit_bounds| ->]; [|by cbn].
  replace ((97 <=? c)%N) with false by (symmetry; apply N.leb_gt; lia).
  cbn. lia.
Qed.

Lemma digits_are_digit_or_comma (s : str) :
  Forall (fun c => is_digit c = true) s -> Forall digit_or_comma s.
Proof. intros H. eapply Forall_impl; [exact H|]. intros c Hc. by left. Qed.

Lemma grouped_chars (n : N) : Forall digit_or_comma (group3 (N_chars n)).
Proof.
  apply group3_chars; [by right|].
  apply digits_are_digit_or_comma, N_chars_digits.
Qed.

Lemma digit_or_comma_no_space (s : str) :
  Forall digit_or_comma s -> Forall (fun c => isspace c = false) s.
Proof.
  intros H. eapply Forall_impl; [exact H|].
  intros c [Hc| ->]; [by apply digit_not_space | done].
Qed.

Lemma digits_no_comma (s : str) :
  Forall (fun c => is_digit c = true) s ->
  Forall (fun c => char_eqb c 44%N = false) s.
Proof.
  intros H. eapply Forall_impl; [exact H|]. intros c. apply digit_not_comma.
Qed.

(** The text of a grouped number, cleaned as [parse_whole_number] and
    [is_whole_number] clean it, is the digits of the number. *)
Lemma cleaned_grouped (n : N) :
  strip (replace 44%N [] (group3 (N_chars n))) = N_chars n.
Proof.
  rewrite replace_group3 by apply digits_no_comma, N_chars_digits.
  apply strip_no_space, digit_or_comma_no_space, digits_are_digit_or_comma,
    N_chars_digits.
Qed.

Lemma cleaned_digits (n : N) :
  strip (replace 44%N [] (N_chars n)) = N_chars n.
Proof.
  rewrite replace_id by apply digits_no_comma, N_chars_digits.
  apply strip_no_space, digit_or_comma_no_space, digits_are_digit_or_comma,
    N_chars_digits.
Qed.

Lemma parse_whole_number_grouped (n : N) :
  parse_whole_number (VStr (group3 (N_chars n))) = n.
Proof.
  unfold parse_whole_number. cbn [py_str]. rewrite cleaned_grouped.
  rewrite all_digits_intro
    by (apply N_chars_not_nil || apply N_chars_digits).
  apply digits_value_N_chars.
Qed.

Lemma parse_whole_number_digits (n : N) :
  parse_whole_number (VStr (N_chars n)) = n.
Proof.
  unfold parse_whole_number. cbn [py_str]. rewrite cleaned_digits.
  rewrite all_digits_intro
    by (apply N_chars_not_nil || apply N_chars_digits).
  apply digits_value_N_chars.
Qed.

(** The branch of [format_usage_commitment_value] that prints a number. *)
Lemma format_usage_number (raw : str) (n : N) :
  strip raw = raw -> raw <> [] ->
  str_eqb (upper raw) (py "N/A") = false ->
  parse_whole_number (VStr raw) = n ->
  (n = 0%N -> raw = py "0" \/ raw = py "0.0" \/ raw = py "0.00") ->
  format_usage_commitment_value (VStr raw) = group3 (N_chars n).
Proof.
  intros Hstrip Hne Hna Hparse Hzero.
  unfold format_usage_commitment_value. cbn [py_str].
  rewrite Hstrip, Hna, (str_eqb_neq raw []) by exact Hne.
  cbn [orb]. rewrite Hparse.
  destruct (n <=? 0)%N eqn:E; [|reflexivity].
  apply N.leb_le in E. assert (n = 0%N) as Hn by lia.
  destruct (Hzero Hn) as [-> | [-> | ->]]; subst n; reflexivity.
Qed.


(** X7.  [format_usage_commitment_value] is idempotent: formatting a text
    it has returned returns the same text. *)
Theorem format_usage_idempotent (value : pyval) :
  format_usage_commitment_value
    (VStr (format_usage_commitment_value value))
  = format_usage_commitment_value value.
Proof.
  unfold format_usage_commitment_value at 2 3.
  set (raw := strip (py_str value)).
  destruct (str_eqb raw []) eqn:Hnil.
  - cbn [orb]. destruct (str_eqb (upper raw) (py "N/A")); reflexivity.
  - cbn [orb]. destruct (str_eqb (upper raw) (py "N/A")) eqn:Hna;
      [reflexivity|].
    set (parsed := parse_whole_number (VStr raw)).
    destruct ((parsed <=? 0)%N && _) eqn:Hkeep.
    + unfold format_usage_commitment_value. cbn [py_str].
      assert (strip raw = raw) as -> by apply strip_strip.
      rewrite Hnil, Hna. cbn [orb]. fold parsed. by rewrite Hkeep.
    + apply format_usage_number.
      * apply strip_no_space, digit_or_comma_no_space, grouped_chars.
      * apply group3_not_nil, N_chars_not_nil.
      * apply upper_not_na, grouped_chars.
      * apply parse_whole_number_grouped.
      * intros ->. by left.
Qed.

(** *** The text of an amount *)

Lemma money_char_no_space (s : str) :
  Forall money_char s -> Forall (fun c => isspace c = false) s.
Proof.
  intros H. eapply Forall_impl; [exact H|].
  intros c [Hc|[->|[->| ->]]]; [by apply digit_not_space | done..].
Qed.

Lemma money_char_no_dollar (s : str) :
  Forall money_char s -> Forall (fun c => char_eqb c 36%N = false) s.
Proof.
  intros H. eapply Forall_impl; [exact H|].
  intros c [Hc%is_digit_bounds|[->|[->| ->]]]; [|done..].
  apply N.eqb_neq. lia.
Qed.

Lemma Forall_one {A} (P : A -> Prop) (x : A) : P x -> Forall P [x].
Proof. intros H. by constructor. Qed.

Lemma Forall_two {A} (P : A -> Prop) (x y : A) :
  P x -> P y -> Forall P [x; y].
Proof. intros Hx Hy. by repeat (constructor; [assumption|]). Qed.

Lemma sign_text_chars (s : bool) : Forall money_char (sign_text s).
Proof.
  destruct s; [|constructor].
  apply Forall_one. right; right; by left.
Qed.

Lemma digit_char_is_digit (n : N) :
  (n < 10)%N -> is_digit (digit_char n) = true.
Proof.
  intros H. apply is_digit_bounds. unfold digit_char. lia.
Qed.

Lemma fraction_digits (c : N) :
  is_digit (digit_char (c mod 100 / 10)) = true
  /\ is_digit (digit_char ((c mod 100) mod 10)) = true.
Proof.
  pose proof (N.mod_upper_bound c 100 ltac:(lia)).
  pose proof (N.mod_upper_bound (c mod 100) 10 ltac:(lia)).
  split; apply digit_char_is_digit; [|lia].
  apply N.Div0.div_lt_upper_bound. lia.
Qed.

Lemma cents_text_chars (c : N) : Forall money_char (cents_text c).
Proof.
  destruct (fraction_digits c) as [H1 H2].
  unfold cents_text. cbv zeta. rewrite !Forall_app. split_and!.
  - eapply Forall_impl; [apply grouped_chars|].
    intros x [Hx| ->]; [by left | right; by left].
  - apply Forall_one. right; right; by right.
  - apply Forall_two; by left.
Qed.

(** What is left of the text of an amount when the dollar sign and the
    separators are taken out. *)
Lemma cleaned_money_text (s : bool) (c : N) :
  cleaned_amount (VStr (py "$" ++ sign_text s ++ cents_text c))
  = sign_text s ++ N_chars (c / 100) ++ py "."
      ++ [digit_char (c mod 100 / 10); digit_char ((c mod 100) mod 10)].
Proof.
  destruct (fraction_digits c) as [H1 H2].
  unfold cleaned_amount. cbn [py_str].
  change (py "$" ++ ?r) with (36%N :: r).
  rewrite replace_cons. change (char_eqb 36%N 36%N) with true. cbn [app].
  rewrite (replace_id 36%N)
    by (apply money_char_no_dollar, Forall_app;
        split; [apply sign_text_chars | apply cents_text_chars]).
  unfold cents_text. cbv zeta.
  rewrite !replace_app.
  rewrite replace_group3 by apply digits_no_comma, N_chars_digits.
  rewrite (replace_id _ _ (sign_text s))
    by (destruct s; [by apply Forall_one | constructor]).
  rewrite (replace_id _ _ (py ".")) by (by apply Forall_one).
  rewrite (replace_id _ _ [_; _])
    by (apply Forall_two; by apply digit_not_comma).
  apply strip_no_space, money_char_no_space.
  rewrite !Forall_app. split_and!.
  - apply sign_text_chars.
  - eapply Forall_impl; [apply N_chars_digits|]. intros x Hx. by left.
  - apply Forall_one. right; right; by right.
  - apply Forall_two; by left.
Qed.

Lemma digit_head_not_word (c : char) (r : str) (w : string) (x : ascii)
  (w' : string) :
  is_digit c = true -> w = String x w' ->
  (N_of_ascii x <? 48)%N || (57 <? N_of_ascii x)%N = true ->
  str_eqb (lower (c :: r)) (py w) = false.
Proof.
  intros Hc%is_digit_bounds -> Hx. cbn.
  replace (char_eqb (lower_char c) (N_of_ascii x)) with false; [reflexivity|].
  symmetry. apply N.eqb_neq. unfold lower_char.
  replace ((65 <=? c)%N) with false by (symmetry; apply N.leb_gt; lia).
  cbn [andb]. apply orb_true_iff in Hx as [Hx%N.ltb_lt|Hx%N.ltb_lt]; lia.
Qed.

(** [float] on the digits of an amount in cents. *)
Lemma float_of_cents_text (s : bool) (c : N) :
  float_of_str
    (sign_text s ++ N_chars (c / 100) ++ py "."
       ++ [digit_char (c mod 100 / 10); digit_char ((c mod 100) mod 10)])
  = Some (of_decimal s c (-2)).
Proof.
  destruct (fraction_digits c) as [H1 H2].
  set (body := N_chars (c / 100) ++ py "."
               ++ [digit_char (c mod 100 / 10);
                   digit_char ((c mod 100) mod 10)]).
  assert (Hbody : exists d r, body = d :: r /\ is_digit d = true).
  { pose proof (N_chars_not_nil (c / 100)) as Hne.
    pose proof (N_chars_digits (c / 100)) as Hds.
    unfold body. destruct (N_chars (c / 100)) as [|d ds]; [done|].
    inversion Hds; subst. by eexists _, _. }
  destruct Hbody as (d & r & Hbody & Hd).
  assert (Hclean : strip (sign_text s ++ body) = sign_text s ++ body).
  { apply strip_no_space, money_char_no_space. rewrite Forall_app.
    split; [apply sign_text_chars|]. unfold body.
    rewrite !Forall_app. split_and!.
    - eapply Forall_impl; [apply N_chars_digits|]. intros x Hx. by left.
    - apply Forall_one. right; right; by right.
    - apply Forall_two; by left. }
  unfold float_of_str. rewrite Hclean.
  assert (Hsign : parse_sign (sign_text s ++ body) = (s, body)).
  { destruct s; [reflexivity|]. cbn [sign_text app]. rewrite Hbody.
    apply is_digit_bounds in Hd. unfold parse_sign.
    destruct d as [|p]; [lia|].
    do 6 (destruct p as [p|p|]; try reflexivity; try lia). }
  rewrite Hsign. rewrite Hbody.
  rewrite (digit_head_not_word d r "inf" "i" "nf" Hd eq_refl eq_refl).
  rewrite (digit_head_not_word d r "infinity" "i" "nfinity" Hd eq_refl eq_refl).
  rewrite (digit_head_not_word d r "nan" "n" "an" Hd eq_refl eq_refl).
  cbn [orb]. rewrite <- Hbody. unfold parse_number, body.
  rewrite opt_digitpart_digits; [|apply N_chars_digits | by split].
  change (py "." ++ ?x) with (46%N :: x).
  cbv beta iota.
  pose proof (opt_digitpart_digits
                [digit_char (c mod 100 / 10); digit_char ((c mod 100) mod 10)]
                [] (Forall_two _ _ _ H1 H2) I) as Hfp.
  cbn [app] in Hfp. rewrite Hfp. clear Hfp.
  cbn [fmap list_fmap length].
  destruct (digit_val <$> N_chars (c / 100)) as [|v vs] eqn:Hv.
  { pose proof (N_chars_not_nil (c / 100)).
    by destruct (N_chars (c / 100)). }
  rewrite <- Hv. clear Hv.
  destruct ((digit_val <$> N_chars (c / 100)) ++ _) as [|w ws] eqn:Hw.
  { by destruct (digit_val <$> N_chars (c / 100)). }
  rewrite <- Hw. clear Hw. cbn [parse_exponent]. f_equal.
  rewrite digits_value_app, digits_value_N_chars. cbn [foldl].
  rewrite !digit_val_digit_char. f_equal.
  pose proof (N.Div0.div_mod c 100).
  pose proof (N.Div0.div_mod (c mod 100) 10).
  lia.
Qed.

Lemma money_text_reads_back (x : float) :
  parsed_or_zero (fmt_money x) = rounded_to_cents x.
Proof.
  unfold parsed_or_zero, fmt_money.
  destruct x as [s|s| |s m e].
  - change (format_comma_2f (S754_zero s))
      with (sign_text s ++ cents_text 0).
    rewrite cleaned_money_text, float_of_cents_text. reflexivity.
  - by destruct s.
  - reflexivity.
  - change (format_comma_2f (S754_finite s m e))
      with (sign_text s
            ++ cents_text (Z.to_N (round_hundredths (Z.pos m) e))).
    rewrite cleaned_money_text, float_of_cents_text.
    unfold rounded_to_cents, cents. cbn [value sign_bit fst snd].
    by destruct s.
Qed.

(** X8.  The fee text that [format_fee_display] shows for a value reads
    back, with [normalize_fee_value] and with [safe_money], as the fee
    rounded to cents: the double nearest to the amount shown.  Infinities
    and NaN read back as themselves. *)
Theorem fee_display_reads_back (value : pyval) (fee : float) :
  normalize_fee_value value = Ok fee ->
  format_fee_display value = Ok (fmt_money fee)
  /\ normalize_fee_value (VStr (fmt_money fee)) = Ok (rounded_to_cents fee)
  /\ safe_money (VStr (fmt_money fee)) = Ok (rounded_to_cents fee).
Proof.
  intros H. split_and!.
  - unfold format_fee_display. by rewrite H.
  - by rewrite normalize_fee_value_str, money_text_reads_back.
  - by rewrite safe_money_str, money_text_reads_back.
Qed.

Lemma fee_display_reads_back_witness :
  format_fee_display (VStr (py "1234.567")) = Ok (py "$1,234.57")
  /\ normalize_fee_value (VStr (py "$1,234.57"))
     = Ok (of_decimal false 123457 (-2)).
Proof.
  destruct (fee_display_reads_back (VStr (py "1234.567"))
              (of_decimal false 1234567 (-3)))
    as (H1 & H2 & _).
  - vm_compute. reflexivity.
  - split; [exact H1 | exact H2].
Defined.

(** X9.  Every reader of a fee text agrees on it.  [is_numeric_amount]
    accepts the text exactly when [float] reads a number in it once the
    dollar signs, the commas and the surrounding blanks are taken out;
    [parse_numeric_value], [normalize_fee_value] and [safe_money] then
    return that number.  On a text that is not accepted
    [parse_numeric_value] returns [None] and the other two return 0.0. *)
Theorem fee_text_readers_agree (text : str) :
  normalize_fee_value (VStr text) = safe_money (VStr text)
  /\ match float_of_str (cleaned_amount (VStr text)) with
     | Some fee =>
         is_numeric_amount (VStr text) = Ok true
         /\ parse_numeric_value (VStr text) = Ok (Some fee)
         /\ normalize_fee_value (VStr text) = Ok fee
     | None =>
         is_numeric_amount (VStr text) = Ok false
         /\ parse_numeric_value (VStr text) = Ok None
         /\ normalize_fee_value (VStr text) = Ok zero
     end.
Proof.
  split; [by rewrite normalize_fee_value_str, safe_money_str|].
  rewrite normalize_fee_value_str.
  unfold is_numeric_amount, parse_numeric_value, parsed_or_zero.
  destruct (cleaned_amount (VStr text)) as [|c cl] eqn:Hc.
  - by rewrite float_of_str_empty.
  - unfold float_of_text. by destruct (float_of_str (c :: cl)).
Qed.

End AmountFacts.

(** ** Normalized rows and their order *)

Module RowFacts.
Import PyStr PyFloat Py Money Rows Order Stated Shapes.
Import ValueFacts TableFacts TotalFacts OrderFacts SortFacts.
Import DigitFacts AmountFacts.

Lemma get_period_mkrow (p s u un : str) (fee : float) (d : pyval) :
  get (mkrow p s u un fee) "subscription_period" d = VStr p.
Proof. unfold get, mkrow. by rewrite lookup_insert_eq. Qed.

Lemma get_service_mkrow (p s u un : str) (fee : float) (d : pyval) :
  get (mkrow p s u un fee) "service" d = VStr s.
Proof.
  unfold get, mkrow. rewrite lookup_insert_ne by key_ne.
  by rewrite lookup_insert_eq.
Qed.

Lemma get_usage_mkrow (p s u un : str) (fee : float) (d : pyval) :
  get (mkrow p s u un fee) "annual_usage_commitment" d = VStr u.
Proof.
  unfold get, mkrow. rewrite !lookup_insert_ne by key_ne.
  by rewrite lookup_insert_eq.
Qed.

Lemma get_unit_mkrow (p s u un : str) (fee : float) (d : pyval) :
  get (mkrow p s u un fee) "unit" d = VStr un.
Proof.
  unfold get, mkrow. rewrite !lookup_insert_ne by key_ne.
  by rewrite lookup_insert_eq.
Qed.

(** Normalizing a row of the five lower-case fields formats its usage
    entry and leaves the rest. *)
Lemma normalize_row_of_mkrow (p s u un : str) (fee : float) :
  normalize_row (mkrow p s u un fee)
  = Ok (mkrow p s (format_usage_commitment_value (VStr u)) un fee).
Proof.
  unfold normalize_row.
  rewrite get_period_mkrow, get_service_mkrow, get_usage_mkrow,
    get_unit_mkrow, get_fee_mkrow.
  reflexivity.
Qed.

Lemma normalize_row_normalized (raw r : row) :
  normalize_row raw = Ok r -> normalized r.
Proof.
  unfold normalize_row.
  destruct (normalize_fee_value _) as [fee|e]; [|discriminate].
  rewrite bind_ok. intros [= <-]. by do 5 eexists.
Qed.

Lemma normalize_row_fixed (r : row) :
  normalized r -> normalize_row r = Ok r.
Proof.
  intros (p & s & v & un & fee & ->).
  by rewrite normalize_row_of_mkrow, format_usage_idempotent.
Qed.

Lemma normalize_rows_normalized (rows norm : list row) :
  normalize_service_rows rows = Ok norm -> Forall normalized norm.
Proof.
  unfold normalize_service_rows. revert norm.
  induction rows as [|raw rows IH]; intros norm.
  - intros [= <-]. constructor.
  - cbn [mapM]. destruct (normalize_row raw) as [r|e] eqn:Hr; [|discriminate].
    rewrite bind_ok.
    destruct (mapM normalize_row rows) as [rs|e]; [|discriminate].
    rewrite bind_ok. intros [= <-].
    constructor; [by eapply normalize_row_normalized | by apply IH].
Qed.

Lemma normalize_rows_fixed (norm : list row) :
  Forall normalized norm -> normalize_service_rows norm = Ok norm.
Proof.
  intros H. unfold normalize_service_rows.
  rewrite (mapM_ok_fmap normalize_row id norm).
  - by rewrite list_fmap_id.
  - eapply Forall_impl; [exact H|]. intros r Hr.
    by apply normalize_row_fixed.
Qed.

(** X10.  [normalize_service_rows] is idempotent: normalizing the rows it
    has returned returns them unchanged. *)
Theorem normalize_rows_idempotent (rows norm : list row) :
  normalize_service_rows rows = Ok norm ->
  normalize_service_rows norm = Ok norm.
Proof.
  intros H. by apply normalize_rows_fixed, (normalize_rows_normalized rows).
Qed.

Lemma normalize_rows_idempotent_witness :
  normalize_service_rows example_rows = Ok example_norm
  /\ normalize_service_rows example_norm = Ok example_norm.
Proof.
  split; [exact TotalRowFacts.normalize_example_rows|].
  apply (normalize_rows_idempotent example_rows).
  exact TotalRowFacts.normalize_example_rows.
Defined.

Lemma normalize_fee_value_raises (v : pyval) (e : exn) :
  normalize_fee_value v = Raise e -> e = OverflowError /\ Check.too_large v.
Proof.
  destruct v as [|b|z|f|s].
  - discriminate.
  - by destruct b.
  - cbn [normalize_fee_value]. unfold float_of_int.
    destruct (is_finite (of_Z z)) eqn:E; [discriminate|].
    intros [= <-]. split; [reflexivity|]. by exists z.
  - discriminate.
  - by rewrite (normalize_fee_value_str s).
Qed.

Lemma normalize_fee_value_too_large (v : pyval) :
  Check.too_large v -> normalize_fee_value v = Raise OverflowError.
Proof.
  intros (z & -> & Hz). cbn [normalize_fee_value]. unfold float_of_int.
  by rewrite Hz.
Qed.

Lemma normalize_row_outcome (raw : row) :
  match normalize_row raw with
  | Ok r => normalized r /\ ~ Check.too_large (Check.fee_entry raw)
  | Raise e => e = OverflowError /\ Check.too_large (Check.fee_entry raw)
  end.
Proof.
  unfold normalize_row. fold (Check.fee_entry raw).
  destruct (normalize_fee_value (Check.fee_entry raw)) as [fee|e] eqn:E.
  - rewrite bind_ok. split; [by do 5 eexists|].
    intros H%normalize_fee_value_too_large. congruence.
  - by apply normalize_fee_value_raises.
Qed.


(** *** Sorting again *)

Lemma sort_sorted_id {K A} (lt : K -> K -> bool) (l : list (K * A)) :
  keys_sorted lt l -> sort_decorated lt l = l.
Proof.
  unfold keys_sorted, sort_decorated.
  induction 1 as [|x l Hs IH Hx]; [reflexivity|].
  cbn [foldr]. rewrite IH.
  destruct l as [|y l']; [reflexivity|].
  cbn [insert_sorted]. inversion Hx as [|? ? Hy _]; subst.
  by rewrite Hy.
Qed.

Lemma normalized_mkrow (r : row) :
  normalized r -> exists p s u un fee, r = mkrow p s u un fee.
Proof. intros (p & s & v & un & fee & ->). by do 5 eexists. Qed.

(** X12.  Sorting is idempotent: when no fee is NaN,
    [sort_rows_by_fee_desc] returns the rows it has returned unchanged. *)
Theorem sort_rows_idempotent (rows out : list row) :
  sort_rows_by_fee_desc rows = Ok out ->
  Forall (fun r => is_nan (fee_of r) = false) out ->
  sort_rows_by_fee_desc out = Ok out.
Proof.
  unfold sort_rows_by_fee_desc at 1.
  destruct (normalize_service_rows rows) as [norm|e] eqn:Hnorm;
    [|discriminate].
  rewrite bind_ok. unfold sorted.
  pose proof (normalize_rows_normalized _ _ Hnorm) as Hshape.
  rewrite (decorate_rows norm)
    by (eapply Forall_impl; [exact Hshape | apply normalized_mkrow]).
  rewrite bind_ok. intros [= <-].
  set (sd := sort_decorated key_lt (decorate <$> norm)).
  assert (Hperm : sd ≡ₚ decorate <$> norm) by apply sort_decorated_perm.
  intros Hnan.
  assert (Hkeys : Forall (fun d => fst d = key_of (snd d)) sd)
    by (by apply (decorated_keys norm)).
  assert (Hout : Forall normalized (snd <$> sd)).
  { rewrite Hperm, <- list_fmap_compose.
    change (snd ∘ decorate) with (@id row). by rewrite list_fmap_id. }
  assert (Hdec : decorate <$> (snd <$> sd) = sd).
  { rewrite <- list_fmap_compose. clear -Hkeys.
    induction Hkeys as [|[k r] l Hk _ IH]; [reflexivity|].
    cbn [fmap list_fmap compose snd]. cbn in Hk. subst k.
    f_equal. exact IH. }
  assert (Hnn : Forall (fun d : (bool * float) * row => not_nan_key (fst d))
                  (decorate <$> norm)).
  { rewrite <- Hperm. rewrite Forall_fmap in Hnan.
    rewrite Forall_forall in Hnan, Hkeys. apply Forall_forall.
    intros [k r] Hd. pose proof (Hnan _ Hd) as Hr.
    pose proof (Hkeys _ Hd) as Hk. cbn in Hr, Hk |- *. subst k.
    unfold not_nan_key, key_of. cbn [snd]. by rewrite is_nan_fneg. }
  assert (Hsorted : keys_sorted key_lt sd).
  { apply (sort_decorated_sorted key_lt not_nan_key);
      [apply key_lt_asym | apply key_lt_negtrans | exact Hnn]. }
  unfold sort_rows_by_fee_desc, sorted.
  rewrite (normalize_rows_fixed _ Hout), bind_ok.
  rewrite (decorate_rows (snd <$> sd))
    by (eapply Forall_impl; [exact Hout | apply normalized_mkrow]).
  rewrite bind_ok, Hdec. by rewrite (sort_sorted_id _ _ Hsorted).
Qed.

Lemma sort_rows_idempotent_witness :
  sort_rows_by_fee_desc abc_rows = Ok abc_sorted
  /\ sort_rows_by_fee_desc abc_sorted = Ok abc_sorted.
Proof.
  split; [exact SortFacts.sort_abc_rows|].
  apply (sort_rows_idempotent abc_rows abc_sorted SortFacts.sort_abc_rows).
  repeat constructor.
Defined.

End RowFacts.

(** ** Products, special terms *)

Module ProductFacts.
Import PyStr PyFloat Py Money Rows Check Products Shapes.
Import ValueFacts TableFacts TotalFacts DigitFacts AmountFacts RowFacts.

Lemma mem_elem_of (x : str) (items : list str) :
  mem x items = true <-> x ∈ items.
Proof.
  unfold mem. rewrite existsb_exists. split.
  - intros (y & Hy & Heq). apply str_eqb_eq in Heq. subst y.
    by apply list_elem_of_In.
  - intros H. exists x. split; [by apply list_elem_of_In | apply str_eqb_refl].
Qed.

Lemma mem_not_elem_of (x : str) (items : list str) :
  mem x items = false <-> x ∉ items.
Proof.
  rewrite <- mem_elem_of. by destruct (mem x items).
Qed.

Lemma fromkeys_fold (keys items : list str) :
  NoDup keys ->
  NoDup (foldl add_key keys items)
  /\ (forall x, x ∈ foldl add_key keys items <-> x ∈ keys \/ x ∈ items).
Proof.
  revert keys. induction items as [|y items IH]; intros keys Hkeys.
  - cbn. split; [exact Hkeys|]. intros x. rewrite elem_of_nil. tauto.
  - cbn [foldl]. unfold add_key at 2 4.
    destruct (mem y keys) eqn:Hy.
    + destruct (IH keys Hkeys) as [Hnd Hin]. split; [exact Hnd|].
      intros x. rewrite Hin, elem_of_cons.
      apply mem_elem_of in Hy. split; [tauto|].
      intros [?|[->|?]]; tauto.
    + apply mem_not_elem_of in Hy.
      assert (Hnd' : NoDup (keys ++ [y])).
      { apply NoDup_app. split_and!; [exact Hkeys | | apply NoDup_singleton].
        intros x Hx ->%list_elem_of_singleton. contradiction. }
      destruct (IH _ Hnd') as [Hnd Hin]. split; [exact Hnd|].
      intros x. rewrite Hin, elem_of_app, !elem_of_cons, elem_of_nil.
      tauto.
Qed.

Lemma fromkeys_NoDup (items : list str) : NoDup (fromkeys items).
Proof. apply (fromkeys_fold [] items). constructor. Qed.

Lemma elem_of_fromkeys (x : str) (items : list str) :
  x ∈ fromkeys items <-> x ∈ items.
Proof.
  destruct (fromkeys_fold [] items (NoDup_nil_2)) as [_ H].
  unfold fromkeys. change (fun keys x0 => if mem x0 keys then keys else keys ++ [x0])
    with add_key.
  rewrite H, elem_of_nil. tauto.
Qed.

Lemma fromkeys_fold_distinct (keys items : list str) :
  NoDup (keys ++ items) -> foldl add_key keys items = keys ++ items.
Proof.
  revert keys. induction items as [|y items IH]; intros keys Hnd.
  - cbn. by rewrite app_nil_r.
  - cbn [foldl]. unfold add_key at 2.
    replace (mem y keys) with false.
    + rewrite IH by (by rewrite <- app_assoc).
      by rewrite <- app_assoc.
    + symmetry. apply mem_not_elem_of.
      apply NoDup_app in Hnd as (_ & Hdisj & _).
      intros Hy. apply (Hdisj y Hy). by left.
Qed.

Lemma fromkeys_fold_sublist (keys items : list str) :
  exists rest, foldl add_key keys items = keys ++ rest
               /\ rest `sublist_of` items.
Proof.
  revert keys. induction items as [|y items IH]; intros keys.
  - exists []. cbn. by rewrite app_nil_r.
  - cbn [foldl]. unfold add_key at 2. destruct (mem y keys).
    + destruct (IH keys) as (rest & -> & Hsub).
      exists rest. split; [reflexivity | by apply sublist_cons].
    + destruct (IH (keys ++ [y])) as (rest & -> & Hsub).
      exists (y :: rest). split; [by rewrite <- app_assoc|].
      by apply sublist_skip.
Qed.

Lemma fromkeys_sublist (items : list str) :
  fromkeys items `sublist_of` items.
Proof.
  destruct (fromkeys_fold_sublist [] items) as (rest & H & Hsub).
  unfold fromkeys.
  change (fun keys x => if mem x keys then keys else keys ++ [x])
    with add_key.
  by rewrite H.
Qed.

Lemma filter_sublist {A} (f : A -> bool) (l : list A) :
  List.filter f l `sublist_of` l.
Proof.
  induction l as [|x l IH]; [constructor|].
  cbn. destruct (f x); [by apply sublist_skip | by apply sublist_cons].
Qed.

(** Distinct items are their own keys. *)
Lemma fromkeys_distinct (items : list str) :
  NoDup items -> fromkeys items = items.
Proof. intros H. by apply (fromkeys_fold_distinct [] items). Qed.

Lemma products_fold (acc : list str) (norm : list row) :
  foldl (fun products r =>
           match stripped_service r with
           | [] => products
           | _ =>
               if endswith (stripped_service r) (py "Support")
               then products ++ [py "Support"]
               else products ++ [stripped_service r]
           end) acc norm
  = acc ++ omap (fun r =>
                   match stripped_service r with
                   | [] => None
                   | service =>
                       Some (if endswith service (py "Support")
                             then py "Support" else service)
                   end) norm.
Proof.
  revert acc. induction norm as [|r norm IH]; intros acc.
  - cbn. by rewrite app_nil_r.
  - cbn [foldl omap list_omap]. rewrite IH.
    destruct (stripped_service r) as [|c service]; [reflexivity|].
    destruct (endswith (c :: service) (py "Support"));
      by rewrite <- app_assoc.
Qed.

(** X13.  [products_from_services_rows] returns the products of the
    normalized rows without repetition: a name is returned exactly when it
    is the service of some row, without surrounding blanks and not empty,
    or when it is "Support" and the service of some row ends with
    "Support".  No returned name is empty. *)
Theorem products_are_distinct (rows norm : list row) :
  normalize_service_rows rows = Ok norm ->
  exists products,
    products_from_services_rows rows = Ok products
    /\ NoDup products
    /\ Forall (fun p => p <> []) products
    /\ (forall p,
          p ∈ products <->
          exists r,
            r ∈ norm /\ stripped_service r <> []
            /\ p = if endswith (stripped_service r) (py "Support")
                   then py "Support" else stripped_service r).
Proof.
  intros Hnorm. unfold products_from_services_rows.
  rewrite Hnorm, bind_ok, (products_fold [] norm). cbn [app].
  eexists. split; [reflexivity|].
  assert (Hmem : forall p,
            p ∈ fromkeys (omap (fun r =>
                   match stripped_service r with
                   | [] => None
                   | service =>
                       Some (if endswith service (py "Support")
                             then py "Support" else service)
                   end) norm) <->
            exists r,
              r ∈ norm /\ stripped_service r <> []
              /\ p = if endswith (stripped_service r) (py "Support")
                     then py "Support" else stripped_service r).
  { intros p. rewrite elem_of_fromkeys, list_elem_of_omap.
    split; intros (r & Hr & Hp); exists r; (split; [exact Hr|]).
    - destruct (stripped_service r) as [|c service]; [discriminate|].
      injection Hp as <-. split; [discriminate | reflexivity].
    - destruct Hp as [Hne ->].
      destruct (stripped_service r) as [|c service]; [done | reflexivity]. }
  split_and!; [apply fromkeys_NoDup | | exact Hmem].
  apply Forall_forall. intros p (r & _ & Hne & ->)%Hmem.
  destruct (endswith _ _); [discriminate | exact Hne].
Qed.

Lemma products_are_distinct_witness :
  products_from_services_rows Stated.example_rows
  = Ok [py "Experimentation"; py "Support"].
Proof.
  destruct (products_are_distinct Stated.example_rows Stated.example_norm
              TotalRowFacts.normalize_example_rows)
    as (products & Hp & _).
  rewrite Hp. f_equal.
  assert (H : products_from_services_rows Stated.example_rows
              = Ok [py "Experimentation"; py "Support"])
    by (vm_compute; reflexivity).
  congruence.
Defined.

Lemma elem_of_filter_bool {A} (f : A -> bool) (l : list A) (x : A) :
  x ∈ List.filter f l <-> x ∈ l /\ f x = true.
Proof. by rewrite !list_elem_of_In, filter_In. Qed.

Lemma filter_all {A} (f : A -> bool) (l : list A) :
  Forall (fun x => f x = true) l -> List.filter f l = l.
Proof.
  induction 1 as [|x l Hx _ IH]; [reflexivity|].
  cbn. by rewrite Hx, IH.
Qed.

Lemma fmap_fixed {A} (f : A -> A) (l : list A) :
  Forall (fun x => f x = x) l -> f <$> l = l.
Proof.
  induction 1 as [|x l Hx _ IH]; [reflexivity|].
  cbn. by rewrite Hx, IH.
Qed.

(** X14.  [normalize_special_terms] returns the selected terms without
    surrounding blanks, in the order in which they were selected and
    without repetition, leaving out the blank ones and the ones that spell
    "none" in any case.  It is idempotent. *)
Theorem special_terms_normal (selected : list str) :
  let out := normalize_special_terms selected in
  NoDup out
  /\ out `sublist_of` (strip <$> selected)
  /\ (forall s,
        s ∈ out <->
        exists t, t ∈ selected /\ s = strip t /\ s <> []
                  /\ lower s <> py "none")
  /\ normalize_special_terms out = out.
Proof.
  cbv zeta.
  assert (Hmem : forall s,
            s ∈ normalize_special_terms selected <->
            exists t, t ∈ selected /\ s = strip t /\ s <> []
                      /\ lower s <> py "none").
  { intros s. unfold normalize_special_terms.
    destruct selected as [|t0 sel].
    { rewrite elem_of_nil. split; [done|].
      intros (t & Ht & _). by apply elem_of_nil in Ht. }
    set (l := t0 :: sel).
    rewrite elem_of_fromkeys, elem_of_filter_bool, list_elem_of_fmap.
    rewrite negb_true_iff. split.
    - intros [(t & -> & [Ht Hne]%elem_of_filter_bool) Hnone]. exists t.
      apply negb_true_iff in Hne.
      split_and!; [exact Ht | reflexivity | |].
      + intros E. by rewrite E in Hne.
      + intros E. by rewrite E in Hnone.
    - intros (t & Ht & -> & Hne & Hnone). split.
      + exists t. split; [reflexivity|].
        apply elem_of_filter_bool. split; [exact Ht|].
        apply negb_true_iff. by apply str_eqb_neq.
      + by apply str_eqb_neq. }
  split_and!; [| | exact Hmem |].
  - unfold normalize_special_terms. destruct selected; [constructor|].
    apply fromkeys_NoDup.
  - unfold normalize_special_terms. destruct selected as [|t0 sel];
      [constructor|].
    etransitivity; [apply fromkeys_sublist|].
    etransitivity; [apply filter_sublist|].
    apply fmap_sublist, filter_sublist.
  - assert (Hall : Forall (fun s => s <> [] /\ strip s = s
                                   /\ lower s <> py "none")
                     (normalize_special_terms selected)).
    { apply Forall_forall. intros s (t & _ & -> & Hne & Hnone)%Hmem.
      split_and!; [exact Hne | apply strip_strip | exact Hnone]. }
    assert (Hnd : NoDup (normalize_special_terms selected)).
    { unfold normalize_special_terms. destruct selected; [constructor|].
      apply fromkeys_NoDup. }
    set (out := normalize_special_terms selected) in *.
    unfold normalize_special_terms at 1.
    destruct out as [|s0 out'] eqn:Hout; [reflexivity|].
    rewrite <- Hout in *. clear Hout.
    rewrite (filter_all _ out).
    2:{ eapply Forall_impl; [exact Hall|]. intros s (Hne & Hs & _).
        rewrite Hs. apply negb_true_iff. by apply str_eqb_neq. }
    rewrite (fmap_fixed strip out)
      by (eapply Forall_impl; [exact Hall|]; intros s (_ & Hs & _); exact Hs).
    rewrite (filter_all _ out).
    2:{ eapply Forall_impl; [exact Hall|]. intros s (_ & _ & Hnone).
        apply negb_true_iff. by apply str_eqb_neq. }
    by apply fromkeys_distinct.
Qed.

End ProductFacts.

(** ** The usage terms written for the selected products *)

Module TermsFacts.
Import PyStr PyFloat Py Money Rows Check Products Shapes.
Import ValueFacts TableFacts DigitFacts AmountFacts ProductFacts.

Lemma session_replay_term_not_nil : session_replay_term <> [].
Proof. intros H. apply (f_equal (take 1)) in H. vm_compute in H. discriminate H. Qed.

Lemma cloud_short_not_nil : cloud_short_fg_only <> [].
Proof. intros H. apply (f_equal (take 1)) in H. vm_compute in H. discriminate H. Qed.

Lemma cloud_long_not_nil (rate : str) : cloud_long_fg_plus_exp rate <> [].
Proof. intros H. apply (f_equal (take 1)) in H. vm_compute in H. discriminate H. Qed.

Lemma wn_assignment_not_nil (rate : str) :
  wn_analysis_assignment_text rate <> [].
Proof. intros H. apply (f_equal (take 1)) in H. vm_compute in H. discriminate H. Qed.

Lemma wn_only_not_nil (rate : str) : wn_analysis_only_text rate <> [].
Proof. intros H. apply (f_equal (take 1)) in H. vm_compute in H. discriminate H. Qed.

Lemma with_session_replay (base : str) :
  base <> [] ->
  match base with
  | [] => session_replay_term
  | _ => base ++ paragraph_break ++ session_replay_term
  end = base ++ paragraph_break ++ session_replay_term.
Proof. by destruct base. Qed.

Lemma app_not_nil (a b : str) : a <> [] -> a ++ b <> [].
Proof. by destruct a. Qed.

Create HintDb terms.

#[local] Hint Resolve session_replay_term_not_nil cloud_short_not_nil
  cloud_long_not_nil wn_assignment_not_nil wn_only_not_nil app_not_nil
  : terms.

Ltac nonempty :=
  match goal with
  | |- ?t = [] -> False => change (t <> []); auto with terms
  end.

(** X15.  [build_usage_terms_for_products] always returns a text.  The
    text is empty, so that the usage terms typed by the user are printed
    instead, exactly in these cases: for Cloud, when neither Feature Gates
    and SDKs nor Session Replay is selected (whether or not Experimentation
    is); for Warehouse Native, when neither an experimentation product nor
    Session Replay is selected; and for every other warehouse type. *)
Theorem usage_terms_empty (warehouse_type : str)
  (selected_products : list str) (excess_usage_rate : str) :
  exists text,
    build_usage_terms_for_products warehouse_type selected_products
      excess_usage_rate = Ok text
    /\ (text = [] <->
        if str_eqb warehouse_type (py "Cloud") then
          mem (py "Feature Gates and SDKs") selected_products = false
          /\ mem (py "Session Replay") selected_products = false
        else if str_eqb warehouse_type (py "Warehouse Native") then
          mem (py "Experimentation: Analysis + Assignment") selected_products
            = false
          /\ mem (py "Warehouse Native: Experimentation (Analysis + Assignment)")
               selected_products = false
          /\ mem (py "Experimentation: Analysis Only") selected_products
             = false
          /\ mem (py "Warehouse Native: Analysis") selected_products = false
          /\ mem (py "Session Replay") selected_products = false
        else True).
Proof.
  unfold build_usage_terms_for_products.
  rewrite safe_money_str, bind_ok. cbn [existsb].
  set (rate := fmt_money (parsed_or_zero excess_usage_rate)).
  destruct (str_eqb warehouse_type (py "Cloud")).
  - destruct (mem (py "Feature Gates and SDKs") selected_products),
      (mem (py "Session Replay") selected_products),
      (mem (py "Experimentation") selected_products),
      (mem (py "Experimentation: Analysis Only") selected_products),
      (mem (py "Experimentation: Analysis + Assignment") selected_products);
      cbn [andb negb orb];
      rewrite ?with_session_replay by auto with terms;
      eexists; (split; [reflexivity|]);
      (split; [intros H; exfalso; revert H; nonempty
              | intros [? ?]; discriminate]) || tauto.
  - destruct (str_eqb warehouse_type (py "Warehouse Native"));
      [|eexists; split; [reflexivity | tauto]].
    destruct (mem (py "Experimentation: Analysis + Assignment")
                selected_products),
      (mem (py "Warehouse Native: Experimentation (Analysis + Assignment)")
         selected_products),
      (mem (py "Experimentation: Analysis Only") selected_products),
      (mem (py "Warehouse Native: Analysis") selected_products),
      (mem (py "Session Replay") selected_products);
      cbn [andb negb orb];
      rewrite ?with_session_replay by auto with terms;
      eexists; (split; [reflexivity|]);
      (split; [intros H; exfalso; revert H; nonempty
              | intros (? & ? & ? & ? & ?); discriminate]) || tauto.
Qed.

(** X16.  For the Cloud and Warehouse Native types, when Session Replay is
    among the selected products the text ends with the session replay
    term: the term is the whole text, or it follows the other terms after
    an empty line. *)
Theorem session_replay_term_is_last (warehouse_type : str)
  (selected_products : list str) (excess_usage_rate : str) :
  str_eqb warehouse_type (py "Cloud")
  || str_eqb warehouse_type (py "Warehouse Native") = true ->
  mem (py "Session Replay") selected_products = true ->
  exists text,
    build_usage_terms_for_products warehouse_type selected_products
      excess_usage_rate = Ok text
    /\ (text = session_replay_term
        \/ exists base,
             base <> []
             /\ text = base ++ paragraph_break ++ session_replay_term).
Proof.
  intros Hwt Hsr. unfold build_usage_terms_for_products.
  rewrite safe_money_str, bind_ok, Hsr.
  set (rate := fmt_money (parsed_or_zero excess_usage_rate)).
  destruct (str_eqb warehouse_type (py "Cloud")).
  - match goal with
    | |- context [match ?b with [] => _ | _ => _ end] =>
        destruct b as [|c base] eqn:E
    end.
    + eexists. split; [reflexivity | by left].
    + eexists. split; [reflexivity | right]. by exists (c :: base).
  - cbn [orb] in Hwt. rewrite Hwt.
    match goal with
    | |- context [match ?b with [] => _ | _ => _ end] =>
        destruct b as [|c base] eqn:E
    end.
    + eexists. split; [reflexivity | by left].
    + eexists. split; [reflexivity | right]. by exists (c :: base).
Qed.

Lemma session_replay_term_is_last_witness :
  exists text,
    build_usage_terms_for_products (py "Cloud")
      [py "Feature Gates and SDKs"; py "Session Replay"] (py "N/A")
    = Ok text
    /\ text = cloud_short_fg_only ++ paragraph_break ++ session_replay_term.
Proof.
  destruct (session_replay_term_is_last (py "Cloud")
              [py "Feature Gates and SDKs"; py "Session Replay"] (py "N/A")
              eq_refl eq_refl) as (text & Htext & _).
  exists text. split; [exact Htext|].
  assert (H : build_usage_terms_for_products (py "Cloud")
                [py "Feature Gates and SDKs"; py "Session Replay"] (py "N/A")
              = Ok (cloud_short_fg_only ++ paragraph_break
                      ++ session_replay_term))
    by (vm_compute; reflexivity).
  congruence.
Defined.

Lemma startswith_app (a b : str) : startswith (a ++ b) a = true.
Proof.
  induction a as [|x a IH]; [by destruct b|].
  cbn. unfold char_eqb. by rewrite N.eqb_refl, IH.
Qed.

Lemma contains_app (a b c : str) : contains (a ++ b ++ c) b = true.
Proof.
  induction a as [|x a IH].
  - cbn [app]. destruct (b ++ c) eqn:E; cbn [contains];
      rewrite <- E, startswith_app; reflexivity.
  - cbn [app contains]. rewrite IH. apply orb_true_r.
Qed.

Lemma contains_app_r (a b needle : str) :
  contains b needle = true -> contains (a ++ b) needle = true.
Proof.
  intros H. induction a as [|x a IH]; [exact H|].
  cbn [app contains]. rewrite IH. apply orb_true_r.
Qed.

Lemma startswith_app_l (a b needle : str) :
  startswith a needle = true -> startswith (a ++ b) needle = true.
Proof.
  revert a. induction needle as [|y needle IH]; intros a;
    [by destruct a, b|].
  destruct a as [|x a]; [discriminate|]. cbn.
  intros [Hx Ha]%andb_true_iff. by rewrite Hx, IH.
Qed.

Lemma contains_app_l (a b needle : str) :
  contains a needle = true -> contains (a ++ b) needle = true.
Proof.
  induction a as [|x a IH].
  - cbn. rewrite orb_false_r. intros H.
    destruct needle; [by destruct b | discriminate].
  - cbn [app contains]. intros [H|H]%orb_true_iff.
    + change (x :: a ++ b) with ((x :: a) ++ b).
      by rewrite startswith_app_l.
    + rewrite IH by exact H. apply orb_true_r.
Qed.

Lemma rate_tail (before rate after : str) :
  contains (before ++ py "at a rate of " ++ rate ++ py " per " ++ after)
    (py "at a rate of " ++ rate ++ py " per ") = true.
Proof.
  rewrite (app_assoc rate (py " per ") after).
  rewrite (app_assoc (py "at a rate of ") (rate ++ py " per ") after).
  apply contains_app.
Qed.

Ltac find_rate :=
  lazymatch goal with
  | |- contains (py "for any excess usage at a rate of " ++ ?r
                   ++ py " per 1,000 billable events.") _ = true =>
      change (py "for any excess usage at a rate of " ++ r
                ++ py " per 1,000 billable events.")
        with (py "for any excess usage " ++ py "at a rate of " ++ r
                ++ py " per " ++ py "1,000 billable events.");
      apply rate_tail
  | |- contains (py "for any excess usage at a rate of " ++ ?r
                   ++ py " per experiment.") _ = true =>
      change (py "for any excess usage at a rate of " ++ r
                ++ py " per experiment.")
        with (py "for any excess usage " ++ py "at a rate of " ++ r
                ++ py " per " ++ py "experiment.");
      apply rate_tail
  | |- contains (_ ++ _) _ = true => apply contains_app_r; find_rate
  end.

(** The three texts that quote the rate. *)
Lemma cloud_long_rate (rate : str) :
  contains (cloud_long_fg_plus_exp rate)
    (py "at a rate of " ++ rate ++ py " per ") = true.
Proof. unfold cloud_long_fg_plus_exp. find_rate. Qed.

Lemma wn_assignment_rate (rate : str) :
  contains (wn_analysis_assignment_text rate)
    (py "at a rate of " ++ rate ++ py " per ") = true.
Proof. unfold wn_analysis_assignment_text. find_rate. Qed.

Lemma wn_only_rate (rate : str) :
  contains (wn_analysis_only_text rate)
    (py "at a rate of " ++ rate ++ py " per ") = true.
Proof. unfold wn_analysis_only_text. find_rate. Qed.

Ltac quoted_rate :=
  lazymatch goal with
  | |- contains (cloud_long_fg_plus_exp _ ++ _) _ = true -> _ =>
      intros _; apply contains_app_l, cloud_long_rate
  | |- contains (cloud_long_fg_plus_exp _) _ = true -> _ =>
      intros _; apply cloud_long_rate
  | |- contains (wn_analysis_assignment_text _ ++ _) _ = true -> _ =>
      intros _; apply contains_app_l, wn_assignment_rate
  | |- contains (wn_analysis_assignment_text _) _ = true -> _ =>
      intros _; apply wn_assignment_rate
  | |- contains (wn_analysis_only_text _ ++ _) _ = true -> _ =>
      intros _; apply contains_app_l, wn_only_rate
  | |- contains (wn_analysis_only_text _) _ = true -> _ =>
      intros _; apply wn_only_rate
  | |- _ =>
      let H := fresh in intros H; vm_compute in H; discriminate H
  end.

(** X17.  Wherever the usage terms quote a rate for excess usage, the rate
    quoted is the amount that [safe_money] reads in the rate text, written
    by [fmt_money]: a dollar amount with two decimals, which is $0.00 for
    the rate text "N/A". *)
Theorem usage_terms_quote_rate (warehouse_type : str)
  (selected_products : list str) (excess_usage_rate : str) (amount : float) :
  safe_money (VStr excess_usage_rate) = Ok amount ->
  exists text,
    build_usage_terms_for_products warehouse_type selected_products
      excess_usage_rate = Ok text
    /\ (contains text (py "at a rate of ") = true ->
        contains text (py "at a rate of " ++ fmt_money amount ++ py " per ")
        = true).
Proof.
  intros Hrate. unfold build_usage_terms_for_products.
  rewrite Hrate, bind_ok. cbn [existsb].
  destruct (str_eqb warehouse_type (py "Cloud")).
  - destruct (mem (py "Feature Gates and SDKs") selected_products),
      (mem (py "Session Replay") selected_products),
      (mem (py "Experimentation") selected_products),
      (mem (py "Experimentation: Analysis Only") selected_products),
      (mem (py "Experimentation: Analysis + Assignment") selected_products);
      cbn [andb negb orb];
      rewrite ?with_session_replay by auto with terms;
      eexists; (split; [reflexivity|]); quoted_rate.
  - destruct (str_eqb warehouse_type (py "Warehouse Native"));
      [|eexists; split; [reflexivity | discriminate]].
    destruct (mem (py "Experimentation: Analysis + Assignment")
                selected_products),
      (mem (py "Warehouse Native: Experimentation (Analysis + Assignment)")
         selected_products),
      (mem (py "Experimentation: Analysis Only") selected_products),
      (mem (py "Warehouse Native: Analysis") selected_products),
      (mem (py "Session Replay") selected_products);
      cbn [andb negb orb];
      rewrite ?with_session_replay by auto with terms;
      eexists; (split; [reflexivity|]); quoted_rate.
Qed.

Lemma usage_terms_quote_rate_witness :
  exists text,
    build_usage_terms_for_products (py "Cloud")
      [py "Feature Gates and SDKs"; py "Experimentation"] (py "N/A")
    = Ok text
    /\ contains text (py "at a rate of $0.00 per ") = true.
Proof.
  destruct (usage_terms_quote_rate (py "Cloud")
              [py "Feature Gates and SDKs"; py "Experimentation"] (py "N/A")
              zero eq_refl) as (text & Htext & Hquote).
  exists text. split; [exact Htext|].
  apply Hquote.
  assert (H : build_usage_terms_for_products (py "Cloud")
                [py "Feature Gates and SDKs"; py "Experimentation"]
                (py "N/A")
              = Ok (cloud_long_fg_plus_exp (py "$0.00")))
    by (vm_compute; reflexivity).
  rewrite H in Htext. injection Htext as <-.
  vm_compute. reflexivity.
Defined.

End TermsFacts.

(** ** Validation of the table entries *)

Module CheckFacts.
Import PyStr PyFloat Py Money Rows Check Products Shapes.
Import ValueFacts TableFacts DigitFacts AmountFacts ProductFacts TermsFacts.

Lemma is_numeric_amount_str (text : str) :
  is_numeric_amount (VStr text) = Ok (reads_number text).
Proof.
  unfold is_numeric_amount, reads_number.
  destruct (cleaned_amount (VStr text)) as [|c cl] eqn:Hc.
  - by rewrite float_of_str_empty.
  - unfold float_of_text. by destruct (float_of_str (c :: cl)).
Qed.

(** The loop over the numbered items of a list. *)
Lemma mapM_imap_from {A B} (P : nat -> A -> B -> Prop)
  (f : nat -> A -> result B) (l : list A) (k : nat) :
  (forall i a, exists b, f i a = Ok b /\ P i a b) ->
  exists bs,
    mapM (fun ia : nat * A => f (fst ia) (snd ia))
      (imap (fun i a => ((k + i)%nat, a)) l)
    = Ok bs
    /\ length bs = length l
    /\ (forall i a b, l !! i = Some a -> bs !! i = Some b ->
                      P (k + i)%nat a b).
Proof.
  intros Hf. revert k. induction l as [|a l IH]; intros k.
  - exists []. split_and!; [reflexivity | reflexivity |].
    intros i a b Ha. by rewrite lookup_nil in Ha.
  - destruct (Hf (k + 0)%nat a) as (b & Hb & HP).
    destruct (IH (S k)) as (bs & Hbs & Hlen & Hall).
    exists (b :: bs). split_and!.
    + cbn [imap mapM fst snd]. rewrite Hb, bind_ok.
      rewrite (imap_ext _ (fun i a0 => ((S k + i)%nat, a0)) l).
      * by rewrite Hbs.
      * intros i x _. cbn. f_equal. lia.
    + cbn. by rewrite Hlen.
    + intros [|i] a0 b0 Ha0 Hb0.
      * cbn in Ha0, Hb0. by injection Ha0 as <-; injection Hb0 as <-.
      * cbn in Ha0, Hb0. replace (k + S i)%nat with (S k + i)%nat by lia.
        by apply (Hall i).
Qed.

Lemma mapM_imap {A B} (P : nat -> A -> B -> Prop)
  (f : nat -> A -> result B) (l : list A) :
  (forall i a, exists b, f i a = Ok b /\ P i a b) ->
  exists bs,
    mapM (fun ia : nat * A => f (fst ia) (snd ia)) (imap (fun i a => (i, a)) l)
    = Ok bs
    /\ length bs = length l
    /\ (forall i a b, l !! i = Some a -> bs !! i = Some b -> P i a b).
Proof. apply (mapM_imap_from P f l 0). Qed.

Lemma upper_char_is (c : char) (u : N) :
  char_eqb (upper_char c) u = true ->
  c = u \/ (c = (u + 32)%N /\ (97 <= c <= 122)%N).
Proof.
  unfold char_eqb, upper_char. intros H%N.eqb_eq.
  destruct ((97 <=? c)%N && (c <=? 122)%N) eqn:E; [|by left].
  apply andb_true_iff in E as [E1%N.leb_le E2%N.leb_le]. right. lia.
Qed.

(** An entry that spells "N/A" is not a whole number. *)
Lemma na_not_whole (usage : str) :
  str_eqb (upper usage) (py "N/A") = true ->
  is_whole_number (VStr usage) = false.
Proof.
  destruct usage as [|c1 [|c2 [|c3 [|c4 rest]]]];
    cbn [upper fmap list_fmap str_eqb py list_ascii_of_string];
    rewrite ?andb_false_r; try discriminate.
  intros [H1 H2]%andb_true_iff.
  apply andb_true_iff in H2 as [H2 H3]. apply andb_true_iff in H3 as [H3 _].
  apply upper_char_is in H1, H2, H3.
  destruct H1 as [-> | [-> _]], H2 as [-> | [-> ?]], H3 as [-> | [-> _]];
    try reflexivity; cbn in *; lia.
Qed.

Lemma starts_with_label (idx : nat) (rest : str) :
  startswith (row_label idx ++ rest) (row_label idx) = true.
Proof. apply startswith_app. Qed.

(** What the body of the loop appends for one row. *)
Lemma validate_row_outcome (warehouse_type : str) (idx : nat) (r : row) :
  exists errs,
    validate_row warehouse_type idx r = Ok errs
    /\ (length errs <= 2)%nat
    /\ Forall (fun e => startswith e (row_label idx) = true) errs
    /\ (errs = [] ->
        stripped_service r <> [] /\ reads_number (fee_text r) = true
        /\ if is_experimentation_service (stripped_service r) warehouse_type
           then is_whole_number (VStr (usage_text r)) = true
           else str_eqb (upper (usage_text r)) (py "N/A") = true
                /\ credit_validation warehouse_type = false)
    /\ (credit_validation warehouse_type = true ->
        stripped_service r <> [] ->
        is_experimentation_service (stripped_service r) warehouse_type
        = false ->
        if is_whole_number (VStr (usage_text r))
        then usage_not_na idx (stripped_service r) ∈ errs
        else credits_not_whole idx (stripped_service r) ∈ errs).
Proof.
  unfold validate_row. fold (stripped_service r) (usage_text r) (fee_text r).
  destruct (stripped_service r) as [|c service] eqn:Hs.
  { eexists. split; [reflexivity|]. split_and!.
    - cbn. lia.
    - apply Forall_one, starts_with_label.
    - discriminate.
    - done. }
  rewrite is_numeric_amount_str, bind_ok.
  set (svc := c :: service).
  pose proof (na_not_whole (usage_text r)) as Hna.
  eexists. split; [reflexivity|].
  destruct (reads_number (fee_text r)),
    (credit_validation warehouse_type),
    (is_whole_number (VStr (usage_text r))),
    (is_experimentation_service svc warehouse_type),
    (str_eqb (usage_text r) []),
    (str_eqb (upper (usage_text r)) (py "N/A"));
    cbn [andb orb negb app length];
    (split; [lia|]);
    (split; [repeat (constructor; [apply starts_with_label|]); constructor|]);
    (split; [try discriminate; intros _; split_and!;
                 try done; try (by specialize (Hna eq_refl))
            | try discriminate; intros _ _ _;
              try (by specialize (Hna eq_refl));
              rewrite ?elem_of_cons; tauto]).
Qed.

Lemma concat_length_bound {A} (ls : list (list A)) (n : nat) :
  Forall (fun l => (length l <= n)%nat) ls ->
  (length (concat ls) <= n * length ls)%nat.
Proof.
  induction 1 as [|l ls Hl _ IH]; [cbn; lia|].
  cbn [concat]. rewrite length_app. cbn [length]. lia.
Qed.

Lemma elem_of_concat {A} (x : A) (ls : list (list A)) :
  x ∈ concat ls <-> exists i l, ls !! i = Some l /\ x ∈ l.
Proof.
  rewrite list_elem_of_In, in_concat. split.
  - intros (l & Hl%list_elem_of_In & Hx%list_elem_of_In).
    apply list_elem_of_lookup_1 in Hl as [i Hi]. by exists i, l.
  - intros (i & l & Hi & Hx). exists l.
    split; apply list_elem_of_In; [by eapply list_elem_of_lookup_2 | done].
Qed.

Lemma concat_nil_inv {A} (ls : list (list A)) (i : nat) (l : list A) :
  concat ls = [] -> ls !! i = Some l -> l = [].
Proof.
  revert i. induction ls as [|l0 ls IH]; intros i; [by rewrite lookup_nil|].
  cbn [concat]. intros [-> Hrest]%app_eq_nil.
  destruct i as [|i]; cbn; [by intros [= <-] | by apply IH].
Qed.

(** The run of the loop: the errors of each row, row by row. *)
Lemma validate_rows_outcome (rows : list row) (warehouse_type : str)
  (P : nat -> row -> list str -> Prop) :
  (forall i r, exists errs,
      validate_row warehouse_type (S i) r = Ok errs /\ P i r errs) ->
  exists ess,
    validate_services_rows rows warehouse_type = Ok (concat ess)
    /\ length ess = length rows
    /\ (forall i r errs, rows !! i = Some r -> ess !! i = Some errs ->
                         P i r errs).
Proof.
  intros HP. unfold validate_services_rows.
  destruct (mapM_imap P (fun i r => validate_row warehouse_type (S i) r)
              rows HP) as (ess & Hess & Hlen & Hall).
  exists ess. by rewrite Hess, bind_ok.
Qed.

(** X18.  [validate_services_rows] always returns its list of messages.
    When the list is empty, every row names a service, its fee entry is a
    number that [float] reads once dollar signs and commas are taken out,
    and its usage entry is a whole number for an experimentation product
    and "N/A" for every other product. *)
Theorem validated_rows_are_clean (rows : list row) (warehouse_type : str) :
  exists errors,
    validate_services_rows rows warehouse_type = Ok errors
    /\ (errors = [] ->
        Forall (fun r =>
                  stripped_service r <> []
                  /\ reads_number (fee_text r) = true
                  /\ if is_experimentation_service (stripped_service r)
                          warehouse_type
                     then is_whole_number (VStr (usage_text r)) = true
                     else str_eqb (upper (usage_text r)) (py "N/A") = true)
          rows).
Proof.
  destruct (validate_rows_outcome rows warehouse_type
              (fun i r errs =>
                 errs = [] ->
                 stripped_service r <> []
                 /\ reads_number (fee_text r) = true
                 /\ if is_experimentation_service (stripped_service r)
                         warehouse_type
                    then is_whole_number (VStr (usage_text r)) = true
                    else str_eqb (upper (usage_text r)) (py "N/A") = true))
    as (ess & Hess & Hlen & Hall).
  { intros i r.
    destruct (validate_row_outcome warehouse_type (S i) r)
      as (errs & Herrs & _ & _ & Hclean & _).
    exists errs. split; [exact Herrs|]. intros Hnil.
    destruct (Hclean Hnil) as (Hs & Hfee & Husage).
    split_and!; [exact Hs | exact Hfee |].
    destruct (is_experimentation_service _ _); tauto. }
  exists (concat ess). split; [exact Hess|]. intros Hnil.
  apply Forall_lookup. intros i r Hr.
  destruct (lookup_lt_is_Some_2 ess i) as [errs Herrs].
  { rewrite Hlen. by eapply lookup_lt_Some. }
  apply (Hall i r errs Hr Herrs).
  by apply (concat_nil_inv ess i).
Qed.


(** X20.  For the warehouse types "Credit" and "Credit/Usage Based", a row
    whose service is not blank and is not an experimentation product gets
    a message whatever its usage entry is: "Credits must be a whole number"
    when the entry is not a whole number, and "Annual Usage Commitment must
    be N/A for non-experimentation products" when it is one. *)
Theorem credit_rows_always_flagged (rows : list row) (warehouse_type : str) :
  credit_validation warehouse_type = true ->
  exists errors,
    validate_services_rows rows warehouse_type = Ok errors
    /\ (forall i r,
          rows !! i = Some r ->
          stripped_service r <> [] ->
          is_experimentation_service (stripped_service r) warehouse_type
          = false ->
          if is_whole_number (VStr (usage_text r))
          then usage_not_na (S i) (stripped_service r) ∈ errors
          else credits_not_whole (S i) (stripped_service r) ∈ errors).
Proof.
  intros Hcredit.
  destruct (validate_rows_outcome rows warehouse_type
              (fun i r errs =>
                 stripped_service r <> [] ->
                 is_experimentation_service (stripped_service r)
                   warehouse_type = false ->
                 if is_whole_number (VStr (usage_text r))
                 then usage_not_na (S i) (stripped_service r) ∈ errs
                 else credits_not_whole (S i) (stripped_service r) ∈ errs))
    as (ess & Hess & Hlen & Hall).
  { intros i r.
    destruct (validate_row_outcome warehouse_type (S i) r)
      as (errs & Herrs & _ & _ & _ & Hflag).
    exists errs. split; [exact Herrs|]. by apply Hflag. }
  exists (concat ess). split; [exact Hess|].
  intros i r Hr Hs Hexp.
  destruct (lookup_lt_is_Some_2 ess i) as [errs Herrs].
  { rewrite Hlen. by eapply lookup_lt_Some. }
  pose proof (Hall i r errs Hr Herrs Hs Hexp) as H.
  destruct (is_whole_number (VStr (usage_text r)));
    apply elem_of_concat; by exists i, errs.
Qed.

Lemma credit_rows_always_flagged_witness :
  exists errors,
    validate_services_rows
      [Rows.mkrow [] (py "Warehouse Native") (py "1,000") [] zero;
       Rows.mkrow [] (py "Platform Fee") (py "N/A") [] zero]
      (py "Credit/Usage Based") = Ok errors
    /\ usage_not_na 1 (py "Warehouse Native") ∈ errors
    /\ credits_not_whole 2 (py "Platform Fee") ∈ errors.
Proof.
  destruct (credit_rows_always_flagged
              [Rows.mkrow [] (py "Warehouse Native") (py "1,000") [] zero;
               Rows.mkrow [] (py "Platform Fee") (py "N/A") [] zero]
              (py "Credit/Usage Based") eq_refl) as (errors & Herrors & H).
  exists errors. split; [exact Herrors|]. split.
  - apply (H 0%nat _ eq_refl); [by vm_compute | by vm_compute].
  - apply (H 1%nat _ eq_refl); [by vm_compute | by vm_compute].
Defined.

End CheckFacts.

(** ** The rows built for the selected products *)

Module BuildFacts.
Import PyStr PyFloat Py Money Rows Check Products Shapes.
Import ValueFacts TableFacts TotalFacts DigitFacts AmountFacts RowFacts.
Import ProductFacts.

Lemma mapM_Forall2 {A B} (Q : A -> B -> Prop) (f : A -> result B)
  (l : list A) :
  (forall a, exists b, f a = Ok b /\ Q a b) ->
  exists bs, mapM f l = Ok bs /\ Forall2 Q l bs.
Proof.
  intros Hf. induction l as [|a l (bs & Hbs & HQ)].
  - exists []. split; [reflexivity | constructor].
  - destruct (Hf a) as (b & Hb & Hab). exists (b :: bs).
    split; [|by constructor].
    cbn [mapM]. by rewrite Hb, bind_ok, Hbs.
Qed.

Lemma stripped_service_mkrow (p s u un : str) (fee : float) :
  stripped_service (mkrow p s u un fee) = strip s.
Proof. unfold stripped_service. by rewrite get_service_mkrow. Qed.

(** What the dictionary of the existing rows holds under a name. *)
Lemma by_service_fold (rows : list row) (m : gmap str row) (k : str) :
  match foldl (fun by_service r =>
                 match stripped_service r with
                 | [] => by_service
                 | _ => <[stripped_service r := r]> by_service
                 end) m rows !! k with
  | Some r => (r ∈ rows /\ stripped_service r = k) \/ m !! k = Some r
  | None =>
      m !! k = None
      /\ (k = [] \/ forall r, r ∈ rows -> stripped_service r <> k)
  end.
Proof.
  revert m. induction rows as [|r0 rows IH]; intros m.
  - cbn [foldl]. destruct (m !! k) eqn:E; [by right|].
    split; [reflexivity|]. right. intros r Hr. by apply elem_of_nil in Hr.
  - cbn [foldl]. specialize (IH
      match stripped_service r0 with
      | [] => m
      | _ => <[stripped_service r0 := r0]> m
      end).
    destruct (foldl _ _ rows !! k) as [r|].
    + destruct IH as [[Hr Hk]|Hm]; [left; split; [by right | exact Hk]|].
      destruct (stripped_service r0) as [|c s] eqn:Hs; [by right|].
      rewrite <- Hs in Hm.
      destruct (decide (stripped_service r0 = k)) as [Heq|Hne].
      * rewrite Heq, lookup_insert_eq in Hm. injection Hm as <-.
        left. split; [by left | exact Heq].
      * rewrite lookup_insert_ne in Hm by exact Hne. by right.
    + destruct IH as [Hm Hrows].
      destruct (stripped_service r0) as [|c s] eqn:Hs.
      * split; [exact Hm|]. destruct Hrows as [->|Hrows]; [by left|].
        destruct (decide (k = [])) as [->|Hk]; [by left|]. right.
        intros r [->|Hr]%elem_of_cons; [by rewrite Hs | by apply Hrows].
      * rewrite <- Hs in Hm.
        destruct (decide (stripped_service r0 = k)) as [Heq|Hne].
        -- by rewrite Heq, lookup_insert_eq in Hm.
        -- rewrite lookup_insert_ne in Hm by exact Hne.
           split; [exact Hm|]. destruct Hrows as [->|Hrows]; [by left|].
           right. intros r [->|Hr]%elem_of_cons; [exact Hne | by apply Hrows].
Qed.

Lemma by_service_lookup (rows : list row) (k : str) :
  match existing_by_service rows !! k with
  | Some r => r ∈ rows /\ stripped_service r = k
  | None => k = [] \/ forall r, r ∈ rows -> stripped_service r <> k
  end.
Proof.
  pose proof (by_service_fold rows ∅ k) as H. unfold existing_by_service.
  destruct (foldl _ _ rows !! k) as [r|].
  - destruct H as [H|H]; [exact H | by rewrite lookup_empty in H].
  - tauto.
Qed.

Lemma default_usage_formatted (service_name : str) :
  format_usage_commitment_value (VStr (default_usage_for_service service_name))
  = default_usage_for_service service_name.
Proof.
  unfold default_usage_for_service.
  destruct (is_experimentation_service _ _); [reflexivity|].
  destruct (mem _ _); [reflexivity|]. by destruct (endswith _ _).
Qed.

(** X21.  [build_services_rows] returns one row for each selected product,
    in their order, the service of a row being the product, or the support
    tier followed by " Support" for the product "Support".  The row takes
    the usage, unit and fee entries of a normalized existing row with that
    service when there is one, and otherwise the defaults of the service
    with the fee 0.0.  The rows returned are normalized:
    [normalize_service_rows] returns them unchanged. *)
Theorem build_rows_per_product (selected_products : list str)
  (support_tier : str) (existing_rows norm : list row) :
  normalize_service_rows existing_rows = Ok norm ->
  exists out,
    build_services_rows selected_products support_tier existing_rows = Ok out
    /\ normalize_service_rows out = Ok out
    /\ Forall2
         (fun product r =>
            let name := service_name_of support_tier product in
            (exists p s u un fee,
                mkrow p s u un fee ∈ norm /\ strip s = name
                /\ r = mkrow [] name u un fee)
            \/ ((name = [] \/ forall old, old ∈ norm ->
                                          stripped_service old <> name)
                /\ r = mkrow [] name (default_usage_for_service name)
                       (default_unit_for_service name) zero))
         selected_products out.
Proof.
  intros Hnorm. unfold build_services_rows. rewrite Hnorm, bind_ok.
  pose proof (normalize_rows_normalized _ _ Hnorm) as Hshape.
  set (Q := fun product r =>
            normalized r
            /\ let name := service_name_of support_tier product in
               (exists p s u un fee,
                   mkrow p s u un fee ∈ norm /\ strip s = name
                   /\ r = mkrow [] name u un fee)
               \/ ((name = [] \/ forall old, old ∈ norm ->
                                             stripped_service old <> name)
                   /\ r = mkrow [] name (default_usage_for_service name)
                          (default_unit_for_service name) zero)).
  match goal with
  | |- exists out, mapM ?f _ = _ /\ _ =>
      destruct (mapM_Forall2 Q f selected_products) as (out & Hout & HQ)
  end.
  { intros product. cbv zeta.
    set (name := service_name_of support_tier product).
    pose proof (by_service_lookup norm name) as Hlook.
    destruct (existing_by_service norm !! name) as [old|];
      cbn [default from_option id].
    - destruct Hlook as [Hold Hname].
      rewrite Forall_forall in Hshape.
      destruct (Hshape _ Hold) as (p & s & v & un & fee & ->).
      rewrite stripped_service_mkrow in Hname.
      rewrite get_usage_mkrow, get_unit_mkrow, get_fee_mkrow.
      cbn [normalize_fee_value py_str]. rewrite bind_ok.
      rewrite format_usage_idempotent.
      eexists. split; [reflexivity|]. split.
      + by exists [], name, v, un, fee.
      + left. by exists p, s, (format_usage_commitment_value v), un, fee.
    - unfold get. rewrite !lookup_empty.
      cbn [normalize_fee_value py_str]. rewrite bind_ok.
      eexists. split; [reflexivity|]. split.
      + by exists [], name, (VStr (default_usage_for_service name)),
          (default_unit_for_service name), zero.
      + right. split; [exact Hlook|]. by rewrite default_usage_formatted. }
  exists out. split; [exact Hout|]. split.
  - apply normalize_rows_fixed.
    clear -HQ. induction HQ as [|? ? ? ? [H _]]; by constructor.
  - eapply Forall2_impl; [exact HQ|]. by intros product r [_ H].
Qed.

Example build_example_rows :
  build_services_rows [py "Experimentation"; py "Support"] (py "Standard")
    Stated.example_rows
  = Ok [Stated.norm_row "Experimentation" (of_decimal false 12345 (-1));
        mkrow [] (py "Standard Support") (py "N/A") (py "N/A") zero].
Proof.
  vm_cast_no_check
    (eq_refl (Ok [Stated.norm_row "Experimentation"
                    (of_decimal false 12345 (-1));
                  mkrow [] (py "Standard Support") (py "N/A") (py "N/A")
                    zero])).
Qed.

Lemma build_rows_per_product_witness :
  exists out,
    build_services_rows [py "Experimentation"; py "Support"] (py "Standard")
      Stated.example_rows = Ok out
    /\ out = [Stated.norm_row "Experimentation" (of_decimal false 12345 (-1));
              mkrow [] (py "Standard Support") (py "N/A") (py "N/A") zero]
    /\ normalize_service_rows out = Ok out.
Proof.
  destruct (build_rows_per_product [py "Experimentation"; py "Support"]
              (py "Standard") Stated.example_rows Stated.example_norm
              TotalRowFacts.normalize_example_rows)
    as (out & Hout & Hfixed & _).
  exists out. split; [exact Hout|]. split; [|exact Hfixed].
  rewrite build_example_rows in Hout. by injection Hout as <-.
Defined.

End BuildFacts.

(** ** The double of a whole number is not zero *)

Module FloatSignFacts.
Import PyFloat Usage FloatIntFacts.

Lemma shr_1_positive (p : positive) (r s : bool) :
  1 < Zpos (Pos.size p) ->
  exists p' r' s',
    shr_1 (Build_shr_record (Zpos p) r s) = Build_shr_record (Zpos p') r' s'
    /\ Zpos (Pos.size p') = Zpos (Pos.size p) - 1.
Proof.
  intros Hp. destruct p as [q|q|]; [| |cbn in Hp; lia].
  - exists q, true, (r || s). split; [reflexivity|].
    cbn [Pos.size]. lia.
  - exists q, false, (r || s). split; [reflexivity|].
    cbn [Pos.size]. lia.
Qed.

Lemma shr_iter_positive (k : nat) (p : positive) (r s : bool) :
  Z.of_nat k < Zpos (Pos.size p) ->
  exists p' r' s',
    Nat.iter k shr_1 (Build_shr_record (Zpos p) r s)
    = Build_shr_record (Zpos p') r' s'
    /\ Zpos (Pos.size p') = Zpos (Pos.size p) - Z.of_nat k.
Proof.
  induction k as [|k IH]; intros Hk.
  - exists p, r, s. split; [reflexivity | lia].
  - destruct IH as (p1 & r1 & s1 & H1 & Hsize); [lia|].
    rewrite Nat.iter_succ, H1.
    destruct (shr_1_positive p1 r1 s1) as (p2 & r2 & s2 & H2 & Hsize2);
      [lia|].
    exists p2, r2, s2. split; [exact H2 | lia].
Qed.

Lemma shr_fexp_positive (m : positive) (e : Z) (l : location) :
  -1074 <= e ->
  exists p' r' s' e',
    shr_fexp prec emax (Zpos m) e l = (Build_shr_record (Zpos p') r' s', e')
    /\ e <= e'.
Proof.
  intros He. unfold shr_fexp, fexp, emin, Zdigits2, prec, emax, shr.
  rewrite digits2_size.
  change (IntDef.Z.max) with Z.max.
  destruct (shr_record_of_loc (Zpos m) l) as [m0 r0 s0] eqn:Hrec.
  assert (m0 = Zpos m) as -> by (by destruct l as [|[]]; injection Hrec).
  destruct (Z.max (Zpos (Pos.size m) + e - 53) (3 - 1024 - 53) - e)
    as [|q|q] eqn:Hn.
  - exists m, r0, s0, e. split; [reflexivity | lia].
  - rewrite iter_pos_nat.
    destruct (shr_iter_positive (Pos.to_nat q) m r0 s0)
      as (p' & r' & s' & H & _); [lia|].
    exists p', r', s', (e + Zpos q). split; [by rewrite H | lia].
  - exists m, r0, s0, e. split; [reflexivity | lia].
Qed.

Lemma round_nearest_even_positive (p : positive) (l : location) :
  exists p', round_nearest_even (Zpos p) l = Zpos p'.
Proof.
  destruct l as [|[]]; cbn [round_nearest_even]; try (by eexists).
  destruct (IntDef.Z.even (Zpos p)); by eexists.
Qed.

Lemma binary_round_aux_not_zero (s : bool) (m : positive) (e : Z)
  (l : location) :
  -1074 <= e -> is_zero (binary_round_aux prec emax s (Zpos m) e l) = false.
Proof.
  intros He. unfold binary_round_aux.
  destruct (shr_fexp_positive m e l He) as (p1 & r1 & s1 & e1 & -> & He1).
  cbn [shr_m].
  destruct (round_nearest_even_positive p1
              (loc_of_shr_record (Build_shr_record (Zpos p1) r1 s1)))
    as [p2 ->].
  destruct (shr_fexp_positive p2 e1 loc_Exact ltac:(lia))
    as (p3 & r3 & s3 & e3 & -> & _).
  cbn [shr_m]. by destruct (e3 <=? emax - prec).
Qed.

Lemma binary_round_not_zero (s : bool) (m : positive) :
  is_zero (binary_round prec emax s m 0) = false.
Proof.
  unfold binary_round, shl_align.
  destruct (fexp prec emax (Zpos (digits2_pos m) + 0) - 0) as [|q|q] eqn:Hq.
  - by apply binary_round_aux_not_zero.
  - by apply binary_round_aux_not_zero.
  - apply binary_round_aux_not_zero.
    unfold fexp, emin, prec, emax in *.
    change (IntDef.Z.max) with Z.max in *. lia.
Qed.

(** The double nearest to a whole number other than 0 is not 0. *)
Lemma of_Z_not_zero (z : Z) : z <> 0 -> is_zero (of_Z z) = false.
Proof.
  intros Hz. unfold of_Z, binary_normalize.
  destruct z as [|p|p]; [done | |]; apply binary_round_not_zero.
Qed.

End FloatSignFacts.

(** ** The rate for excess usage *)

Module UsageFacts.
Import PyStr PyFloat Py Money Rows Check Products Usage Shapes.
Import ValueFacts TableFacts DigitFacts AmountFacts ProductFacts.
Import FloatSignFacts.

Example rate_per_thousand_events :
  compute_excess_usage_rate
    [mkrow [] (py "Experimentation") (py "1,000,000") (py "Billable Events")
       (of_Z 5000)]
    (py "Cloud") = Returns (py "5.0000").
Proof. vm_compute. reflexivity. Qed.

Example rate_per_experiment :
  compute_excess_usage_rate
    [mkrow [] (py "Experimentation: Analysis + Assignment") (py "3") []
       (of_Z 1000)]
    (py "Warehouse Native") = Returns (py "333.33").
Proof. vm_compute. reflexivity. Qed.

Example rate_rounds_half_even :
  format_fixed 2 (of_decimal false 125 (-3)) = py "0.12"
  /\ format_fixed 4 (of_decimal false 5 (-3)) = py "0.0050"
  /\ format_fixed 2 (of_decimal true 2675 (-3)) = py "-2.67".
Proof. vm_compute. auto. Qed.

Lemma find_row_spec (rows : list row) (service_name : str) :
  no_row (find_row_by_service rows service_name) = false ->
  find_row_by_service rows service_name ∈ rows
  /\ stripped_service (find_row_by_service rows service_name) = service_name.
Proof.
  unfold find_row_by_service, no_row.
  destruct (List.find _ rows) as [r|] eqn:E.
  - intros _. apply find_some in E as [Hin Heq].
    split; [by apply list_elem_of_In | by apply str_eqb_eq].
  - intros H. apply bool_decide_eq_false in H. by destruct H.
Qed.

Lemma truediv_positive (x : float) (n : Z) :
  0 < n ->
  (exists d, truediv x n = Returns (fdiv x d))
  \/ (truediv x n = Fails (PyError OverflowError)
      /\ is_finite (of_Z n) = false).
Proof.
  intros Hn. unfold truediv, float_of_int.
  destruct (is_finite (of_Z n)) eqn:E.
  - left. cbn. rewrite of_Z_not_zero by lia. by eexists.
  - right. by split.
Qed.

(** The pricing of one row, whatever the text [show] written for the
    quotient. *)
Lemma priced_row_outcome (r : row) (show : float -> str) :
  match
    total_price ← fee_of_row r;
    if (usage_of_row r <=? 0)%N then Returns (py "N/A")
    else quotient ← truediv total_price (Z.of_N (usage_of_row r));
         Returns (show quotient)
  with
  | Returns text => text = py "N/A" \/ (0 < usage_of_row r)%N
  | Fails f =>
      f = PyError OverflowError
      /\ is_finite (of_Z (Z.of_N (usage_of_row r))) = false
  end.
Proof.
  unfold fee_of_row. rewrite safe_money_str. cbn [lift mbind outcome_bind].
  destruct (usage_of_row r <=? 0)%N eqn:E; [by left|].
  apply N.leb_gt in E.
  destruct (truediv_positive (parsed_or_zero (py_str (get r "annual_service_fee" (VStr []))))
              (Z.of_N (usage_of_row r)) ltac:(lia)) as [[d ->]|[-> Hinf]].
  - cbn. by right.
  - by split.
Qed.


End UsageFacts.

(** ** Page breaks in the usage terms and in the agreement section *)

Module PageFacts.
Import PyStr PyFloat Py Wrap Canvas Canvas.Notations Flow Sections Shapes.
Import FlowFacts AgreementFacts TableFacts.

Lemma breaks_app (font fill : bool) (a b : list op) :
  breaks_reset_state font fill (a ++ b)
  = breaks_reset_state font fill a
    && breaks_reset_state (fst (flags_after font fill a))
         (snd (flags_after font fill a)) b.
Proof.
  revert font fill. induction a as [|o a IH]; intros font fill; [reflexivity|].
  destruct o; cbn [app breaks_reset_state flags_after]; rewrite ?IH;
    try reflexivity; by rewrite !andb_assoc.
Qed.

Lemma flags_app (font fill : bool) (a b : list op) :
  flags_after font fill (a ++ b)
  = flags_after (fst (flags_after font fill a))
      (snd (flags_after font fill a)) b.
Proof.
  revert font fill. induction a as [|o a IH]; intros font fill; [reflexivity|].
  destruct o; cbn [app flags_after]; by rewrite ?IH.
Qed.

Lemma tidy_app (font fill : bool) (a b : list op) :
  tidy font fill a -> tidy false false b -> tidy font fill (a ++ b).
Proof.
  intros [Ha Hfa] [Hb Hfb]. split.
  - by rewrite breaks_app, Ha, Hfa.
  - by rewrite flags_app, Hfa.
Qed.

Section WithCanvas.
Variable stringWidth : str -> str -> Z -> float.
Variables width height : float.
Variables font_regular font_bold : str.

(** After [ensure_space], calls that set the font before they draw. *)
Lemma tidy_ensure_space (font fill : bool) (required : float) (s : state)
  (more : list op) :
  tidy font fill (out s) -> tidy true false more -> tidy false false more ->
  tidy font fill (out (ensure_space height required s) ++ more).
Proof.
  intros Hs Hpending Hset. unfold ensure_space.
  destruct (flt _ _); [|by apply tidy_app].
  cbn [out]. destruct Hs as [Hb Hf], Hpending as [Hb' Hf']. split.
  - by rewrite <- app_assoc, breaks_app, Hb, Hf.
  - by rewrite <- app_assoc, flags_app, Hf.
Qed.

(** *** The usage terms *)

Lemma tidy_usage_line (font fill : bool) (s : state) (line : str) :
  tidy font fill (out s) ->
  tidy font fill (out (draw_usage_line height font_regular s line)).
Proof.
  intros Hs. unfold draw_usage_line.
  destruct (fle (y s) (of_Z 40)); cbn [out emit move_down y].
  - rewrite <- app_assoc. by apply tidy_app.
  - by apply tidy_app.
Qed.

Lemma tidy_usage_paragraph (font fill : bool) (s : state) (paragraph : str) :
  tidy font fill (out s) ->
  tidy font fill
    (out (draw_usage_paragraph stringWidth width height font_regular s
            paragraph)).
Proof.
  intros Hs. unfold draw_usage_paragraph.
  destruct (strip paragraph); [exact Hs|].
  apply (foldl_inv (fun s => tidy font fill (out s))); [exact Hs|].
  intros s' line. apply tidy_usage_line.
Qed.

Lemma tidy_usage_terms (font fill : bool) (s : state)
  (paragraph_blocks : list str) :
  tidy font fill (out s) ->
  tidy font fill
    (out (draw_usage_terms stringWidth width height font_regular
            paragraph_blocks s)).
Proof.
  intros Hs. unfold draw_usage_terms.
  apply (foldl_inv (fun s => tidy font fill (out s))); [exact Hs|].
  intros s' paragraph. apply tidy_usage_paragraph.
Qed.

(** X23.  In the usage terms block every page break is followed by a
    [setFont] and a [setFillColor] before the next text is drawn, whatever
    the usage text, the font metrics, the page size and the start of the
    block; no text of the block is drawn before the font and the colour
    are set. *)
Theorem usage_section_resets_state
  (auto_usage_terms order_usage_terms : str) (y_after : float) :
  breaks_reset_state true true
    (out (draw_usage_section stringWidth width height font_regular font_bold
            auto_usage_terms order_usage_terms y_after)) = true.
Proof.
  unfold draw_usage_section. cbn [out emit move_down].
  rewrite breaks_app.
  match goal with
  | |- context [draw_usage_terms _ _ _ _ ?ps ?s] =>
      destruct (tidy_usage_terms true true s ps) as [Hb Hf]
  end.
  { by split. }
  by rewrite Hb, Hf.
Qed.

(** Calls added to the ones made so far, all with a property. *)
Lemma added_refl (P : op -> Prop) (s : state) :
  exists more, out s = out s ++ more /\ Forall P more.
Proof. exists []. by rewrite app_nil_r. Qed.

Lemma added_foldl {A} (P : op -> Prop) (f : state -> A -> state)
  (l : list A) (s : state) :
  (forall s a, exists more, out (f s a) = out s ++ more /\ Forall P more) ->
  exists more, out (foldl f s l) = out s ++ more /\ Forall P more.
Proof.
  intros Hf. revert s. induction l as [|a l IH]; intros s.
  - apply added_refl.
  - cbn [foldl]. destruct (IH (f s a)) as (m2 & H2 & HP2).
    destruct (Hf s a) as (m1 & H1 & HP1).
    exists (m1 ++ m2). split; [by rewrite H2, H1, app_assoc|].
    by apply Forall_app.
Qed.

(** X24.  When a fresh page starts above the bottom margin, that is, when
    [height - 56 <= 40] is false, every line of the usage terms is drawn
    above the margin: no line is drawn at a height [y] with [y <= 40]. *)
Theorem usage_lines_above_margin (paragraph_blocks : list str) (s : state) :
  fle (height - of_Z 56)%F (of_Z 40) = false ->
  exists more,
    out (draw_usage_terms stringWidth width height font_regular
           paragraph_blocks s) = out s ++ more
    /\ Forall above_margin more.
Proof.
  intros Hpage. unfold draw_usage_terms.
  apply added_foldl. intros s1 paragraph. unfold draw_usage_paragraph.
  destruct (strip paragraph);
    [exists []; split; [by rewrite app_nil_r | constructor]|].
  apply added_foldl. intros s2 line. unfold draw_usage_line.
  destruct (fle (y s2) (of_Z 40)) eqn:Hy; cbn [out emit move_down y].
  - eexists. split; [by rewrite <- app_assoc|].
    repeat constructor. exact Hpage.
  - eexists. split; [reflexivity|]. repeat constructor. exact Hy.
Qed.

(** *** The agreement section with the two links *)

Lemma tidy_place_token (left_x right_x : float) (line_height : Z)
  (acc : float * float * list op) (tok : str * option str) :
  tidy false false (snd acc) ->
  tidy false false
    (snd (place_token stringWidth height font_regular left_x right_x
            line_height acc tok)).
Proof.
  destruct acc as [[cursor_x cursor_y] ops], tok as [token url].
  cbn [snd]. intros Hops. unfold place_token.
  destruct (flt right_x _ && flt left_x cursor_x);
    [destruct (fle _ (of_Z 40))|]; destruct url; cbn [snd];
    repeat (apply tidy_app; [|by split]); exact Hops.
Qed.

Lemma tidy_rich_paragraph (s : state) :
  tidy false false (out s) ->
  tidy false false
    (out (draw_rich_paragraph stringWidth width height font_regular s)).
Proof.
  intros Hs. unfold draw_rich_paragraph.
  match goal with
  | |- context [foldl ?f ?a ?l] =>
      pose proof (foldl_inv (fun acc => tidy false false (snd acc)) f l a Hs
                    (fun acc tok => tidy_place_token _ _ _ acc tok)) as H;
      destruct (foldl f a l) as [[cursor_x cursor_y] ops]
  end.
  cbn [out snd] in *. by apply tidy_app.
Qed.

Lemma tidy_paragraph_line (s : state) (line : str) :
  tidy false false (out s) ->
  tidy false false (out (draw_paragraph_line height font_regular s line)).
Proof.
  intros Hs. unfold draw_paragraph_line. destruct line as [|c line];
    [exact Hs|].
  cbn [out emit move_down]. by apply tidy_ensure_space.
Qed.

Lemma tidy_signature_block (required : float) (d : Z) (s : state) :
  tidy false false (out s) ->
  tidy false false
    (out (draw_signature_block width font_regular font_bold
            (ensure_space height required (move_down d s)))).
Proof.
  intros Hs. unfold draw_signature_block. cbn [out].
  by apply tidy_ensure_space.
Qed.

Lemma tidy_paragraph_lines (s : state) (lines : list str) :
  tidy false false (out s) ->
  tidy false false (out (foldl (draw_paragraph_line height font_regular) s
                           lines)).
Proof.
  intros Hs. apply (foldl_inv (fun s => tidy false false (out s)));
    [exact Hs | intros s' line; apply tidy_paragraph_line].
Qed.

Lemma tidy_emit (s : state) (more : list op) :
  tidy false false (out s) -> tidy false false more ->
  tidy false false (out (emit more s)).
Proof. intros Hs Hmore. cbn [out emit]. by apply tidy_app. Qed.

Lemma tidy_emit_ensure_space (required : float) (s : state)
  (more : list op) :
  tidy false false (out s) -> tidy true false more ->
  tidy false false more ->
  tidy false false (out (emit more (ensure_space height required s))).
Proof. intros Hs H1 H2. cbn [out emit]. by apply tidy_ensure_space. Qed.

Lemma tidy_move_down (d : Z) (s : state) :
  tidy false false (out s) -> tidy false false (out (move_down d s)).
Proof. done. Qed.

Lemma tidy_breaks (ops : list op) :
  tidy false false ops -> breaks_reset_state false false ops = true.
Proof. by intros []. Qed.

(** X25.  With an agreement text that names the Enterprise Subscription
    Agreement and the Data Processing Addendum (the text of every order
    that is not under an MSA), every page break of the agreement section is
    followed by a [setFont] and a [setFillColor] before the next text is
    drawn, wherever the section starts and whatever the font metrics and
    the page size are. *)
Theorem linked_agreement_resets_state (agreement_section : str)
  (start_y : float) :
  contains agreement_section (py "Enterprise Subscription Agreement")
    && contains agreement_section (py "Data Processing Addendum") = true ->
  breaks_reset_state false false
    (out (draw_agreement_section stringWidth width height font_regular
            font_bold agreement_section start_y)) = true.
Proof.
  intros Hlinks. unfold draw_agreement_section. rewrite Hlinks.
  apply tidy_breaks, tidy_signature_block, tidy_paragraph_lines.
  apply tidy_emit; [|by split].
  apply tidy_rich_paragraph.
  apply tidy_emit_ensure_space; [|by split..].
  apply tidy_move_down.
  apply tidy_emit_ensure_space; by split.
Qed.

End WithCanvas.

Lemma linked_agreement_resets_state_witness :
  breaks_reset_state false false
    (out (draw_agreement_section (fixed_pitch 5) (of_Z 612) (of_Z 792)
            (py "Helvetica") (py "Helvetica-Bold")
            (mjoin (fst <$> segments)) (of_Z 80))) = true.
Proof.
  apply (linked_agreement_resets_state (fixed_pitch 5) (of_Z 612) (of_Z 792)
           (py "Helvetica") (py "Helvetica-Bold")).
  vm_compute. reflexivity.
Defined.

Lemma usage_lines_above_margin_witness :
  exists more,
    out (draw_usage_terms (fixed_pitch 5) (of_Z 612) (of_Z 792)
           (py "Helvetica") [py "one"; []; py "two"] (mkstate (of_Z 41) []))
    = more
    /\ Forall above_margin more.
Proof.
  destruct (usage_lines_above_margin (fixed_pitch 5) (of_Z 612) (of_Z 792)
              (py "Helvetica") [py "one"; []; py "two"]
              (mkstate (of_Z 41) []) eq_refl) as (more & Hout & Hall).
  exists more. split; [exact Hout | exact Hall].
Defined.

End PageFacts.
